(** * FloatChat: migration of the ARGO tables from SQLite to Supabase

    A shallow embedding of the migration scripts

    - [migrate_to_supabase.py]   (batched inserts, SQLite -> PostgreSQL),
    - [bulk_import_supabase.py]  (CSV files loaded with COPY),
    - [import_csv_to_supabase.py] (CSV files loaded with COPY ... HEADER),
    - [export_to_csv.py]         (the source's tables written to CSV files),

    as programs of a small state-and-exception monad over a [world] that
    holds the two stores, the files the scripts read and a chronological
    log of everything the scripts print or send to a store. *)

From stdpp Require Import gmap strings list fin_maps pretty.
From Stdlib Require Import ZArith Lia.

Local Open Scope string_scope.
Local Open Scope list_scope.
Local Open Scope Z_scope.

(** ** Stores *)

(** The fixed names the scripts splice into their SQL. *)
Definition argo_floats : string := "argo_floats".
Definition argo_profiles : string := "argo_profiles".

Definition argo_floats_columns : list string :=
  ["float_id"; "first_timestamp"; "last_timestamp";
   "last_latitude"; "last_longitude"; "total_profiles"].

Definition argo_profiles_columns : list string :=
  ["id"; "float_id"; "timestamp"; "latitude"; "longitude";
   "depth"; "temperature"; "salinity"; "pressure"].

(** Data definition statements.  Column types are not modelled: whether
    a value fits its column is part of the destination's row check
    ([accepts] and [parse_row] below). *)
Inductive ddl : Type :=
| DropTableIfExistsCascade (t : string)
| CreateTable (t : string) (cols : list string)
| CreateIndex (i : string) (t : string) (cols : list string).

Record index : Type := Index { i_table : string; i_cols : list string }.

(** A row is a tuple of SQLite values.  The scripts fetch, count and hand
    rows on; they never look inside one. *)
Inductive value : Type :=
| Null
| Integer (z : Z)
| Real (mantissa exponent : Z)
| Text (s : string).

Definition Row : Type := list value.

Record table : Type := Table { t_cols : list string; t_rows : list Row }.

(** A database: tables and indexes by name (one name space, as in
    PostgreSQL). *)
Record db : Type := Db {
  tables : gmap string table;
  indexes : gmap string index
}.

Inductive db_error : Type :=
| InsufficientPrivilege (s : ddl)
| DuplicateRelation (n : string)
| UndefinedTable (n : string)
| UndefinedColumn (c : string)
| WrongObjectType (n : string)
| RowRejected (t : string) (r : Row)
| BadCopyData (t : string) (line : string)
| InFailedSqlTransaction
| ConnectionClosed
| ConnectionRefused
| NoSuchTable (t : string)
| NoSuchColumns (t : string).

(** Python exceptions.  [SystemExit] is a [BaseException]: an
    [except Exception] clause does not catch it. *)
Inductive exn : Type :=
| DatabaseError (e : db_error)
| FileNotFoundError (path : string)
| ValueError (what : string)
| StopIteration
| SystemExit (code : Z).

Definition is_Exception (e : exn) : bool :=
  match e with SystemExit _ => false | _ => true end.

(** *** The destination's checks

    What PostgreSQL decides from the role, the column types and the
    constraints is an interface of the model:
    - [permitted s]: the connected role may run the statement [s];
    - [accepts t cols cur r]: the destination takes row [r], given for
      the columns [cols], into table [t] currently holding [cur];
    - [parse_row t cols line]: COPY's reading of one CSV line for table
      [t] and column list [cols] ([None]: the table's own columns),
      [None] when the line is no row: it is malformed, or it is the
      end-of-data marker, which COPY never reads as a row;
    - [in_sample_region]: the row filter of the sample query of
      [import_csv] (latitude BETWEEN 8 AND 25 AND longitude BETWEEN 50
      AND 75). *)
Definition end_of_data : string := "\.".

Class Destination : Type := {
  permitted : ddl -> bool;
  accepts : string -> list string -> list Row -> Row -> bool;
  parse_row : string -> option (list string) -> string -> option Row;
  in_sample_region : Row -> bool;
  parse_row_end_of_data : forall t cols, parse_row t cols end_of_data = None
}.

Section Statements.
Context `{!Destination}.

(** *** Statements on a database *)

Definition rows_of (d : db) (t : string) : list Row :=
  match tables d !! t with Some tb => t_rows tb | None => [] end.

(** DROP TABLE t CASCADE takes the indexes on [t] with it. *)
Definition drop_table (t : string) (d : db) : db :=
  {| tables := delete t (tables d);
     indexes := filter (fun ix => i_table ix.2 ≠ t) (indexes d) |}.

Definition exec_ddl (s : ddl) (d : db) : db_error + db :=
  if negb (permitted s) then inl (InsufficientPrivilege s) else
  match s with
  | DropTableIfExistsCascade t =>
      match tables d !! t with
      | Some _ => inr (drop_table t d)
      | None =>
          match indexes d !! t with
          | Some _ => inl (WrongObjectType t)
          | None => inr d
          end
      end
  | CreateTable t cols =>
      match tables d !! t, indexes d !! t with
      | None, None =>
          inr {| tables := <[t := Table cols []]> (tables d);
                 indexes := indexes d |}
      | _, _ => inl (DuplicateRelation t)
      end
  | CreateIndex i t cols =>
      match tables d !! t with
      | None => inl (UndefinedTable t)
      | Some tb =>
          match filter (fun c => c ∉ t_cols tb) cols with
          | c :: _ => inl (UndefinedColumn c)
          | [] =>
              match tables d !! i, indexes d !! i with
              | None, None =>
                  inr {| tables := tables d;
                         indexes := <[i := Index t cols]> (indexes d) |}
              | _, _ => inl (DuplicateRelation i)
              end
          end
      end
  end.

(** A script of statements run in order; the first error stops it. *)
Fixpoint exec_ddls (ss : list ddl) (d : db) : db_error + db :=
  match ss with
  | [] => inr d
  | s :: ss' =>
      match exec_ddl s d with
      | inl e => inl e
      | inr d' => exec_ddls ss' d'
      end
  end.

(** Row-by-row insertion, as [executemany] and COPY do it. *)
Fixpoint insert_rows (t : string) (cols : list string)
    (cur : list Row) (rs : list Row) : db_error + list Row :=
  match rs with
  | [] => inr cur
  | r :: rs' =>
      if accepts t cols cur r then insert_rows t cols (cur ++ [r]) rs'
      else inl (RowRejected t r)
  end.

Definition set_rows (t : string) (rs : list Row) (d : db) : db :=
  {| tables := alter (fun tb => Table (t_cols tb) rs) t (tables d);
     indexes := indexes d |}.

Definition append_rows (t : string) (rs : list Row) (d : db) : db :=
  set_rows t (rows_of d t ++ rs) d.

Definition insert_many (t : string) (cols : list string)
    (rs : list Row) (d : db) : db_error + db :=
  match tables d !! t with
  | None => inl (UndefinedTable t)
  | Some tb =>
      match insert_rows t cols (t_rows tb) rs with
      | inl e => inl e
      | inr _ => inr (append_rows t rs d)
      end
  end.

(** What COPY reads of the lines sent to it: a line that holds the
    end-of-data marker alone (a backslash and a full stop, unquoted) ends
    the data, and the server reads nothing of what follows it. *)
Fixpoint copy_data (ls : list string) : list string :=
  match ls with
  | [] => []
  | l :: ls' => if String.eqb l end_of_data then [] else l :: copy_data ls'
  end.

(** COPY t(cols) FROM STDIN WITH CSV over the lines [ls]: every line of
    the data is parsed, then the rows go in; one bad line fails the
    statement. *)
Fixpoint parse_rows (t : string) (cols : option (list string))
    (ls : list string) : db_error + list Row :=
  match ls with
  | [] => inr []
  | l :: ls' =>
      match parse_row t cols l with
      | None => inl (BadCopyData t l)
      | Some r =>
          match parse_rows t cols ls' with
          | inl e => inl e
          | inr rs => inr (r :: rs)
          end
      end
  end.

Definition copy_rows (t : string) (cols : option (list string))
    (ls : list string) (d : db) : db_error + db :=
  match tables d !! t with
  | None => inl (UndefinedTable t)
  | Some tb =>
      match parse_rows t cols (copy_data ls) with
      | inl e => inl e
      | inr rs => insert_many t (default (t_cols tb) cols) rs d
      end
  end.

(** SELECT ... LIMIT limit OFFSET offset, with SQLite's reading of the
    bounds: a negative LIMIT is no limit, a negative OFFSET is zero.
    The model gives the page for every pair of bounds; SQLite does so
    for bounds that are 64-bit integers, and refuses the statement for
    others (datatype mismatch). *)
Definition select_page (rows : list Row) (limit offset : Z) : list Row :=
  let rest := drop (Z.to_nat offset) rows in
  if limit <? 0 then rest else take (Z.to_nat limit) rest.

End Statements.

(** ** The world of a run *)

(** What the scripts print.  Fixed texts are [Say]; formatted ones carry
    the values they interpolate. *)
Inductive message : Type :=
| Say (text : string)
| SayFailed (what : string) (e : exn)
| SayTables (what : string) (names : list string)
| Migrating (t : string)
| TotalRows (n : Z)
| Progress (rows_inserted total_rows : Z)
| Migrated (t : string) (rows_inserted : Z)
| CountsMatch (t : string) (n : Z)
| CountsMismatch (t : string) (sqlite_count pg_count : Z)
| EnvUrl (conn_string : string)
| FileSize (path : string) (lines : nat)
| Imported (t : string) (count : Z)
| ImportedTotal (t : string) (count : Z)
| RowCount (t : string) (count : Z)
| SampleRow (r : Row)
| SampleRegion (count : Z).

(** Everything a run does that is visible outside it, in order: a write
    to the destination is logged when it is sent, a read with what it
    returned. *)
Inductive event : Type :=
| Print (m : message)
| SqliteConnect
| SqliteTables (names : list string)
| SqliteCount (t : string) (n : Z)
| SqliteTableInfo (t : string) (cols : list string)
| SqliteSelect (t : string) (limit offset : Z) (batch : list Row)
| SqliteClose
| PgConnect
| PgExecute (ss : list ddl)
| PgExecuteMany (t : string) (cols : list string) (batch : list Row)
| PgCopy (t : string) (cols : option (list string)) (lines : list string)
| PgCount (t : string)
| PgSelect (t : string) (limit : nat)
| PgCountRegion
| PgCommit
| PgRollback
| PgClose.

(** The destination: the server's committed database and the state of
    the script's one connection to it (psycopg2 with autocommit off):
    [working] is what the open transaction sees. *)
Record pg_conn : Type := PgConn {
  committed : db;
  working : db;
  in_failed_txn : bool;
  pg_open : bool
}.

(** [sqlite_db k] is the content of argo_database.db at the moment of
    the source's [k]-th query: other writers may change it while a run
    reads.  The files are what the scripts find in their directory;
    supabase_schema.sql is kept as the statements it holds, and
    supabase_connection.txt as the text the scripts take from it: each
    of them reads it with [f.read().strip()], so [conn_string_file] is
    the content without the white space around it (the empty string for
    a file of white space only). *)
Record world : Type := World {
  conn_string_file : option string;
  schema_file : option (list ddl);
  csv_files : gmap string (list string);
  pg_reachable : bool;
  sqlite_db : nat -> gmap string table;
  sqlite_clock : nat;
  sqlite_open : bool;
  pg : pg_conn;
  log : list event
}.

Definition emit (e : event) (w : world) : world :=
  World (conn_string_file w) (schema_file w) (csv_files w) (pg_reachable w)
    (sqlite_db w) (sqlite_clock w) (sqlite_open w) (pg w) (log w ++ [e]).

Definition set_pg (c : pg_conn) (w : world) : world :=
  World (conn_string_file w) (schema_file w) (csv_files w) (pg_reachable w)
    (sqlite_db w) (sqlite_clock w) (sqlite_open w) c (log w).

Definition tick (w : world) : world :=
  World (conn_string_file w) (schema_file w) (csv_files w) (pg_reachable w)
    (sqlite_db w) (S (sqlite_clock w)) (sqlite_open w) (pg w) (log w).

Definition set_sqlite_open (b : bool) (w : world) : world :=
  World (conn_string_file w) (schema_file w) (csv_files w) (pg_reachable w)
    (sqlite_db w) (sqlite_clock w) b (pg w) (log w).

(** ** The monad of the scripts *)

Inductive outcome (A : Type) : Type :=
| Return (a : A)
| Raise (e : exn).
Arguments Return {A} a.
Arguments Raise {A} e.

(** A computation runs in a world and ends in a value or an exception;
    [None] is a loop that has used up its fuel. *)
Definition M (A : Type) : Type := world -> option (outcome A * world).

Definition ret {A} (a : A) : M A := fun w => Some (Return a, w).
Definition raise {A} (e : exn) : M A := fun w => Some (Raise e, w).
Definition diverge {A} : M A := fun _ => None.

Definition bind {A B} (m : M A) (k : A -> M B) : M B :=
  fun w =>
    match m w with
    | Some (Return a, w') => k a w'
    | Some (Raise e, w') => Some (Raise e, w')
    | None => None
    end.

Declare Scope script_scope.
Delimit Scope script_scope with script.
Bind Scope script_scope with M.
Notation "x <- m ;; k" := (bind m (fun x => k))
  (at level 100, m at next level, right associativity) : script_scope.
Notation "m ;; k" := (bind m (fun _ => k))
  (at level 100, right associativity) : script_scope.
Local Open Scope script_scope.

(** try: body / except Exception as e: handler e *)
Definition try_except {A} (body : M A) (handler : exn -> M A) : M A :=
  fun w =>
    match body w with
    | Some (Raise e, w') =>
        if is_Exception e then handler e w' else Some (Raise e, w')
    | r => r
    end.

(** try: body / finally: cleanup.  The cleanup runs on every way out of
    the body; an exception of the cleanup replaces the body's outcome. *)
Definition try_finally {A} (body : M A) (cleanup : M unit) : M A :=
  fun w =>
    match body w with
    | Some (r, w') =>
        match cleanup w' with
        | Some (Return _, w'') => Some (r, w'')
        | Some (Raise e, w'') => Some (Raise e, w'')
        | None => None
        end
    | None => None
    end.

Definition print (m : message) : M unit :=
  fun w => Some (Return tt, emit (Print m) w).

Definition sys_exit {A} (code : Z) : M A := raise (SystemExit code).

(** ** The two stores as the scripts drive them *)

Section Scripts.
Context `{!Destination}.

(** *** sqlite3 *)

Definition sqlite_connect : M unit :=
  fun w => Some (Return tt, emit SqliteConnect (set_sqlite_open true w)).

Definition sqlite_close : M unit :=
  fun w => Some (Return tt, emit SqliteClose (set_sqlite_open false w)).

(** One [execute] and its fetch: the query reads the source as it is at
    this moment. *)
Definition sqlite_query {A} (q : gmap string table -> exn + A * event)
    : M A :=
  fun w =>
    if sqlite_open w then
      match q (sqlite_db w (sqlite_clock w)) with
      | inl e => Some (Raise e, tick w)
      | inr (a, ev) => Some (Return a, emit ev (tick w))
      end
    else Some (Raise (DatabaseError ConnectionClosed), w).

(** SELECT name FROM sqlite_master WHERE type='table' *)
Definition sqlite_tables : M (list string) :=
  sqlite_query (fun d =>
    let names := (map_to_list d).*1 in inr (names, SqliteTables names)).

(** SELECT COUNT( * ) FROM t *)
Definition sqlite_count (t : string) : M Z :=
  sqlite_query (fun d =>
    match d !! t with
    | None => inl (DatabaseError (NoSuchTable t))
    | Some tb =>
        let n := Z.of_nat (length (t_rows tb)) in inr (n, SqliteCount t n)
    end).

(** PRAGMA table_info(t): the column names (none for an unknown table). *)
Definition sqlite_table_info (t : string) : M (list string) :=
  sqlite_query (fun d =>
    let cols := match d !! t with Some tb => t_cols tb | None => [] end in
    inr (cols, SqliteTableInfo t cols)).

(** SELECT cols FROM t LIMIT limit OFFSET offset.  The model covers a
    source whose rows may change during a run but whose columns do not:
    the select names all the table's columns, in order. *)
Definition sqlite_select (t : string) (cols : list string)
    (limit offset : Z) : M (list Row) :=
  sqlite_query (fun d =>
    match d !! t with
    | None => inl (DatabaseError (NoSuchTable t))
    | Some tb =>
        if bool_decide (cols = t_cols tb) then
          let batch := select_page (t_rows tb) limit offset in
          inr (batch, SqliteSelect t limit offset batch)
        else inl (DatabaseError (NoSuchColumns t))
    end).

(** *** psycopg2 *)

Definition pg_connect : M unit :=
  fun w =>
    if pg_reachable w then
      let d := committed (pg w) in
      Some (Return tt, emit PgConnect (set_pg (PgConn d d false true) w))
    else Some (Raise (DatabaseError ConnectionRefused), w).

(** A statement sent on the connection: it runs on the transaction's
    view; an error puts the transaction in the failed state, in which
    every further statement is refused. *)
Definition pg_statement {A} (ev : event) (run : db -> db_error + A * db)
    : M A :=
  fun w =>
    let w := emit ev w in
    let c := pg w in
    if negb (pg_open c) then Some (Raise (DatabaseError ConnectionClosed), w)
    else if in_failed_txn c then
      Some (Raise (DatabaseError InFailedSqlTransaction), w)
    else
      match run (working c) with
      | inl e =>
          Some (Raise (DatabaseError e),
                set_pg (PgConn (committed c) (working c) true true) w)
      | inr (a, d') =>
          Some (Return a, set_pg (PgConn (committed c) d' false true) w)
      end.

Definition pg_execute (ss : list ddl) : M unit :=
  pg_statement (PgExecute ss) (fun d =>
    match exec_ddls ss d with inl e => inl e | inr d' => inr (tt, d') end).

Definition pg_executemany (t : string) (cols : list string)
    (batch : list Row) : M unit :=
  pg_statement (PgExecuteMany t cols batch) (fun d =>
    match insert_many t cols batch d with
    | inl e => inl e
    | inr d' => inr (tt, d')
    end).

Definition pg_copy_expert (t : string) (cols : option (list string))
    (lines : list string) : M unit :=
  pg_statement (PgCopy t cols lines) (fun d =>
    match copy_rows t cols lines d with
    | inl e => inl e
    | inr d' => inr (tt, d')
    end).

Definition pg_read {A} (ev : event) (t : string) (f : list Row -> A) : M A :=
  pg_statement ev (fun d =>
    match tables d !! t with
    | None => inl (UndefinedTable t)
    | Some tb => inr (f (t_rows tb), d)
    end).

(** SELECT COUNT( * ) FROM t *)
Definition pg_count (t : string) : M Z :=
  pg_read (PgCount t) t (fun rs => Z.of_nat (length rs)).

(** SELECT * FROM t LIMIT n *)
Definition pg_select_limit (t : string) (n : nat) : M (list Row) :=
  pg_read (PgSelect t n) t (take n).

(** SELECT COUNT( * ) FROM argo_profiles WHERE latitude BETWEEN ... *)
Definition pg_count_region : M Z :=
  pg_read PgCountRegion argo_profiles
    (fun rs => Z.of_nat (length (filter (fun r => in_sample_region r = true) rs))).

(** COMMIT makes the transaction's view the database; on a failed
    transaction the server answers it with a rollback. *)
Definition pg_commit : M unit :=
  fun w =>
    let w := emit PgCommit w in
    let c := pg w in
    if negb (pg_open c) then Some (Raise (DatabaseError ConnectionClosed), w)
    else
      let d := if in_failed_txn c then committed c else working c in
      Some (Return tt, set_pg (PgConn d d false true) w).

Definition pg_rollback : M unit :=
  fun w =>
    let w := emit PgRollback w in
    let c := pg w in
    if negb (pg_open c) then Some (Raise (DatabaseError ConnectionClosed), w)
    else
      Some (Return tt, set_pg (PgConn (committed c) (committed c) false true) w).

(** Closing discards whatever the open transaction had not committed. *)
Definition pg_close : M unit :=
  fun w =>
    let w := emit PgClose w in
    let c := pg w in
    Some (Return tt, set_pg (PgConn (committed c) (committed c) false false) w).

(** *** Files *)

Definition supabase_connection_txt : string := "supabase_connection.txt".
Definition supabase_schema_sql : string := "supabase_schema.sql".

Definition read_connection_file : M string :=
  fun w =>
    match conn_string_file w with
    | Some s => Some (Return s, w)
    | None => Some (Raise (FileNotFoundError supabase_connection_txt), w)
    end.

Definition read_schema_file : M (list ddl) :=
  fun w =>
    match schema_file w with
    | Some ss => Some (Return ss, w)
    | None => Some (Raise (FileNotFoundError supabase_schema_sql), w)
    end.

Definition read_lines (path : string) : M (list string) :=
  fun w =>
    match csv_files w !! path with
    | Some ls => Some (Return ls, w)
    | None => Some (Raise (FileNotFoundError path), w)
    end.

End Scripts.

Definition rule (n : nat) : message := Say (String.concat "" (replicate n "=")).

(** ** migrate_to_supabase.py *)

Module migrate_to_supabase.
Section Script.
Context `{!Destination}.

Definition load_connection_string : M string :=
  fun w =>
    match conn_string_file w with
    | Some conn_str =>
        if String.eqb conn_str "" then
          raise (ValueError "Connection string file is empty") w
        else ret conn_str w
    | None =>
        (print (Say "supabase_connection.txt not found!");;
         print (Say "Run 'python test_supabase_connection.py' first to save your connection string");;
         sys_exit 1) w
    end.

Definition connect_sqlite : M unit :=
  print (Say "Connecting to SQLite: argo_database.db");;
  try_except
    (sqlite_connect;;
     tables <- sqlite_tables;;
     if negb (bool_decide (argo_profiles ∈ tables))
        || negb (bool_decide (argo_floats ∈ tables))
     then
       print (Say "Required tables not found");;
       sys_exit 1
     else
       print (SayTables "SQLite connected. Tables" tables))
    (fun e =>
       print (SayFailed "SQLite connection failed" e);;
       sys_exit 1).

Definition connect_postgres (conn_string : string) : M unit :=
  print (Say "Connecting to Supabase...");;
  try_except
    (pg_connect;;
     print (Say "PostgreSQL connected"))
    (fun e =>
       print (SayFailed "PostgreSQL connection failed" e);;
       sys_exit 1).

(** The nine statements of [create_tables], in the order it sends them. *)
Definition drop_statements : list ddl :=
  [DropTableIfExistsCascade argo_profiles;
   DropTableIfExistsCascade argo_floats].

Definition index_statements : list ddl :=
  [CreateIndex "idx_profiles_float_id" argo_profiles ["float_id"];
   CreateIndex "idx_profiles_timestamp" argo_profiles ["timestamp"];
   CreateIndex "idx_profiles_lat" argo_profiles ["latitude"];
   CreateIndex "idx_profiles_lon" argo_profiles ["longitude"];
   CreateIndex "idx_profiles_location" argo_profiles ["latitude"; "longitude"]].

Fixpoint execute_each (ss : list ddl) : M unit :=
  match ss with
  | [] => ret tt
  | s :: ss' => pg_execute [s];; execute_each ss'
  end.

Definition create_tables : M unit :=
  print (Say "Creating tables...");;
  try_except
    (execute_each drop_statements;;
     pg_execute [CreateTable argo_floats argo_floats_columns];;
     print (Say "Created: argo_floats");;
     pg_execute [CreateTable argo_profiles argo_profiles_columns];;
     print (Say "Created: argo_profiles");;
     print (Say "Creating indexes...");;
     execute_each index_statements;;
     print (Say "Indexes created");;
     pg_commit)
    (fun e =>
       pg_rollback;;
       print (SayFailed "Table creation failed" e);;
       raise e).

(** The while loop of [migrate_data]; [fuel] bounds its iterations.  The
    progress line divides by [total_rows], which is positive inside the
    loop. *)
Fixpoint migrate_loop (fuel : nat) (table_name : string)
    (columns : list string) (batch_size total_rows : Z)
    (offset rows_inserted : Z) : M Z :=
  match fuel with
  | O => diverge
  | S fuel' =>
      if offset <? total_rows then
        batch <- sqlite_select table_name columns batch_size offset;;
        match batch with
        | [] => ret rows_inserted
        | _ :: _ =>
            pg_executemany table_name columns batch;;
            pg_commit;;
            let rows_inserted := rows_inserted + Z.of_nat (length batch) in
            let offset := offset + batch_size in
            print (Progress rows_inserted total_rows);;
            migrate_loop fuel' table_name columns batch_size total_rows
              offset rows_inserted
        end
      else ret rows_inserted
  end.

Definition migrate_data (fuel : nat) (table_name : string)
    (batch_size : Z) : M Z :=
  print (Migrating table_name);;
  total_rows <- sqlite_count table_name;;
  print (TotalRows total_rows);;
  columns <- sqlite_table_info table_name;;
  rows_inserted <-
    migrate_loop fuel table_name columns batch_size total_rows 0 0;;
  print (Migrated table_name rows_inserted);;
  ret rows_inserted.

(** The for loop of [verify_migration] over its list of tables. *)
Fixpoint verify_tables (ts : list string) (all_good : bool) : M bool :=
  match ts with
  | [] => ret all_good
  | t :: ts' =>
      sqlite_count_ <- sqlite_count t;;
      pg_count_ <- pg_count t;;
      if sqlite_count_ =? pg_count_ then
        print (CountsMatch t sqlite_count_);;
        verify_tables ts' all_good
      else
        print (CountsMismatch t sqlite_count_ pg_count_);;
        verify_tables ts' false
  end.

Definition verify_migration : M bool :=
  print (Say "Verifying migration...");;
  verify_tables [argo_profiles; argo_floats] true.

Definition main (fuel : nat) : M unit :=
  print (rule 60);;
  print (Say "ARGO Database Migration: SQLite -> Supabase PostgreSQL");;
  print (rule 60);;
  conn_string <- load_connection_string;;
  print (Say "Using saved connection string");;
  connect_sqlite;;
  connect_postgres conn_string;;
  try_finally
    (try_except
       (create_tables;;
        migrate_data fuel argo_floats 2000;;
        migrate_data fuel argo_profiles 5000;;
        ok <- verify_migration;;
        if ok then
          print (rule 60);;
          print (Say "MIGRATION SUCCESSFUL!");;
          print (rule 60);;
          print (Say "Add to your .env:");;
          print (Say "USE_SUPABASE=true");;
          print (EnvUrl conn_string)
        else
          print (Say "Migration completed with errors"))
       (fun e =>
          print (SayFailed "Migration failed" e);;
          print (Say "traceback")))
    (sqlite_close;;
     pg_close;;
     print (Say "Connections closed")).

End Script.
End migrate_to_supabase.

(** ** bulk_import_supabase.py *)

Module bulk_import_supabase.
Section Script.
Context `{!Destination}.

Definition argo_floats_csv : string := "argo_floats.csv".
Definition argo_profiles_csv : string := "argo_profiles.csv".

(** The banner line of 25 wave signs. *)
Definition waves : message := Say (String.concat "" (replicate 25 "~")).

Definition get_connection : M unit :=
  connection_string <- read_connection_file;;
  pg_connect.

Definition create_schema : M unit :=
  print (rule 50);;
  print (Say "STEP 1: Creating tables...");;
  print (rule 50);;
  schema_sql <- read_schema_file;;
  pg_execute schema_sql;;
  pg_commit;;
  print (Say "Tables created successfully!").

(** [next(f)] on the open file: the header line is dropped; an empty
    file raises StopIteration. *)
Definition skip_header (lines : list string) : M (list string) :=
  match lines with
  | [] => raise StopIteration
  | _ :: rest => ret rest
  end.

Definition import_argo_floats : M unit :=
  print (rule 50);;
  print (Say "STEP 2: Importing argo_floats.csv (~2,072 rows)...");;
  print (rule 50);;
  f <- read_lines argo_floats_csv;;
  print (FileSize argo_floats_csv (length f));;
  f <- skip_header f;;
  pg_copy_expert argo_floats (Some argo_floats_columns) f;;
  pg_commit;;
  count <- pg_count argo_floats;;
  print (Imported argo_floats count).

Definition import_argo_profiles : M unit :=
  print (rule 50);;
  print (Say "STEP 3: Importing argo_profiles.csv (~1.3M rows)...");;
  print (rule 50);;
  f <- read_lines argo_profiles_csv;;
  print (FileSize argo_profiles_csv (length f));;
  print (Say "This may take 5-10 minutes...");;
  f <- skip_header f;;
  pg_copy_expert argo_profiles (Some argo_profiles_columns) f;;
  pg_commit;;
  count <- pg_count argo_profiles;;
  print (Imported argo_profiles count);;
  print (Say "Time taken").

Fixpoint print_rows (rows : list Row) : M unit :=
  match rows with
  | [] => ret tt
  | row :: rows' => print (SampleRow row);; print_rows rows'
  end.

Definition verify_import : M (Z * Z) :=
  print (rule 50);;
  print (Say "STEP 4: Verifying import...");;
  print (rule 50);;
  floats_count <- pg_count argo_floats;;
  profiles_count <- pg_count argo_profiles;;
  sample_floats <- pg_select_limit argo_floats 3;;
  sample_profiles <- pg_select_limit argo_profiles 3;;
  print (Say "Table Row Counts:");;
  print (RowCount argo_floats floats_count);;
  print (RowCount argo_profiles profiles_count);;
  print (Say "Sample from argo_floats:");;
  print_rows sample_floats;;
  print (Say "Sample from argo_profiles:");;
  print_rows sample_profiles;;
  ret (floats_count, profiles_count).

Definition main : M unit :=
  print waves;;
  print (Say "SUPABASE BULK DATA IMPORT");;
  print (Say "FloatChat ARGO Database Migration");;
  print waves;;
  try_except
    (print (Say "Connecting to Supabase PostgreSQL...");;
     get_connection;;
     print (Say "Connected!");;
     create_schema;;
     import_argo_floats;;
     import_argo_profiles;;
     counts <- verify_import;;
     pg_close;;
     print (rule 50);;
     print (Say "MIGRATION COMPLETE!");;
     print (rule 50);;
     print (ImportedTotal argo_floats counts.1);;
     print (ImportedTotal argo_profiles counts.2);;
     print (Say "Your data is now live in Supabase!");;
     print (rule 50))
    (fun e =>
       print (SayFailed "ERROR" e);;
       raise e).

End Script.
End bulk_import_supabase.

(** ** import_csv_to_supabase.py *)

Module import_csv_to_supabase.
Section Script.
Context `{!Destination}.

Definition load_connection_string : M string :=
  fun w =>
    match conn_string_file w with
    | Some conn_str => ret conn_str w
    | None =>
        (print (Say "supabase_connection.txt not found!");;
         sys_exit 1) w
    end.

(** COPY ... FROM STDIN CSV HEADER: of the lines it reads, COPY itself
    drops the first. *)
Definition copy_with_header (t : string) (f : list string) : M unit :=
  pg_copy_expert t None (tail (copy_data f)).

Fixpoint print_counts (results : list (string * Z)) : M unit :=
  match results with
  | [] => ret tt
  | (table, count) :: rest => print (RowCount table count);; print_counts rest
  end.

Definition import_csv (conn_string : string) : M unit :=
  print (rule 60);;
  print (Say "ARGO CSV Import to Supabase");;
  print (rule 60);;
  print (Say "Connecting to Supabase...");;
  pg_connect;;
  print (Say "Connected");;
  try_finally
    (try_except
       (print (Say "Creating tables...");;
        schema_sql <- read_schema_file;;
        pg_execute schema_sql;;
        pg_commit;;
        print (Say "Tables created");;
        print (Say "Importing argo_floats.csv...");;
        f <- read_lines "argo_floats.csv";;
        copy_with_header argo_floats f;;
        pg_commit;;
        count <- pg_count argo_floats;;
        print (Imported argo_floats count);;
        print (Say "Importing argo_profiles.csv...");;
        print (Say "This will take 5-10 minutes...");;
        f <- read_lines "argo_profiles.csv";;
        copy_with_header argo_profiles f;;
        pg_commit;;
        count <- pg_count argo_profiles;;
        print (Imported argo_profiles count);;
        print (Say "Verifying...");;
        floats_count <- pg_count argo_floats;;
        profiles_count <- pg_count argo_profiles;;
        print_counts [(argo_floats, floats_count);
                      (argo_profiles, profiles_count)];;
        print (Say "Testing sample query...");;
        test_count <- pg_count_region;;
        print (SampleRegion test_count);;
        print (rule 60);;
        print (Say "IMPORT SUCCESSFUL!");;
        print (rule 60);;
        print (Say "Add to backend/.env:");;
        print (Say "USE_SUPABASE=true");;
        print (EnvUrl conn_string))
       (fun e =>
          pg_rollback;;
          print (SayFailed "Import failed" e);;
          print (Say "traceback")))
    (pg_close;;
     print (Say "Connection closed")).

Definition main : M unit :=
  conn_string <- load_connection_string;;
  import_csv conn_string.

End Script.
End import_csv_to_supabase.

(** ** export_to_csv.py *)

(** *** Files written *)

Definition set_csv_files (fs : gmap string (list string)) (w : world)
    : world :=
  World (conn_string_file w) (schema_file w) fs (pg_reachable w)
    (sqlite_db w) (sqlite_clock w) (sqlite_open w) (pg w) (log w).

(** open(path, 'w'): the file is created, or emptied if it was there. *)
Definition open_for_writing (path : string) : M unit :=
  fun w => Some (Return tt, set_csv_files (<[path := []]> (csv_files w)) w).

(** Lines written to the open file go to its end. *)
Definition write_lines (path : string) (lines : list string) : M unit :=
  fun w =>
    let f := default [] (csv_files w !! path) in
    Some (Return tt, set_csv_files (<[path := f ++ lines]> (csv_files w)) w).

(** SELECT * FROM t, executed: the cursor's description (the column
    names) and the rows the cursor will deliver.  SQLite reads them from
    the source as it is when the statement starts; later fetches see
    the same rows.  The log has no event for this query. *)
Definition sqlite_select_all (t : string) : M (list string * list Row) :=
  fun w =>
    if sqlite_open w then
      match sqlite_db w (sqlite_clock w) !! t with
      | None => Some (Raise (DatabaseError (NoSuchTable t)), tick w)
      | Some tb => Some (Return (t_cols tb, t_rows tb), tick w)
      end
    else Some (Raise (DatabaseError ConnectionClosed), w).

(** csv.writer's rendering of a record is an interface of the model:
    [writerow r] is the line it writes for the record [r].  The model
    covers records whose fields hold no line break, so that a record is
    one line of the file. *)
Class CsvWriter : Type := {
  writerow : Row -> string
}.

Module export_to_csv.

(** What the export can raise: what the other scripts raise, and the
    ZeroDivisionError of its progress line. *)
Inductive error : Type :=
| Raised (e : exn)
| ZeroDivisionError.

Inductive result (A : Type) : Type :=
| Done (a : A)
| Failed (e : error).
Arguments Done {A} a.
Arguments Failed {A} e.

Definition E (A : Type) : Type := world -> option (result A * world).

Definition done {A} (a : A) : E A := fun w => Some (Done a, w).
Definition fail {A} (e : error) : E A := fun w => Some (Failed e, w).

Definition lift {A} (m : M A) : E A :=
  fun w =>
    match m w with
    | Some (Return a, w') => Some (Done a, w')
    | Some (Raise e, w') => Some (Failed (Raised e), w')
    | None => None
    end.

Definition and_then {A B} (m : E A) (k : A -> E B) : E B :=
  fun w =>
    match m w with
    | Some (Done a, w') => k a w'
    | Some (Failed e, w') => Some (Failed e, w')
    | None => None
    end.

Declare Scope export_scope.
Delimit Scope export_scope with export.
Bind Scope export_scope with E.
Notation "x <- m ;; k" := (and_then m (fun x => k))
  (at level 100, m at next level, right associativity) : export_scope.
Notation "m ;; k" := (and_then m (fun _ => k))
  (at level 100, right associativity) : export_scope.

Section Script.
Context `{!CsvWriter}.
Local Open Scope export_scope.

Definition batch_size : nat := Z.to_nat 50000.

(** cursor.fetchmany(size): the next [size] rows, and what is left. *)
Definition fetchmany (size : nat) (cursor : list Row)
    : list Row * list Row :=
  (take size cursor, drop size cursor).

(** The while loop of [export_to_csv]; [fuel] bounds its iterations.
    [cursor] holds the rows not yet fetched. *)
Fixpoint write_batches (fuel : nat) (output_file : string) (size : nat)
    (total : Z) (cursor : list Row) (rows_written : Z) : E Z :=
  match fuel with
  | O => fun _ => None
  | S fuel' =>
      let (batch, cursor) := fetchmany size cursor in
      match batch with
      | [] => done rows_written
      | _ :: _ =>
          lift (write_lines output_file (writerow <$> batch));;
          let rows_written := rows_written + Z.of_nat (length batch) in
          (if total =? 0 then fail ZeroDivisionError else done tt);;
          lift (print (Progress rows_written total));;
          write_batches fuel' output_file size total cursor rows_written
      end
  end.

Definition export_to_csv (fuel : nat) (table_name output_file : string)
    : E Z :=
  lift (print (Say ("Exporting " ++ table_name ++ "...")));;
  lift sqlite_connect;;
  total <- lift (sqlite_count table_name);;
  lift (print (TotalRows total));;
  selected <- lift (sqlite_select_all table_name);;
  lift (open_for_writing output_file);;
  let headers := selected.1 in
  lift (write_lines output_file [writerow (Text <$> headers)]);;
  rows_written <-
    write_batches fuel output_file batch_size total selected.2 0;;
  lift (print (Say ("Exported to: " ++ output_file)));;
  lift sqlite_close;;
  done rows_written.

Definition double_quote : string := String (Ascii.ascii_of_nat 34) "".

Definition create_tables_sql : string := "
CREATE TABLE argo_floats (
    float_id TEXT PRIMARY KEY,
    first_timestamp TEXT,
    last_timestamp TEXT,
    last_latitude DOUBLE PRECISION,
    last_longitude DOUBLE PRECISION,
    total_profiles INTEGER
);

CREATE TABLE argo_profiles (
    id BIGINT,
    float_id TEXT,
    timestamp TEXT,
    latitude DOUBLE PRECISION,
    longitude DOUBLE PRECISION,
    depth DOUBLE PRECISION,
    temperature DOUBLE PRECISION,
    salinity DOUBLE PRECISION,
    pressure DOUBLE PRECISION
);

CREATE INDEX idx_profiles_float_id ON argo_profiles(float_id);
CREATE INDEX idx_profiles_timestamp ON argo_profiles(timestamp);
CREATE INDEX idx_profiles_lat ON argo_profiles(latitude);
CREATE INDEX idx_profiles_lon ON argo_profiles(longitude);
CREATE INDEX idx_profiles_location ON argo_profiles(latitude, longitude);
".

(** The instructions [main] prints after the export. *)
Definition next_steps : M unit :=
  (print (Say "Next steps - Import to Supabase via SQL Editor:");;
  print (Say "1. Go to Supabase Dashboard -> SQL Editor");;
  print (Say "2. Create tables (run this SQL):");;
  print (Say create_tables_sql);;
  print (Say "3. Import CSVs:");;
  print (Say "a. Go to Table Editor -> argo_floats -> Insert -> Import from CSV");;
  print (Say "b. Upload argo_floats.csv");;
  print (Say "c. Repeat for argo_profiles.csv");;
  print (Say "OR use psql command (faster for large files):");;
  print (Say "Get connection string from supabase_connection.txt");;
  print (Say "Then run:");;
  print (Say ("psql <connection-string> -c " ++ double_quote
              ++ "\COPY argo_floats FROM 'argo_floats.csv' CSV HEADER;"
              ++ double_quote));;
  print (Say ("psql <connection-string> -c " ++ double_quote
              ++ "\COPY argo_profiles FROM 'argo_profiles.csv' CSV HEADER;"
              ++ double_quote));;
  print (Say "Files created:");;
  print (Say "- argo_floats.csv");;
  print (Say "- argo_profiles.csv"))%script.

(** On the early return the connection is not closed. *)
Definition main (fuel : nat) : E unit :=
  lift (print (rule 60));;
  lift (print (Say "ARGO Database CSV Export"));;
  lift (print (rule 60));;
  lift (print (Say "Connecting to SQLite..."));;
  lift sqlite_connect;;
  tables <- lift sqlite_tables;;
  if negb (bool_decide (argo_profiles ∈ tables))
     || negb (bool_decide (argo_floats ∈ tables))
  then
    lift (print (Say "Required tables not found"))
  else
    lift (print (SayTables "Found tables"
                   (filter (fun t => t ≠ "sqlite_sequence") tables)));;
    lift sqlite_close;;
    export_to_csv fuel argo_floats "argo_floats.csv";;
    export_to_csv fuel argo_profiles "argo_profiles.csv";;
    lift (print (rule 60));;
    lift (print (Say "EXPORT COMPLETE!"));;
    lift (print (rule 60));;
    lift next_steps.

End Script.
End export_to_csv.

(** * Properties *)

Import migrate_to_supabase.

(** The batches a stretch of the log fetched from the source, and the
    ones it sent to the destination. *)
Definition fetched_batches (evs : list event) : list (list Row) :=
  omap (fun e =>
    match e with SqliteSelect _ _ _ b => Some b | _ => None end) evs.

Definition inserted_batches (evs : list event) : list (list Row) :=
  omap (fun e =>
    match e with PgExecuteMany _ _ b => Some b | _ => None end) evs.

(** The offsets of the page queries in a stretch of the log. *)
Definition page_offsets (evs : list event) : list Z :=
  omap (fun e =>
    match e with SqliteSelect _ _ o _ => Some o | _ => None end) evs.

(** The writes a stretch of the log sent to the destination. *)
Definition is_pg_write (e : event) : bool :=
  match e with
  | PgExecute _ | PgExecuteMany _ _ _ | PgCopy _ _ _
  | PgCommit | PgRollback => true
  | _ => false
  end.

Definition pg_writes (evs : list event) : list event :=
  filter (fun e => is_pg_write e = true) evs.

(** The destination writes of a load that got the batches [bs] through:
    each batch is one executemany, committed at once. *)
Definition batch_writes (t : string) (cols : list string)
    (bs : list (list Row)) : list event :=
  flat_map (fun b => [PgExecuteMany t cols b; PgCommit]) bs.

(** The source holds the same table [tb] under the name [t] at every
    query of the run. *)
Definition source_unchanged (w : world) (t : string) (tb : table) : Prop :=
  forall k, sqlite_db w k !! t = Some tb.

(** The sum of the lengths of a list of batches. *)
Definition sum_lengths (bs : list (list Row)) : Z :=
  foldr (fun b acc => Z.of_nat (length b) + acc) 0 bs.

(** The line [verify_migration] prints for a table with [s] rows in the
    source and [p] in the destination. *)
Definition report_line (t : string) (s p : Z) : message :=
  if s =? p then CountsMatch t s else CountsMismatch t s p.

Definition row_count (tb : table) : Z := Z.of_nat (length (t_rows tb)).

(** The per-table detail of a verification that reads the source at its
    [k]-th query: table name, source count, destination count, match. *)
Definition table_detail (w : world) (k : nat) (t : string)
    : string * Z * Z * bool :=
  let s := match sqlite_db w k !! t with
           | Some tb => row_count tb | None => 0 end in
  let p := Z.of_nat (length (rows_of (working (pg w)) t)) in
  (t, s, p, s =? p).

(** The statements of [create_tables], in the order it sends them. *)
Definition create_tables_statements : list ddl :=
  drop_statements
  ++ [CreateTable argo_floats argo_floats_columns;
      CreateTable argo_profiles argo_profiles_columns]
  ++ index_statements.

Definition index_names : list string :=
  ["idx_profiles_float_id"; "idx_profiles_timestamp"; "idx_profiles_lat";
   "idx_profiles_lon"; "idx_profiles_location"].

Global Instance index_eq_dec : EqDecision index.
Proof. solve_decision. Defined.

(** The invariant of a database: an index is on a table that exists, and
    no name is both a table and an index. *)
Definition well_formed (d : db) : Prop :=
  map_Forall (fun _ ix => is_Some (tables d !! i_table ix)) (indexes d) /\
  map_Forall (fun n _ => indexes d !! n = None) (tables d).

(** Nothing in the way of [create_tables]: the two table names are not
    index names, and the five index names are free or held by indexes
    on the two tables (which the drops take away). *)
Definition provisionable (d : db) : Prop :=
  indexes d !! argo_floats = None /\
  indexes d !! argo_profiles = None /\
  Forall (fun i =>
    tables d !! i = None /\
    match indexes d !! i with
    | Some ix => i_table ix = argo_floats \/ i_table ix = argo_profiles
    | None => True
    end) index_names.

(** What [create_tables] makes of a database. *)
Definition provisioned (d : db) : db := {|
  tables :=
    <[argo_profiles := Table argo_profiles_columns []]>
      (<[argo_floats := Table argo_floats_columns []]>
         (delete argo_floats (delete argo_profiles (tables d))));
  indexes :=
    <["idx_profiles_location" := Index argo_profiles ["latitude"; "longitude"]]>
   (<["idx_profiles_lon" := Index argo_profiles ["longitude"]]>
   (<["idx_profiles_lat" := Index argo_profiles ["latitude"]]>
   (<["idx_profiles_timestamp" := Index argo_profiles ["timestamp"]]>
   (<["idx_profiles_float_id" := Index argo_profiles ["float_id"]]>
      (filter (fun ix => i_table ix.2 ≠ argo_floats)
         (filter (fun ix => i_table ix.2 ≠ argo_profiles) (indexes d)))))))
|}.

(** The five indexes of argo_profiles. *)
Definition profile_indexes : list (string * index) :=
  [("idx_profiles_float_id", Index argo_profiles ["float_id"]);
   ("idx_profiles_timestamp", Index argo_profiles ["timestamp"]);
   ("idx_profiles_lat", Index argo_profiles ["latitude"]);
   ("idx_profiles_lon", Index argo_profiles ["longitude"]);
   ("idx_profiles_location", Index argo_profiles ["latitude"; "longitude"])].

(** What a stretch of data definition leaves in the log. *)
Definition is_ddl_event (e : event) : Prop :=
  match e with Print _ | PgExecute _ | PgCommit => True | _ => False end.

(** ** Relations a computation keeps between the world it starts in and
    the world it ends in *)

Definition respects {A} (R : world -> world -> Prop) (m : M A) : Prop :=
  forall w r w', m w = Some (r, w') -> R w w'.

(** The log grows by events that all satisfy [P]. *)
Definition logs (P : event -> Prop) (w w' : world) : Prop :=
  exists evs, log w' = log w ++ evs /\ Forall P evs.

(** The destination's committed database is untouched. *)
Definition same_committed (w w' : world) : Prop :=
  committed (pg w') = committed (pg w).

(** The connection to the destination is untouched. *)
Definition same_pg (w w' : world) : Prop := pg w' = pg w.

(** ** The phases of a run *)

Inductive phase : Type :=
| Provision
| Load (t : string)
| Verify.

(** The line each phase opens with: the first print of [create_tables],
    [migrate_data] and [verify_migration], the STEP banner of the CSV
    script's functions. *)
Definition start_of (e : event) : option phase :=
  match e with
  | Print (Say text) =>
      if String.eqb text "Creating tables..."
         || String.eqb text "STEP 1: Creating tables..."
      then Some Provision
      else if String.eqb text
                "STEP 2: Importing argo_floats.csv (~2,072 rows)..."
      then Some (Load argo_floats)
      else if String.eqb text
                "STEP 3: Importing argo_profiles.csv (~1.3M rows)..."
      then Some (Load argo_profiles)
      else if String.eqb text "Verifying migration..."
              || String.eqb text "STEP 4: Verifying import..."
      then Some Verify
      else None
  | Print (Migrating t) => Some (Load t)
  | _ => None
  end.

(** The phase an event belongs to, when it tells: the opening lines, the
    data definition statements, the reads and writes of a table's load
    and its closing line, the verification's lines and samples. *)
Definition phase_of (e : event) : option phase :=
  match start_of e with
  | Some X => Some X
  | None =>
      match e with
      | PgExecute _ => Some Provision
      | SqliteSelect t _ _ _ | PgExecuteMany t _ _ | PgCopy t _ _ =>
          Some (Load t)
      | Print (Migrated t _) | Print (Imported t _) => Some (Load t)
      | Print (CountsMatch _ _) | Print (CountsMismatch _ _ _)
      | PgSelect _ _ => Some Verify
      | _ => None
      end
  end.

(** An event inside phase [X]: it opens no phase and belongs to no
    other. *)
Definition in_phase (X : phase) (e : event) : Prop :=
  start_of e = None /\ (phase_of e = None \/ phase_of e = Some X).

(** An event outside all phases. *)
Definition untagged (e : event) : Prop :=
  start_of e = None /\ phase_of e = None.




(** ** Termination *)

(** [m] ends, in a value or an exception, from every world. *)
Definition total {A} (m : M A) : Prop := forall w, is_Some (m w).

(** A computation with fuel ends once the fuel is enough, and then with
    a result that does not depend on the fuel. *)
Definition settles {A} (mf : nat -> M A) : Prop :=
  forall w, exists fuel0 x, forall fuel, (fuel0 <= fuel)%nat -> mf fuel w = Some x.

(** ** What the scripts do to the destination *)

Section Vocabulary.
Context `{!Destination}.

(** [m] sends the statements [ss], one [execute] after the other or in
    one, and prints: on a connection with an open, sound transaction it
    returns with the statements applied to the transaction's view, or
    raises the first statement's error and leaves the transaction
    failed. *)
Definition ddl_block (ss : list ddl) (m : M unit) : Prop :=
  forall w c d,
    pg w = PgConn c d false true ->
    exists w' evs,
      log w' = log w ++ evs /\ Forall is_ddl_event evs /\
      schema_file w' = schema_file w /\
      match exec_ddls ss d with
      | inr d' => m w = Some (Return tt, w') /\ pg w' = PgConn c d' false true
      | inl err =>
          m w = Some (Raise (DatabaseError err), w') /\
          exists d', pg w' = PgConn c d' true true
      end.

(** The same, ending in the commit that makes the view the database. *)
Definition ddl_commit (ss : list ddl) (m : M unit) : Prop :=
  forall w c d,
    pg w = PgConn c d false true ->
    exists w' evs,
      log w' = log w ++ evs /\ Forall is_ddl_event evs /\
      match exec_ddls ss d with
      | inr d' => m w = Some (Return tt, w') /\ pg w' = PgConn d' d' false true
      | inl err =>
          m w = Some (Raise (DatabaseError err), w') /\
          exists d', pg w' = PgConn c d' true true
      end.

(** The data lines of a stream whose header line the script has
    skipped itself ([next(f)]) before COPY reads the rest. *)
Definition data_after_next (f : list string) : list string :=
  copy_data (tail f).

(** The data lines of a stream that COPY reads from its first line,
    dropping the header itself (CSV HEADER). *)
Definition data_after_header (f : list string) : list string :=
  tail (copy_data f).

(** The data of the stream [path], the lines [data f] of the file [f],
    went into [t], taking the committed database from [d] to [d']:
    every data line parsed, and every row was appended. *)
Definition stream_committed (w : world) (t path : string)
    (cols : option (list string)) (data : list string -> list string)
    (d d' : db) : Prop :=
  exists f rows,
    csv_files w !! path = Some f /\
    parse_rows t cols (data f) = inr rows /\
    length rows = length (data f) /\
    d' = append_rows t rows d.


End Vocabulary.

(** ** The set-up and the outcome of a run *)

(** The source holds the two tables the scripts move. *)
Definition has_required_tables (d : gmap string table) : Prop :=
  is_Some (d !! argo_profiles) /\ is_Some (d !! argo_floats).

(** The set-up of [main] goes through: a connection string on file
    (a text that is not empty, the white space around it apart), the
    two tables in the source when [connect_sqlite] looks, and a
    destination that answers. *)
Definition setup_ok (w : world) : Prop :=
  (exists c, conn_string_file w = Some c /\ c <> "") /\
  has_required_tables (sqlite_db w (sqlite_clock w)) /\
  pg_reachable w = true.

(** The source and the connection to it are untouched. *)
Definition same_source (w w' : world) : Prop :=
  sqlite_db w' = sqlite_db w /\ sqlite_open w' = sqlite_open w /\
  sqlite_clock w' = sqlite_clock w.

(** [m] raises nothing but Exceptions: no [SystemExit]. *)
Definition raises_exceptions_only {A} (m : M A) : Prop :=
  forall w e w', m w = Some (Raise e, w') -> is_Exception e = true.

(** A connection that is open stays open. *)
Definition keeps_open (w w' : world) : Prop :=
  pg_open (pg w) = true -> pg_open (pg w') = true.

(** [R] holds between the worlds of every run of [m] that raises. *)
Definition respects_raising {A} (R : world -> world -> Prop) (m : M A)
    : Prop :=
  forall w e w', m w = Some (Raise e, w') -> R w w'.

(** [m] never raises. *)
Definition never_raises {A} (m : M A) : Prop :=
  forall w e w', m w <> Some (Raise e, w').

(** The two stores and the files of the set-up are untouched. *)
Definition same_stores (w w' : world) : Prop :=
  sqlite_db w' = sqlite_db w /\ pg w' = pg w /\
  conn_string_file w' = conn_string_file w /\
  schema_file w' = schema_file w /\ pg_reachable w' = pg_reachable w.

(** The lines of an exported table: the header, then one line a row. *)
Definition exported_lines `{!CsvWriter} (tb : table) : list string :=
  writerow (Text <$> t_cols tb) :: (writerow <$> t_rows tb).

Definition is_progress (e : event) : Prop :=
  exists rows_written total, e = Print (Progress rows_written total).

(** * Examples *)

(** A destination for the examples: every statement is permitted; a row
    must have one value per column and, in argo_floats, a float_id not
    yet in the table; a CSV line must have one field per column, an
    empty field being NULL, and the end-of-data marker is no row. *)

Global Instance value_eq_dec : EqDecision value.
Proof. solve_decision. Defined.

Fixpoint split_fields (line : string) : list string :=
  match line with
  | EmptyString => [""]
  | String c rest =>
      if Ascii.eqb c (Ascii.ascii_of_nat 44) then "" :: split_fields rest
      else
        match split_fields rest with
        | [] => [String c ""]
        | f :: fs => String c f :: fs
        end
  end.

Definition field_value (f : string) : value :=
  if String.eqb f "" then Null else Text f.

Definition columns_of (t : string) : list string :=
  if String.eqb t argo_floats then argo_floats_columns
  else argo_profiles_columns.

Definition example_accepts (t : string) (cols : list string)
    (cur : list Row) (r : Row) : bool :=
  (length r =? length cols)%nat &&
  (negb (String.eqb t argo_floats)
   || bool_decide (head r ∉ (head <$> cur))).

Definition example_parse_row (t : string) (cols : option (list string))
    (line : string) : option Row :=
  let fields := split_fields line in
  if String.eqb line end_of_data then None
  else if (length fields =? length (default (columns_of t) cols))%nat
  then Some (field_value <$> fields) else None.

Definition example_destination : Destination := {|
  permitted := fun _ => true;
  accepts := example_accepts;
  parse_row := example_parse_row;
  in_sample_region := fun _ => true;
  parse_row_end_of_data := fun _ _ => eq_refl
|}.

Definition float_row (id : string) (profiles : Z) : Row :=
  [Text id; Text "2010-01-01"; Text "2023-06-01";
   Real 25 (-1); Real 273 (-2); Integer profiles].

Definition profile_row (id : Z) (float_id : string) : Row :=
  [Integer id; Text float_id; Text "2010-01-01";
   Real 25 (-1); Real 273 (-2); Real 10 0; Real 57 (-1); Null; Real 10 0].

Definition example_floats : table :=
  Table argo_floats_columns
    [float_row "5904471" 120; float_row "5904472" 7; float_row "5904473" 1;
     float_row "5904474" 33; float_row "5904475" 2].

Definition example_profiles : table :=
  Table argo_profiles_columns
    [profile_row 1 "5904471"; profile_row 2 "5904471";
     profile_row 3 "5904472"].

Definition example_source : gmap string table :=
  <[argo_floats := example_floats]>
    (<[argo_profiles := example_profiles]> ∅).

Definition empty_db : db := Db ∅ ∅.

(** The schema file the CSV scripts read: the tables and indexes that
    [create_tables] makes, without the drops. *)
Definition example_schema : list ddl :=
  [CreateTable argo_floats argo_floats_columns;
   CreateTable argo_profiles argo_profiles_columns]
  ++ index_statements.

Definition example_csv_files : gmap string (list string) :=
  <["argo_floats.csv" :=
      ["float_id,first_timestamp,last_timestamp,last_latitude,last_longitude,total_profiles";
       "5904471,2010-01-01,2023-06-01,12.5,68.25,120";
       "5904472,2010-01-01,2023-06-01,12.5,68.25,7"]]>
  (<["argo_profiles.csv" :=
      ["id,float_id,timestamp,latitude,longitude,depth,temperature,salinity,pressure";
       "1,5904471,2010-01-01,12.5,68.25,10.0,28.5,,10.0";
       "2,5904471,2010-01-01,12.5,68.25,20.0,27.5,35.1,20.0";
       "3,5904472,2010-01-01,12.5,68.25,10.0,28.1,35.0,10.0"]]> ∅).

(** A fresh run: nothing connected, an empty destination, a source that
    no one else writes to. *)
Definition example_world : world := {|
  conn_string_file := Some "postgres://postgres@pooler.supabase.com:5432/postgres";
  schema_file := Some example_schema;
  csv_files := example_csv_files;
  pg_reachable := true;
  sqlite_db := fun _ => example_source;
  sqlite_clock := 0;
  sqlite_open := false;
  pg := PgConn empty_db empty_db false false;
  log := []
|}.

(** The destination as [create_tables] leaves it: the two tables, empty,
    and the five indexes on argo_profiles. *)
Definition provisioned_db : db := {|
  tables :=
    <[argo_profiles := Table argo_profiles_columns []]>
      (<[argo_floats := Table argo_floats_columns []]> ∅);
  indexes :=
    <["idx_profiles_location" := Index argo_profiles ["latitude"; "longitude"]]>
   (<["idx_profiles_lon" := Index argo_profiles ["longitude"]]>
   (<["idx_profiles_lat" := Index argo_profiles ["latitude"]]>
   (<["idx_profiles_timestamp" := Index argo_profiles ["timestamp"]]>
   (<["idx_profiles_float_id" := Index argo_profiles ["float_id"]]> ∅))))
|}.

(** Both connections open, the destination freshly provisioned. *)
Definition example_ready : world := {|
  conn_string_file := conn_string_file example_world;
  schema_file := schema_file example_world;
  csv_files := csv_files example_world;
  pg_reachable := true;
  sqlite_db := fun _ => example_source;
  sqlite_clock := 0;
  sqlite_open := true;
  pg := PgConn provisioned_db provisioned_db false true;
  log := []
|}.

(** A source whose fourth float repeats the float_id of the first: the
    destination's primary key rejects it. *)
Definition duplicate_floats : table :=
  Table argo_floats_columns
    [float_row "5904471" 120; float_row "5904472" 7; float_row "5904473" 1;
     float_row "5904471" 33; float_row "5904475" 2].

Definition example_duplicate : world := {|
  conn_string_file := conn_string_file example_world;
  schema_file := schema_file example_world;
  csv_files := csv_files example_world;
  pg_reachable := true;
  sqlite_db := fun _ => <[argo_floats := duplicate_floats]> example_source;
  sqlite_clock := 0;
  sqlite_open := true;
  pg := PgConn provisioned_db provisioned_db false true;
  log := []
|}.

(** A source that another writer empties of all but two floats after
    the run's third query. *)
Definition shrunk_floats : table :=
  Table argo_floats_columns [float_row "5904471" 120; float_row "5904472" 7].

Definition example_drifting : world := {|
  conn_string_file := conn_string_file example_world;
  schema_file := schema_file example_world;
  csv_files := csv_files example_world;
  pg_reachable := true;
  sqlite_db := fun k =>
    if (k <? 3)%nat then example_source
    else <[argo_floats := shrunk_floats]> example_source;
  sqlite_clock := 0;
  sqlite_open := true;
  pg := PgConn provisioned_db provisioned_db false true;
  log := []
|}.

(** The floats migrated, the profiles not yet. *)
Definition half_migrated_db : db :=
  append_rows argo_floats (t_rows example_floats) provisioned_db.

Definition example_half_migrated : world := {|
  conn_string_file := conn_string_file example_world;
  schema_file := schema_file example_world;
  csv_files := csv_files example_world;
  pg_reachable := true;
  sqlite_db := fun _ => example_source;
  sqlite_clock := 0;
  sqlite_open := true;
  pg := PgConn half_migrated_db half_migrated_db false true;
  log := []
|}.

(** A source with two floats only, before any load. *)
Definition example_shrunk : world := {|
  conn_string_file := conn_string_file example_world;
  schema_file := schema_file example_world;
  csv_files := csv_files example_world;
  pg_reachable := true;
  sqlite_db := fun _ => <[argo_floats := shrunk_floats]> example_source;
  sqlite_clock := 0;
  sqlite_open := true;
  pg := PgConn provisioned_db provisioned_db false true;
  log := []
|}.

(** A destination where another table's index already bears one of the
    five names. *)
Definition clashing_db : db := {|
  tables := <["stations" := Table ["latitude"; "longitude"] []]> ∅;
  indexes := <["idx_profiles_lat" := Index "stations" ["latitude"]]> ∅
|}.

Definition example_clashing : world := {|
  conn_string_file := conn_string_file example_world;
  schema_file := schema_file example_world;
  csv_files := csv_files example_world;
  pg_reachable := true;
  sqlite_db := fun _ => example_source;
  sqlite_clock := 0;
  sqlite_open := true;
  pg := PgConn clashing_db clashing_db false true;
  log := []
|}.

(** The export cut short: the last line of argo_profiles.csv stops in
    the middle of a row. *)
Definition truncated_csv_files : gmap string (list string) :=
  <["argo_profiles.csv" :=
      ["id,float_id,timestamp,latitude,longitude,depth,temperature,salinity,pressure";
       "1,5904471,2010-01-01,12.5,68.25,10.0,28.5,,10.0";
       "2,5904471,2010-01-01,12.5,68.25,20.0,27.5,35.1,20.0";
       "3,5904472,2010-01-01,12.5"]]> example_csv_files.

Definition example_truncated : world := {|
  conn_string_file := conn_string_file example_world;
  schema_file := schema_file example_world;
  csv_files := truncated_csv_files;
  pg_reachable := true;
  sqlite_db := fun _ => example_source;
  sqlite_clock := 0;
  sqlite_open := false;
  pg := PgConn provisioned_db provisioned_db false true;
  log := []
|}.



(** The same files before any run of the CSV scripts: nothing
    connected, an empty destination. *)
Definition example_truncated_fresh : world := {|
  conn_string_file := conn_string_file example_world;
  schema_file := schema_file example_world;
  csv_files := truncated_csv_files;
  pg_reachable := true;
  sqlite_db := fun _ => example_source;
  sqlite_clock := 0;
  sqlite_open := false;
  pg := PgConn empty_db empty_db false false;
  log := []
|}.

(** A destination shared with other data: the floats migrated, a
    table of stations with an index of its own, and an index someone
    added on argo_floats. *)
Definition shared_db : db := {|
  tables :=
    <["stations" := Table ["name"; "latitude"; "longitude"]
                      [[Text "Goa"; Real 155 (-1); Real 738 (-1)]]]>
      (tables half_migrated_db);
  indexes :=
    <["idx_stations_name" := Index "stations" ["name"]]>
   (<["idx_floats_last" := Index argo_floats ["last_timestamp"]]>
      (indexes half_migrated_db))
|}.

Definition example_shared : world := {|
  conn_string_file := conn_string_file example_world;
  schema_file := schema_file example_world;
  csv_files := csv_files example_world;
  pg_reachable := true;
  sqlite_db := fun _ => example_source;
  sqlite_clock := 0;
  sqlite_open := true;
  pg := PgConn shared_db shared_db false true;
  log := []
|}.

(** An export that holds the header line of argo_profiles.csv and
    nothing else. *)
Definition example_header_only : world := {|
  conn_string_file := conn_string_file example_world;
  schema_file := schema_file example_world;
  csv_files :=
    <["argo_profiles.csv" :=
        ["id,float_id,timestamp,latitude,longitude,depth,temperature,salinity,pressure"]]>
      example_csv_files;
  pg_reachable := true;
  sqlite_db := fun _ => example_source;
  sqlite_clock := 0;
  sqlite_open := false;
  pg := PgConn half_migrated_db half_migrated_db false true;
  log := []
|}.

(** A csv.writer for the examples: the fields joined by commas, NULL as
    the empty field, numbers in decimal. *)
Definition example_field (v : value) : string :=
  match v with
  | Null => ""
  | Integer z => pretty z
  | Real mantissa exponent => pretty mantissa +:+ "e" +:+ pretty exponent
  | Text s => s
  end.

Definition example_writer : CsvWriter := {|
  writerow := fun r => String.concat "," (example_field <$> r)
|}.

(** What the example destination reads back from the line the example
    writer makes of a row: every field that is not empty as text. *)
Definition example_read_back (r : Row) : Row :=
  field_value <$> split_fields (@writerow example_writer r).

(** A source whose argo_floats is empty at the first query and filled
    by another writer before the second. *)
Definition example_filling : world := {|
  conn_string_file := conn_string_file example_world;
  schema_file := schema_file example_world;
  csv_files := csv_files example_world;
  pg_reachable := true;
  sqlite_db := fun k =>
    if (k <? 1)%nat
    then <[argo_floats := Table argo_floats_columns []]> example_source
    else example_source;
  sqlite_clock := 0;
  sqlite_open := false;
  pg := PgConn empty_db empty_db false false;
  log := []
|}.

(** A source without argo_profiles. *)
Definition example_floats_only : world := {|
  conn_string_file := conn_string_file example_world;
  schema_file := schema_file example_world;
  csv_files := csv_files example_world;
  pg_reachable := true;
  sqlite_db := fun _ => <[argo_floats := example_floats]> ∅;
  sqlite_clock := 0;
  sqlite_open := false;
  pg := PgConn empty_db empty_db false false;
  log := []
|}.

(** * Lemmas *)

Section Properties.
Context `{!Destination}.

Lemma bind_inv {A B} (m : M A) (k : A -> M B) w r w' :
  bind m k w = Some (r, w') ->
  (exists a w1, m w = Some (Return a, w1) /\ k a w1 = Some (r, w')) \/
  (exists e, m w = Some (Raise e, w') /\ r = Raise e).
Proof.
  unfold bind. destruct (m w) as [[[a|e] w1]|]; [eauto | | done].
  intros [= <- <-]. right. eauto.
Qed.

Lemma bind_return {A B} (m : M A) (k : A -> M B) w a w1 :
  m w = Some (Return a, w1) -> bind m k w = k a w1.
Proof. unfold bind. by intros ->. Qed.

Lemma bind_raise {A B} (m : M A) (k : A -> M B) w e w1 :
  m w = Some (Raise e, w1) -> bind m k w = Some (Raise e, w1).
Proof. unfold bind. by intros ->. Qed.

Lemma bind_assoc {A B C} (m : M A) (k1 : A -> M B) (k2 : B -> M C) w :
  bind (bind m k1) k2 w = bind m (fun a => bind (k1 a) k2) w.
Proof. unfold bind. by destruct (m w) as [[[a|e] w1]|]. Qed.

Lemma fetched_batches_app evs1 evs2 :
  fetched_batches (evs1 ++ evs2) = fetched_batches evs1 ++ fetched_batches evs2.
Proof. apply omap_app. Qed.

Lemma inserted_batches_app evs1 evs2 :
  inserted_batches (evs1 ++ evs2)
  = inserted_batches evs1 ++ inserted_batches evs2.
Proof. apply omap_app. Qed.

Lemma page_offsets_app evs1 evs2 :
  page_offsets (evs1 ++ evs2) = page_offsets evs1 ++ page_offsets evs2.
Proof. apply omap_app. Qed.

(** *** One page query *)

Lemma sqlite_select_inv t cols limit offset w r w' :
  sqlite_select t cols limit offset w = Some (r, w') ->
  (exists e, r = Raise e /\ log w' = log w /\ pg w' = pg w) \/
  (exists tb,
     sqlite_open w = true /\
     sqlite_db w (sqlite_clock w) !! t = Some tb /\
     cols = t_cols tb /\
     r = Return (select_page (t_rows tb) limit offset) /\
     w' = emit (SqliteSelect t limit offset
                  (select_page (t_rows tb) limit offset)) (tick w)).
Proof.
  unfold sqlite_select, sqlite_query.
  destruct (sqlite_open w); [|intros [= <- <-]; eauto].
  destruct (sqlite_db w (sqlite_clock w) !! t) as [tb|];
    [|intros [= <- <-]; eauto].
  case_bool_decide; intros [= <- <-]; [right|left]; eauto 10.
Qed.

(** *** Rows appended to a destination table *)

Lemma append_rows_nil t d : append_rows t [] d = d.
Proof.
  destruct d as [tbs ixs]. unfold append_rows, set_rows, rows_of; simpl.
  f_equal. apply map_eq; intros k. rewrite lookup_alter.
  case_decide as Hk; [subst k|done].
  destruct (tbs !! t) as [[c rs]|]; simpl; [|done].
  by rewrite app_nil_r.
Qed.

Lemma append_rows_app t b1 b2 d :
  append_rows t b2 (append_rows t b1 d) = append_rows t (b1 ++ b2) d.
Proof.
  destruct d as [tbs ixs]. unfold append_rows, set_rows, rows_of; simpl.
  f_equal. apply map_eq; intros k. rewrite !lookup_alter.
  case_decide as Hk; [subst k|done].
  rewrite decide_True by done.
  destruct (tbs !! t) as [[c rs]|]; simpl; [|done].
  by rewrite app_assoc.
Qed.


Lemma tables_append_rows t b d tb :
  tables d !! t = Some tb ->
  tables (append_rows t b d) !! t = Some (Table (t_cols tb) (t_rows tb ++ b)).
Proof.
  intros Ht. unfold append_rows, set_rows, rows_of; simpl.
  rewrite lookup_alter. case_decide; [|done]. by rewrite Ht.
Qed.

Lemma insert_many_inr t cols b d d' :
  insert_many t cols b d = inr d' -> d' = append_rows t b d.
Proof.
  unfold insert_many. destruct (tables d !! t); [|done].
  destruct (insert_rows _ _ _ _); [done|]. by intros [= <-].
Qed.

Lemma insert_rows_inr t cols cur rs res :
  insert_rows t cols cur rs = inr res -> res = cur ++ rs.
Proof.
  revert cur. induction rs as [|r rs IH]; intros cur; simpl.
  - intros [= <-]. by rewrite app_nil_r.
  - destruct (accepts t cols cur r); [|done].
    intros Hres. apply IH in Hres. by rewrite <- app_assoc in Hres.
Qed.

Lemma insert_rows_app t cols cur rs1 rs2 :
  insert_rows t cols cur (rs1 ++ rs2)
  = match insert_rows t cols cur rs1 with
    | inl e => inl e
    | inr cur' => insert_rows t cols cur' rs2
    end.
Proof.
  revert cur. induction rs1 as [|r rs1 IH]; intros cur; simpl; [done|].
  destruct (accepts t cols cur r); [apply IH|done].
Qed.

Lemma insert_many_accepted t cols b d tb res :
  tables d !! t = Some tb ->
  insert_rows t cols (t_rows tb) b = inr res ->
  insert_many t cols b d = inr (append_rows t b d).
Proof. intros Ht Hacc. unfold insert_many. by rewrite Ht, Hacc. Qed.

(** *** One batch: executemany, then commit *)

Lemma pg_writes_app evs1 evs2 :
  pg_writes (evs1 ++ evs2) = pg_writes evs1 ++ pg_writes evs2.
Proof. apply filter_app. Qed.

Lemma pg_executemany_inv t cols b w r w' :
  pg_executemany t cols b w = Some (r, w') ->
  log w' = log w ++ [PgExecuteMany t cols b] /\
  sqlite_db w' = sqlite_db w /\
  sqlite_clock w' = sqlite_clock w /\
  sqlite_open w' = sqlite_open w /\
  committed (pg w') = committed (pg w) /\
  ((exists e, r = Raise e) \/
   (r = Return tt /\
    pg_open (pg w) = true /\ in_failed_txn (pg w) = false /\
    exists d', insert_many t cols b (working (pg w)) = inr d' /\
      pg w' = PgConn (committed (pg w)) d' false true)).
Proof.
  unfold pg_executemany, pg_statement; simpl.
  destruct (pg_open (pg w)); simpl; [|intros [= <- <-]; simpl; eauto 10].
  destruct (in_failed_txn (pg w)); [intros [= <- <-]; simpl; eauto 10|].
  destruct (insert_many t cols b (working (pg w))) as [e|d'] eqn:Hins;
    intros [= <- <-]; simpl; repeat split; eauto 10.
Qed.

Lemma pg_commit_inv w r w' :
  pg_commit w = Some (r, w') ->
  log w' = log w ++ [PgCommit] /\
  sqlite_db w' = sqlite_db w /\
  sqlite_clock w' = sqlite_clock w /\
  sqlite_open w' = sqlite_open w /\
  ((exists e, r = Raise e /\ pg w' = pg w /\ pg_open (pg w) = false) \/
   (r = Return tt /\ pg_open (pg w) = true /\
    let d := if in_failed_txn (pg w) then committed (pg w)
             else working (pg w) in
    pg w' = PgConn d d false true)).
Proof.
  unfold pg_commit; simpl.
  destruct (pg_open (pg w)); simpl; intros [= <- <-]; simpl; eauto 10.
Qed.

(** *** The paging loop, whatever the source and the destination do *)

Lemma migrate_loop_spec t cols B total fuel :
  forall o ri w r w',
    migrate_loop fuel t cols B total o ri w = Some (r, w') ->
    exists evs bs rest,
      log w' = log w ++ evs /\
      pg_writes evs = batch_writes t cols bs ++ rest /\
      match r with
      | Return n => rest = [] /\ n = ri + Z.of_nat (length (concat bs))
      | Raise e => rest = [] \/ exists b, rest = [PgExecuteMany t cols b]
      end /\
      (forall i off, page_offsets evs !! i = Some off ->
                     off = o + Z.of_nat i * B) /\
      (working (pg w) = committed (pg w) ->
       committed (pg w') = append_rows t (concat bs) (committed (pg w)) /\
       (forall n, r = Return n -> working (pg w') = committed (pg w'))).
Proof.
  induction fuel as [|fuel IH]; intros o ri w r w' Hrun; [done|].
  simpl in Hrun. destruct (o <? total).
  2:{ injection Hrun as <- <-. exists [], [], []. simpl.
      rewrite app_nil_r, append_rows_nil.
      repeat split; auto; try lia; try done. }
  apply bind_inv in Hrun as [(batch & w1 & Hsel & Hrun)|(e & Hsel & ->)].
  2:{ apply sqlite_select_inv in Hsel
        as [(e' & _ & Hlog & Hpg)|(tb & _ & _ & _ & [=] & _)].
      exists [], [], []. simpl. rewrite app_nil_r, append_rows_nil, Hpg.
      repeat split; auto; try lia; try done. }
  apply sqlite_select_inv in Hsel
    as [(e' & [=] & _)|(tb & _ & _ & _ & [= ->] & ->)].
  set (page := select_page (t_rows tb) B o) in *. clearbody page.
  assert (Hoff0 : forall evs' (i : nat) off,
    (forall i off, page_offsets evs' !! i = Some off ->
                   off = o + B + Z.of_nat i * B) ->
    (o :: page_offsets evs') !! i = Some off -> off = o + Z.of_nat i * B).
  { intros evs' [|i] off Hevs'; simpl; [intros [= <-]; lia|].
    intros Hoff. apply Hevs' in Hoff. lia. }
  destruct page as [|r0 page'].
  { injection Hrun as <- <-.
    exists [SqliteSelect t B o []], [], []. simpl.
    rewrite append_rows_nil. repeat split; auto; try lia; try done.
    intros i off. apply (Hoff0 []). intros ? ?. simpl. by rewrite lookup_nil. }
  apply bind_inv in Hrun as [([] & w2 & Hins & Hrun)|(e & Hins & ->)].
  2:{ apply pg_executemany_inv in Hins as (Hlog & _ & _ & _ & Hcom & _).
      exists [SqliteSelect t B o (r0 :: page');
              PgExecuteMany t cols (r0 :: page')],
        [], [PgExecuteMany t cols (r0 :: page')].
      rewrite Hlog, Hcom. simpl. rewrite append_rows_nil, <- app_assoc.
      repeat split; eauto; try lia; try done.
      intros i off. apply (Hoff0 []). intros ? ?. simpl. by rewrite lookup_nil. }
  apply pg_executemany_inv in Hins
    as (Hlog2 & _ & _ & _ & Hcom2
        & [(e & [=])|(_ & Hopen & Hok & d' & Hd' & Hpg2)]).
  apply insert_many_inr in Hd'. simpl in Hlog2, Hcom2, Hd', Hpg2.
  apply bind_inv in Hrun as [([] & w3 & Hcommit & Hrun)|(e & Hcommit & ->)].
  2:{ apply pg_commit_inv in Hcommit
        as (_ & _ & _ & _ & [(e' & _ & _ & Hclosed)|([=] & _)]).
      rewrite Hpg2 in Hclosed. done. }
  apply pg_commit_inv in Hcommit
    as (Hlog3 & _ & _ & _ & [(e' & [=] & _)|(_ & _ & Hpg3)]).
  rewrite Hpg2 in Hpg3; simpl in Hpg3.
  apply bind_inv in Hrun as [([] & w4 & Hprint & Hrun)|(e & [=] & _)].
  injection Hprint as <-.
  apply IH in Hrun as (evs & bs & rest & Hlog & Hwrites & Hr & Hoffs & Hcom).
  simpl in Hlog, Hcom. rewrite Hpg3 in Hcom; simpl in Hcom.
  destruct (Hcom eq_refl) as [Hcom' Hidle'].
  exists ([SqliteSelect t B o (r0 :: page'); PgExecuteMany t cols (r0 :: page');
           PgCommit;
           Print (Progress (ri + Z.of_nat (length (r0 :: page'))) total)]
          ++ evs), ((r0 :: page') :: bs), rest.
  split; [|split; [|split; [|split]]].
  - rewrite Hlog, Hlog3, Hlog2. simpl. by rewrite <- !app_assoc.
  - rewrite pg_writes_app, Hwrites. done.
  - destruct r as [n|e]; [|done].
    destruct Hr as (-> & ->). split; [done|].
    change (concat ((r0 :: page') :: bs)) with ((r0 :: page') ++ concat bs).
    rewrite length_app. lia.
  - intros i off. apply (Hoff0 evs). exact Hoffs.
  - intros Hidle. split; [|done].
    rewrite Hcom', Hd', Hidle, append_rows_app. done.
Qed.

Lemma inserted_batches_pg_writes evs :
  inserted_batches (pg_writes evs) = inserted_batches evs.
Proof.
  induction evs as [|e evs IH]; [done|].
  unfold pg_writes in *. rewrite filter_cons.
  destruct e; simpl; try case_decide; try done; simpl; by rewrite ?IH.
Qed.

Lemma inserted_batches_batch_writes t cols bs :
  inserted_batches (batch_writes t cols bs) = bs.
Proof. induction bs as [|b bs IH]; simpl; [done|]. by rewrite IH. Qed.

(** Enough fuel: the offset grows by [B >= 1] on every turn, so a loop
    at offset [o] makes at most [total - o] of them. *)
Lemma migrate_loop_terminates t cols B total fuel :
  forall o ri w,
    1 <= B ->
    (Z.to_nat (total - o) < fuel)%nat ->
    is_Some (migrate_loop fuel t cols B total o ri w).
Proof.
  induction fuel as [|fuel IH]; intros o ri w HB Hfuel; [lia|].
  simpl. destruct (o <? total) eqn:Hlt; [|by eexists].
  apply Z.ltb_lt in Hlt.
  unfold bind at 1.
  destruct (sqlite_select t cols B o w) as [[[batch|e] w1]|] eqn:Hsel;
    [|by eexists|].
  2:{ unfold sqlite_select, sqlite_query in Hsel.
      repeat case_match; simplify_eq. }
  destruct batch as [|r0 page']; [by eexists|].
  unfold bind at 1.
  destruct (pg_executemany _ _ _ w1) as [[[[]|e] w2]|] eqn:Hins;
    [|by eexists|].
  2:{ unfold pg_executemany, pg_statement in Hins.
      repeat case_match; simplify_eq. }
  unfold bind at 1.
  destruct (pg_commit w2) as [[[[]|e] w3]|] eqn:Hcommit; [|by eexists|].
  2:{ unfold pg_commit in Hcommit. repeat case_match; simplify_eq. }
  unfold bind at 1. simpl. apply IH; [done|lia].
Qed.

Lemma migrate_loop_fuel_mono t cols B total fuel :
  forall fuel' o ri w x,
    migrate_loop fuel t cols B total o ri w = Some x ->
    (fuel <= fuel')%nat ->
    migrate_loop fuel' t cols B total o ri w = Some x.
Proof.
  induction fuel as [|fuel IH]; intros fuel' o ri w x Hrun Hle; [done|].
  destruct fuel' as [|fuel']; [lia|].
  simpl in *. destruct (o <? total); [|done].
  unfold bind at 1. unfold bind at 1 in Hrun.
  destruct (sqlite_select t cols B o w) as [[[batch|e] w1]|]; [|done|done].
  destruct batch as [|r0 page']; [done|].
  unfold bind at 1. unfold bind at 1 in Hrun.
  destruct (pg_executemany _ _ _ w1) as [[[[]|e] w2]|]; [|done|done].
  unfold bind at 1. unfold bind at 1 in Hrun.
  destruct (pg_commit w2) as [[[[]|e] w3]|]; [|done|done].
  unfold bind at 1. unfold bind at 1 in Hrun. simpl in *.
  apply IH; [done|lia].
Qed.

(** *** The paging loop over a source that does not change *)

Lemma select_page_take_drop rows B o :
  1 <= B -> 0 <= o ->
  select_page rows B o = take (Z.to_nat B) (drop (Z.to_nat o) rows).
Proof.
  intros HB Ho. unfold select_page.
  destruct (B <? 0) eqn:Hneg; [apply Z.ltb_lt in Hneg; lia|done].
Qed.

Lemma sqlite_select_run t tb limit offset w :
  sqlite_open w = true ->
  sqlite_db w (sqlite_clock w) !! t = Some tb ->
  sqlite_select t (t_cols tb) limit offset w
  = Some (Return (select_page (t_rows tb) limit offset),
          emit (SqliteSelect t limit offset
                  (select_page (t_rows tb) limit offset)) (tick w)).
Proof.
  intros Hopen Htb. unfold sqlite_select, sqlite_query.
  rewrite Hopen, Htb. by rewrite bool_decide_eq_true_2.
Qed.

Lemma pg_executemany_run t cols b w c d d' :
  pg w = PgConn c d false true ->
  insert_many t cols b d = inr d' ->
  pg_executemany t cols b w
  = Some (Return tt,
          set_pg (PgConn c d' false true) (emit (PgExecuteMany t cols b) w)).
Proof.
  intros Hpg Hins. unfold pg_executemany, pg_statement; simpl.
  rewrite Hpg; simpl. by rewrite Hins.
Qed.

Lemma pg_commit_run w c d :
  pg w = PgConn c d false true ->
  pg_commit w
  = Some (Return tt, set_pg (PgConn d d false true) (emit PgCommit w)).
Proof. intros Hpg. unfold pg_commit; simpl. by rewrite Hpg. Qed.

Lemma migrate_loop_unchanged t tb B fuel :
  forall o ri w d dtb,
    1 <= B -> 0 <= o ->
    source_unchanged w t tb ->
    sqlite_open w = true ->
    pg w = PgConn d d false true ->
    tables d !! t = Some dtb ->
    (exists res, insert_rows t (t_cols tb) (t_rows dtb)
                   (drop (Z.to_nat o) (t_rows tb)) = inr res) ->
    (Z.to_nat (Z.of_nat (length (t_rows tb)) - o) < fuel)%nat ->
    exists w' evs,
      migrate_loop fuel t (t_cols tb) B (Z.of_nat (length (t_rows tb))) o ri w
      = Some (Return (ri + Z.of_nat (length (drop (Z.to_nat o) (t_rows tb)))),
              w') /\
      log w' = log w ++ evs /\
      concat (fetched_batches evs) = drop (Z.to_nat o) (t_rows tb) /\
      inserted_batches evs = fetched_batches evs /\
      Forall (fun b => b <> [] /\ Z.of_nat (length b) <= B)
        (fetched_batches evs) /\
      (forall i off, page_offsets evs !! i = Some off ->
                     off = o + Z.of_nat i * B) /\
      pg w' = (let d' := append_rows t (drop (Z.to_nat o) (t_rows tb)) d in
               PgConn d' d' false true) /\
      sqlite_db w' = sqlite_db w /\
      sqlite_open w' = true.
Proof.
  induction fuel as [|fuel IH];
    intros o ri w d dtb HB Ho Hsrc Hopen Hpg Hdt Hacc Hfuel; [lia|].
  simpl. destruct (o <? Z.of_nat (length (t_rows tb))) eqn:Hlt.
  2:{ apply Z.ltb_ge in Hlt. exists w, [].
      rewrite drop_ge by lia. simpl.
      rewrite append_rows_nil, app_nil_r, Z.add_0_r.
      repeat split; auto. intros i off; by rewrite lookup_nil. }
  apply Z.ltb_lt in Hlt.
  rewrite (bind_return _ _ _ _ _ (sqlite_select_run t tb B o w Hopen (Hsrc _))).
  rewrite select_page_take_drop by done.
  set (rest := drop (Z.to_nat o) (t_rows tb)).
  set (page := take (Z.to_nat B) rest).
  assert (Hsplit : rest = page ++ drop (Z.to_nat (o + B)) (t_rows tb)).
  { unfold page, rest. rewrite Z2Nat.inj_add by lia.
    rewrite <- drop_drop. by rewrite take_drop. }
  assert (Hne : page <> []).
  { unfold page, rest. intros Hnil. apply take_nil_inv in Hnil as [?|Hnil]; [lia|].
    apply drop_nil_inv in Hnil. lia. }
  assert (Hlen : Z.of_nat (length page) <= B).
  { unfold page. rewrite length_take. lia. }
  destruct Hacc as [res Hacc]. fold rest in Hacc.
  rewrite Hsplit, insert_rows_app in Hacc.
  destruct (insert_rows t (t_cols tb) (t_rows dtb) page) as [|cur'] eqn:Hcur;
    [done|].
  pose proof (insert_rows_inr _ _ _ _ _ Hcur) as ->.
  assert (Hins : insert_many t (t_cols tb) page d = inr (append_rows t page d))
    by (by eapply insert_many_accepted).
  assert (Hrest : length rest = (length page
            + length (drop (Z.to_nat (o + B)) (t_rows tb)))%nat).
  { rewrite Hsplit at 1. by rewrite length_app. }
  clearbody page. clearbody rest.
  destruct page as [|r0 page']; [done|].
  erewrite bind_return; [|by eapply pg_executemany_run].
  erewrite bind_return; [|by eapply pg_commit_run].
  unfold bind at 1, print at 1.
  edestruct (IH (o + B) (ri + Z.of_nat (length (r0 :: page')))) as
    (w' & evs & Hrun & Hlog & Hfetch & Hsame & Hsizes & Hoffs & Hpg' & Hdb & Hopen');
    [done | lia | | | | | | lia | ].
  6: { exists w', ([SqliteSelect t B o (r0 :: page');
                   PgExecuteMany t (t_cols tb) (r0 :: page');
                   PgCommit;
                   Print (Progress (ri + Z.of_nat (length (r0 :: page')))
                            (Z.of_nat (length (t_rows tb))))] ++ evs).
       rewrite Hrun.
       split; [|split; [|split; [|split; [|split; [|split; [|split]]]]]].
       - rewrite Hrest, Nat2Z.inj_add, Z.add_assoc. done.
       - rewrite Hlog. simpl. by rewrite <- !app_assoc.
       - simpl. rewrite Hfetch. by rewrite Hsplit.
       - simpl. by rewrite Hsame.
       - simpl. constructor; [done|exact Hsizes].
       - intros [|i] off; simpl; [intros [= <-]; lia|].
         intros Hoff. apply Hoffs in Hoff. lia.
       - rewrite Hpg'. simpl. rewrite append_rows_app. by rewrite <- Hsplit.
       - done. }
  - intros k. apply Hsrc.
  - done.
  - reflexivity.
  - by eapply tables_append_rows.
  - by eexists.
Qed.

(** *** [migrate_data] *)

Lemma print_inv m w r w' :
  print m w = Some (r, w') -> r = Return tt /\ w' = emit (Print m) w.
Proof. by intros [= <- <-]. Qed.

Lemma sqlite_count_inv t w r w' :
  sqlite_count t w = Some (r, w') ->
  pg w' = pg w /\
  ((exists e, r = Raise e /\ log w' = log w) \/
   (exists n, r = Return n /\ log w' = log w ++ [SqliteCount t n])).
Proof.
  unfold sqlite_count, sqlite_query.
  destruct (sqlite_open w); [|intros [= <- <-]; eauto].
  destruct (sqlite_db w (sqlite_clock w) !! t) as [tb|]; intros [= <- <-];
    simpl; eauto 10.
Qed.

Lemma sqlite_table_info_inv t w r w' :
  sqlite_table_info t w = Some (r, w') ->
  pg w' = pg w /\
  ((exists e, r = Raise e /\ log w' = log w) \/
   (exists cols, r = Return cols /\ log w' = log w ++ [SqliteTableInfo t cols])).
Proof.
  unfold sqlite_table_info, sqlite_query.
  destruct (sqlite_open w); intros [= <- <-]; simpl; eauto 10.
Qed.

Lemma sqlite_count_run t tb w :
  sqlite_open w = true ->
  sqlite_db w (sqlite_clock w) !! t = Some tb ->
  sqlite_count t w
  = Some (Return (Z.of_nat (length (t_rows tb))),
          emit (SqliteCount t (Z.of_nat (length (t_rows tb)))) (tick w)).
Proof.
  intros Hopen Htb. unfold sqlite_count, sqlite_query. by rewrite Hopen, Htb.
Qed.

Lemma sqlite_table_info_run t tb w :
  sqlite_open w = true ->
  sqlite_db w (sqlite_clock w) !! t = Some tb ->
  sqlite_table_info t w
  = Some (Return (t_cols tb), emit (SqliteTableInfo t (t_cols tb)) (tick w)).
Proof.
  intros Hopen Htb. unfold sqlite_table_info, sqlite_query.
  by rewrite Hopen, Htb.
Qed.

(** What [migrate_data] does around its loop: it prints, counts the
    rows and reads the column names, none of which writes to the
    destination or fetches a page. *)
Lemma migrate_data_inv fuel t B w r w' :
  migrate_data fuel t B w = Some (r, w') ->
  exists evs0,
    pg_writes evs0 = [] /\ fetched_batches evs0 = [] /\
    inserted_batches evs0 = [] /\ page_offsets evs0 = [] /\
    ((exists e, r = Raise e /\ log w' = log w ++ evs0 /\ pg w' = pg w) \/
     (exists total cols w0 rl wl,
        log w0 = log w ++ evs0 /\ pg w0 = pg w /\
        migrate_loop fuel t cols B total 0 0 w0 = Some (rl, wl) /\
        match rl with
        | Return n => r = Return n /\ w' = emit (Print (Migrated t n)) wl
        | Raise e => r = Raise e /\ w' = wl
        end)).
Proof.
  unfold migrate_data. intros Hrun.
  apply bind_inv in Hrun as [([] & w1 & Hp1 & Hrun)|(e & [=] & _)].
  injection Hp1 as <-.
  apply bind_inv in Hrun as [(total & w2 & Hcount & Hrun)|(e & Hcount & ->)].
  2:{ apply sqlite_count_inv in Hcount as (Hpg & [(e' & _ & Hlog)|(n & [=] & _)]).
      exists [Print (Migrating t)]. repeat split; [left]. eauto. }
  apply sqlite_count_inv in Hcount as (Hpg2 & [(e' & [=] & _)|(n & [= ->] & Hlog2)]).
  apply bind_inv in Hrun as [([] & w3 & Hp3 & Hrun)|(e & [=] & _)].
  injection Hp3 as <-.
  apply bind_inv in Hrun as [(cols & w4 & Hinfo & Hrun)|(e & Hinfo & ->)].
  2:{ apply sqlite_table_info_inv in Hinfo
        as (Hpg & [(e' & _ & Hlog)|(n' & [=] & _)]).
      exists [Print (Migrating t); SqliteCount t n; Print (TotalRows n)].
      repeat split; [left]. exists e. repeat split.
      - rewrite Hlog; simpl. rewrite Hlog2; simpl. by rewrite <- !app_assoc.
      - rewrite Hpg; simpl. by rewrite Hpg2. }
  apply sqlite_table_info_inv in Hinfo
    as (Hpg4 & [(e' & [=] & _)|(cols' & [= ->] & Hlog4)]).
  exists [Print (Migrating t); SqliteCount t n; Print (TotalRows n);
          SqliteTableInfo t cols'].
  repeat split; [right].
  apply bind_inv in Hrun as [(ri & w5 & Hloop & Hrun)|(e & Hloop & ->)].
  - exists n, cols', w4, (Return ri), w5. repeat split.
    + rewrite Hlog4; simpl. rewrite Hlog2; simpl. by rewrite <- !app_assoc.
    + rewrite Hpg4; simpl. by rewrite Hpg2.
    + done.
    + apply bind_inv in Hrun as [([] & w6 & Hp6 & Hrun)|(e & [=] & _)].
      injection Hp6 as <-. by injection Hrun as <- <-.
    + apply bind_inv in Hrun as [([] & w6 & Hp6 & Hrun)|(e & [=] & _)].
      injection Hp6 as <-. by injection Hrun as <- <-.
  - exists n, cols', w4, (Raise e), w'. repeat split; [| |done].
    + rewrite Hlog4; simpl. rewrite Hlog2; simpl. by rewrite <- !app_assoc.
    + rewrite Hpg4; simpl. by rewrite Hpg2.
Qed.

Lemma sum_lengths_concat bs :
  sum_lengths bs = Z.of_nat (length (concat bs)).
Proof.
  induction bs as [|b bs IH]; simpl; [done|].
  rewrite length_app, IH. lia.
Qed.

Lemma sqlite_query_some {A} (q : gmap string table -> exn + A * event) w :
  is_Some (sqlite_query q w).
Proof.
  unfold sqlite_query. destruct (sqlite_open w); [|by eexists].
  destruct (q _) as [e|[a ev]]; by eexists.
Qed.

Lemma bind_print {B} m (k : unit -> M B) w :
  bind (print m) k w = k tt (emit (Print m) w).
Proof. reflexivity. Qed.

Lemma sqlite_count_some t w : is_Some (sqlite_count t w).
Proof. apply sqlite_query_some. Qed.

Lemma sqlite_table_info_some t w : is_Some (sqlite_table_info t w).
Proof. apply sqlite_query_some. Qed.

(** With enough fuel [migrate_data] ends, in a value or an exception. *)
Lemma migrate_data_terminates t B w :
  1 <= B ->
  exists fuel0, forall fuel, (fuel0 <= fuel)%nat ->
    is_Some (migrate_data fuel t B w).
Proof.
  intros HB. unfold migrate_data.
  destruct (sqlite_count_some t (emit (Print (Migrating t)) w))
    as [[[total|e] w2] Hc].
  2:{ exists O. intros fuel _. rewrite bind_print.
      erewrite bind_raise by exact Hc. by eexists. }
  destruct (sqlite_table_info_some t (emit (Print (TotalRows total)) w2))
    as [[[cols|e] w4] Hi].
  2:{ exists O. intros fuel _. rewrite bind_print.
      erewrite bind_return by exact Hc. rewrite bind_print.
      erewrite bind_raise by exact Hi. by eexists. }
  exists (S (Z.to_nat total)). intros fuel Hfuel.
  rewrite bind_print. erewrite bind_return by exact Hc.
  rewrite bind_print. erewrite bind_return by exact Hi.
  destruct (migrate_loop_terminates t cols B total fuel 0 0 w4)
    as [[[n|e] w5] Hl]; [done|lia| |].
  - erewrite bind_return by exact Hl. rewrite bind_print. by eexists.
  - erewrite bind_raise by exact Hl. by eexists.
Qed.

(** What [migrate_data] sends to the destination, and what it returns. *)
Lemma migrate_data_spec fuel t B w r w' :
  migrate_data fuel t B w = Some (r, w') ->
  exists evs cols bs rest,
    log w' = log w ++ evs /\
    pg_writes evs = batch_writes t cols bs ++ rest /\
    (forall i off, page_offsets evs !! i = Some off ->
                   off = Z.of_nat i * B) /\
    match r with
    | Return n =>
        rest = [] /\ inserted_batches evs = bs /\
        n = Z.of_nat (length (concat bs))
    | Raise e =>
        (rest = [] /\ inserted_batches evs = bs) \/
        (exists b, rest = [PgExecuteMany t cols b] /\
                   inserted_batches evs = bs ++ [b])
    end /\
    (working (pg w) = committed (pg w) ->
     committed (pg w') = append_rows t (concat bs) (committed (pg w))).
Proof.
  intros Hrun.
  apply migrate_data_inv in Hrun
    as (evs0 & Hw0 & _ & Hi0 & Ho0 &
        [(e & -> & Hlog & Hpg)|(total & cols & w0 & rl & wl & Hlog0 & Hpg0 & Hloop & Hr)]).
  { exists evs0, [], [], []. rewrite Hpg, Ho0. simpl.
    rewrite append_rows_nil. repeat split; auto.
    intros i off. by rewrite lookup_nil. }
  apply migrate_loop_spec in Hloop
    as (evs & bs & rest & Hlog & Hwrites & Hrl & Hoffs & Hcom).
  rewrite Hpg0 in Hcom.
  assert (Hins : inserted_batches (evs0 ++ evs)
                 = bs ++ inserted_batches rest).
  { rewrite inserted_batches_app, Hi0. simpl.
    rewrite <- (inserted_batches_pg_writes evs), Hwrites.
    by rewrite inserted_batches_app, inserted_batches_batch_writes. }
  destruct rl as [n|e].
  - destruct Hr as [-> ->]. destruct Hrl as [-> ->].
    exists (evs0 ++ evs ++ [Print (Migrated t (0 + Z.of_nat (length (concat bs))))]),
      cols, bs, [].
    simpl. rewrite Hlog, Hlog0.
    rewrite !pg_writes_app, !inserted_batches_app, !page_offsets_app.
    rewrite Hw0, Hwrites, Ho0.
    rewrite inserted_batches_app in Hins. simpl in *.
    rewrite !app_nil_r in *. rewrite <- !app_assoc.
    split; [done|]. split; [done|]. split; [|split; [by rewrite Z.add_0_l|]].
    + intros i off Hoff. apply Hoffs in Hoff. lia.
    + intros Hidle. by apply Hcom.
  - destruct Hr as [-> ->].
    exists (evs0 ++ evs), cols, bs, rest.
    rewrite Hlog, Hlog0, pg_writes_app, page_offsets_app, Hw0, Ho0, Hwrites.
    rewrite <- app_assoc.
    split; [done|]. split; [done|]. split; [|split].
    + intros i off Hoff. apply Hoffs in Hoff. lia.
    + destruct Hrl as [->|[b ->]]; [left|right; exists b]; rewrite Hins;
        simpl; by rewrite ?app_nil_r.
    + intros Hidle. by apply Hcom.
Qed.

(** *** Relations kept by the building blocks *)

Global Instance logs_preorder P : PreOrder (logs P).
Proof.
  split.
  - intros w. exists []. by rewrite app_nil_r.
  - intros w1 w2 w3 (evs1 & H1 & HP1) (evs2 & H2 & HP2).
    exists (evs1 ++ evs2). rewrite H2, H1, <- app_assoc.
    split; [done|by apply Forall_app].
Qed.

Global Instance same_committed_preorder : PreOrder same_committed.
Proof.
  split; [by intros w|].
  intros w1 w2 w3 H1 H2. unfold same_committed in *. congruence.
Qed.

Section Respects.
Context (R : world -> world -> Prop) `{!PreOrder R}.

Lemma respects_ret {A} (a : A) : respects R (ret a).
Proof. intros w r w' [= <- <-]. reflexivity. Qed.

Lemma respects_raise {A} e : respects R (raise (A:=A) e).
Proof. intros w r w' [= <- <-]. reflexivity. Qed.

Lemma respects_sys_exit {A} code : respects R (sys_exit (A:=A) code).
Proof. apply respects_raise. Qed.

Lemma respects_diverge {A} : respects R (diverge (A:=A)).
Proof. by intros w r w'. Qed.

Lemma respects_bind {A B} (m : M A) (k : A -> M B) :
  respects R m -> (forall a, respects R (k a)) -> respects R (bind m k).
Proof.
  intros Hm Hk w r w' Hrun.
  apply bind_inv in Hrun as [(a & w1 & Hrun1 & Hrun2)|(e & Hrun1 & ->)].
  - etransitivity; [by eapply Hm|by eapply Hk].
  - by eapply Hm.
Qed.

Lemma respects_try_except {A} (body : M A) handler :
  respects R body -> (forall e, respects R (handler e)) ->
  respects R (try_except body handler).
Proof.
  intros Hb Hh w r w'. unfold try_except.
  destruct (body w) as [[[a|e] w1]|] eqn:Hrun; [| |done].
  - intros [= <- <-]. by eapply Hb.
  - destruct (is_Exception e).
    + intros Hrun2. etransitivity; [by eapply Hb|by eapply Hh].
    + intros [= <- <-]. by eapply Hb.
Qed.

Lemma respects_try_finally {A} (body : M A) cleanup :
  respects R body -> respects R cleanup ->
  respects R (try_finally body cleanup).
Proof.
  intros Hb Hc w r w'. unfold try_finally.
  destruct (body w) as [[r1 w1]|] eqn:Hrun; [|done].
  destruct (cleanup w1) as [[[[]|e] w2]|] eqn:Hrun2; [| |done];
    intros [= <- <-]; (etransitivity; [by eapply Hb|by eapply Hc]).
Qed.

Lemma respects_read {A} (f : world -> outcome A) :
  respects R (fun w => Some (f w, w)).
Proof. intros w r w' [= <- <-]. reflexivity. Qed.

End Respects.

Lemma respects_read_connection_file R `{!PreOrder R} :
  respects R read_connection_file.
Proof.
  intros w r w'. unfold read_connection_file.
  destruct (conn_string_file w); intros [= <- <-]; reflexivity.
Qed.

Lemma respects_read_schema_file R `{!PreOrder R} :
  respects R read_schema_file.
Proof.
  intros w r w'. unfold read_schema_file.
  destruct (schema_file w); intros [= <- <-]; reflexivity.
Qed.

Lemma respects_read_lines R `{!PreOrder R} path : respects R (read_lines path).
Proof.
  intros w r w'. unfold read_lines.
  destruct (csv_files w !! path); intros [= <- <-]; reflexivity.
Qed.

(** **** The log *)

Lemma logs_ret P {A} (a : A) : respects (logs P) (ret a).
Proof. exact (respects_ret (logs P) a). Qed.

Lemma logs_raise P {A} e : respects (logs P) (raise (A:=A) e).
Proof. exact (respects_raise (logs P) e). Qed.

Lemma logs_diverge P {A} : respects (logs P) (diverge (A:=A)).
Proof. exact (respects_diverge (logs P)). Qed.

Lemma logs_bind P {A B} (m : M A) (k : A -> M B) :
  respects (logs P) m -> (forall a, respects (logs P) (k a)) ->
  respects (logs P) (bind m k).
Proof. exact (respects_bind (logs P) m k). Qed.

Lemma logs_try_except P {A} (body : M A) handler :
  respects (logs P) body -> (forall e, respects (logs P) (handler e)) ->
  respects (logs P) (try_except body handler).
Proof. exact (respects_try_except (logs P) body handler). Qed.

Lemma logs_try_finally P {A} (body : M A) cleanup :
  respects (logs P) body -> respects (logs P) cleanup ->
  respects (logs P) (try_finally body cleanup).
Proof. exact (respects_try_finally (logs P) body cleanup). Qed.

Lemma logs_read_connection_file P : respects (logs P) read_connection_file.
Proof. exact (respects_read_connection_file (logs P)). Qed.

Lemma logs_read_schema_file P : respects (logs P) read_schema_file.
Proof. exact (respects_read_schema_file (logs P)). Qed.

Lemma logs_read_lines P path : respects (logs P) (read_lines path).
Proof. exact (respects_read_lines (logs P) path). Qed.

Lemma logs_event P e w w' : P e -> log w' = log w ++ [e] -> logs P w w'.
Proof. intros He Hlog. exists [e]. split; [done|by constructor]. Qed.

Lemma logs_same P w w' : log w' = log w -> logs P w w'.
Proof. intros Hlog. exists []. by rewrite app_nil_r. Qed.

Lemma logs_print P msg : P (Print msg) -> respects (logs P) (print msg).
Proof. intros HP w r w' [= <- <-]. by eapply logs_event. Qed.

Lemma logs_sqlite_connect P :
  P SqliteConnect -> respects (logs P) sqlite_connect.
Proof. intros HP w r w' [= <- <-]. by apply (logs_event P SqliteConnect). Qed.

Lemma logs_sqlite_close P : P SqliteClose -> respects (logs P) sqlite_close.
Proof. intros HP w r w' [= <- <-]. by apply (logs_event P SqliteClose). Qed.

Lemma logs_sqlite_query {A} P (q : gmap string table -> exn + A * event) :
  (forall d a ev, q d = inr (a, ev) -> P ev) ->
  respects (logs P) (sqlite_query q).
Proof.
  intros HP w r w'. unfold sqlite_query.
  destruct (sqlite_open w); [|intros [= <- <-]; reflexivity].
  destruct (q _) as [e|[a ev]] eqn:Hq; intros [= <- <-].
  - by apply logs_same.
  - apply (logs_event P ev); [by eapply HP|done].
Qed.

Lemma logs_sqlite_tables P :
  (forall names, P (SqliteTables names)) -> respects (logs P) sqlite_tables.
Proof. intros HP. apply logs_sqlite_query. by intros d a ev [= <- <-]. Qed.

Lemma logs_sqlite_count P t :
  (forall n, P (SqliteCount t n)) -> respects (logs P) (sqlite_count t).
Proof.
  intros HP. apply logs_sqlite_query. intros d a ev.
  destruct (d !! t); [|done]. by intros [= <- <-].
Qed.

Lemma logs_sqlite_table_info P t :
  (forall cols, P (SqliteTableInfo t cols)) ->
  respects (logs P) (sqlite_table_info t).
Proof. intros HP. apply logs_sqlite_query. by intros d a ev [= <- <-]. Qed.

Lemma logs_sqlite_select P t cols limit offset :
  (forall batch, P (SqliteSelect t limit offset batch)) ->
  respects (logs P) (sqlite_select t cols limit offset).
Proof.
  intros HP. apply logs_sqlite_query. intros d a ev.
  destruct (d !! t); [|done]. case_bool_decide; [|done]. by intros [= <- <-].
Qed.

Lemma logs_pg_connect P : P PgConnect -> respects (logs P) pg_connect.
Proof.
  intros HP w r w'. unfold pg_connect.
  destruct (pg_reachable w); intros [= <- <-]; [|reflexivity].
  by apply (logs_event P PgConnect).
Qed.

Lemma logs_pg_statement {A} P ev (run : db -> db_error + A * db) :
  P ev -> respects (logs P) (pg_statement ev run).
Proof.
  intros HP w r w'. unfold pg_statement. simpl.
  destruct (pg_open (pg w)); simpl; [|intros [= <- <-]; by eapply logs_event].
  destruct (in_failed_txn (pg w)); [intros [= <- <-]; by eapply logs_event|].
  destruct (run _) as [e|[a d']]; intros [= <- <-];
    by apply (logs_event P ev).
Qed.

Lemma logs_pg_commit P : P PgCommit -> respects (logs P) pg_commit.
Proof.
  intros HP w r w'. unfold pg_commit. simpl.
  destruct (pg_open (pg w)); simpl; intros [= <- <-];
    [by apply (logs_event P PgCommit)|by eapply logs_event].
Qed.

Lemma logs_pg_rollback P : P PgRollback -> respects (logs P) pg_rollback.
Proof.
  intros HP w r w'. unfold pg_rollback. simpl.
  destruct (pg_open (pg w)); simpl; intros [= <- <-];
    [by apply (logs_event P PgRollback)|by eapply logs_event].
Qed.

Lemma logs_pg_close P : P PgClose -> respects (logs P) pg_close.
Proof.
  intros HP w r w' [= <- <-]. by apply (logs_event P PgClose).
Qed.

(** **** The committed database *)


Lemma same_committed_pg_statement {A} ev (run : db -> db_error + A * db) :
  respects same_committed (pg_statement ev run).
Proof.
  intros w r w'. unfold pg_statement. simpl.
  destruct (pg_open (pg w)); simpl; [|by intros [= <- <-]].
  destruct (in_failed_txn (pg w)); [by intros [= <- <-]|].
  by destruct (run _) as [e|[a d']]; intros [= <- <-].
Qed.




(** *** The events of each phase *)

Ltac tag_side :=
  intros;
  first [ split; [reflexivity|first [left; reflexivity|right; reflexivity]]
        | split; reflexivity
        | exact I ].

Ltac logs_step :=
  unfold bulk_import_supabase.skip_header,
    import_csv_to_supabase.copy_with_header,
    pg_execute, pg_executemany, pg_copy_expert, pg_count,
    pg_select_limit, pg_count_region, pg_read;
  first
    [ apply logs_bind; [|intros ?]
    | apply logs_ret
    | apply logs_raise
    | apply logs_diverge
    | apply logs_try_except; [|intros ?]
    | apply logs_try_finally
    | apply logs_read_connection_file
    | apply logs_read_schema_file
    | apply logs_read_lines
    | apply logs_print; tag_side
    | apply logs_sqlite_connect; tag_side
    | apply logs_sqlite_close; tag_side
    | apply logs_sqlite_tables; tag_side
    | apply logs_sqlite_count; tag_side
    | apply logs_sqlite_table_info; tag_side
    | apply logs_sqlite_select; tag_side
    | apply logs_pg_connect; tag_side
    | apply logs_pg_statement; tag_side
    | apply logs_pg_commit; tag_side
    | apply logs_pg_rollback; tag_side
    | apply logs_pg_close; tag_side
    | match goal with
      | |- respects _ (if ?b then _ else _) => destruct b
      | |- respects _ (match ?x with _ => _ end) => destruct x
      end ].

Lemma logs_execute_each P ss :
  (forall s, P (PgExecute [s])) -> respects (logs P) (execute_each ss).
Proof.
  intros HP. induction ss as [|s ss IH]; simpl.
  - apply logs_ret.
  - apply logs_bind; [|by intros _].
    by apply logs_pg_statement.
Qed.


Lemma create_tables_events w r w' :
  create_tables w = Some (r, w') ->
  exists evs,
    log w' = log w ++ Print (Say "Creating tables...") :: evs /\
    Forall (in_phase Provision) evs.
Proof.
  unfold create_tables. rewrite bind_print. intros Hrun.
  eapply (logs_try_except (in_phase Provision)) in Hrun
    as (evs & Hlog & Hevs).
  - exists evs. simpl in Hlog. by rewrite <- app_assoc in Hlog.
  - repeat first [apply logs_execute_each; tag_side | logs_step].
  - intros e. repeat logs_step.
Qed.


(** *** Putting the phases one after the other *)








(** *** The phases of [migrate_to_supabase.main] *)







Lemma logs_connect_sqlite : respects (logs untagged) connect_sqlite.
Proof. unfold connect_sqlite. repeat logs_step. Qed.



Lemma try_finally_inv {A} (body : M A) cleanup w r w' :
  try_finally body cleanup w = Some (r, w') ->
  exists rb wb rc,
    body w = Some (rb, wb) /\ cleanup wb = Some (rc, w') /\
    match rc with Return _ => r = rb | Raise e => r = Raise e end.
Proof.
  unfold try_finally. destruct (body w) as [[rb wb]|]; [|done].
  destruct (cleanup wb) as [[[[]|e] wc]|] eqn:Hc; [| |done];
    intros [= <- <-]; [by exists rb, wb, (Return tt)|by exists rb, wb, (Raise e)].
Qed.

Lemma try_except_inv {A} (body : M A) handler w r w' :
  try_except body handler w = Some (r, w') ->
  (body w = Some (r, w') /\ forall e, r = Raise e -> is_Exception e = false) \/
  (exists e w1, body w = Some (Raise e, w1) /\ is_Exception e = true /\
                handler e w1 = Some (r, w')).
Proof.
  unfold try_except. destruct (body w) as [[[a|e] w1]|]; [| |done].
  - intros [= <- <-]. by left.
  - destruct (is_Exception e) eqn:He.
    + intros Hh. right. by exists e, w1.
    + intros [= <- <-]. left. split; [done|]. by intros e' [= <-].
Qed.





(** *** The phases of [bulk_import_supabase.main] *)







Lemma logs_print_rows P rows :
  (forall row, P (Print (SampleRow row))) ->
  respects (logs P) (bulk_import_supabase.print_rows rows).
Proof.
  intros HP. induction rows as [|row rows IH]; simpl.
  - apply logs_ret.
  - apply logs_bind; [by apply logs_print|by intros _].
Qed.



Lemma untagged_waves : untagged (Print bulk_import_supabase.waves).
Proof. by split. Qed.



(** *** Termination of the scripts *)

Lemma total_ret {A} (a : A) : total (ret a).
Proof. intros w. by eexists. Qed.

Lemma total_raise {A} e : total (raise (A:=A) e).
Proof. intros w. by eexists. Qed.

Lemma total_bind {A B} (m : M A) (k : A -> M B) :
  total m -> (forall a, total (k a)) -> total (bind m k).
Proof.
  intros Hm Hk w. unfold bind. destruct (Hm w) as [[[a|e] w1] ->].
  - apply Hk.
  - by eexists.
Qed.

Lemma total_try_except {A} (body : M A) handler :
  total body -> (forall e, total (handler e)) -> total (try_except body handler).
Proof.
  intros Hb Hh w. unfold try_except. destruct (Hb w) as [[[a|e] w1] ->].
  - by eexists.
  - destruct (is_Exception e); [apply Hh|by eexists].
Qed.

Lemma total_try_finally {A} (body : M A) cleanup :
  total body -> total cleanup -> total (try_finally body cleanup).
Proof.
  intros Hb Hc w. unfold try_finally. destruct (Hb w) as [[r w1] ->].
  destruct (Hc w1) as [[[[]|e] w2] ->]; by eexists.
Qed.

Lemma total_print msg : total (print msg).
Proof. intros w. by eexists. Qed.

Lemma total_sqlite_query {A} (q : gmap string table -> exn + A * event) :
  total (sqlite_query q).
Proof. intros w. apply sqlite_query_some. Qed.

Lemma total_pg_statement {A} ev (run : db -> db_error + A * db) :
  total (pg_statement ev run).
Proof.
  intros w. unfold pg_statement. simpl.
  destruct (pg_open (pg w)); simpl; [|by eexists].
  destruct (in_failed_txn (pg w)); [by eexists|].
  destruct (run _) as [e|[a d']]; by eexists.
Qed.

Lemma total_pg_commit : total pg_commit.
Proof.
  intros w. unfold pg_commit. simpl.
  destruct (pg_open (pg w)); by eexists.
Qed.

Lemma total_pg_rollback : total pg_rollback.
Proof.
  intros w. unfold pg_rollback. simpl.
  destruct (pg_open (pg w)); by eexists.
Qed.

Lemma total_pg_close : total pg_close.
Proof. intros w. by eexists. Qed.

Lemma total_pg_connect : total pg_connect.
Proof. intros w. unfold pg_connect. destruct (pg_reachable w); by eexists. Qed.

Lemma total_sqlite_connect : total sqlite_connect.
Proof. intros w. by eexists. Qed.

Lemma total_sqlite_close : total sqlite_close.
Proof. intros w. by eexists. Qed.

Lemma total_read_connection_file : total read_connection_file.
Proof.
  intros w. unfold read_connection_file.
  destruct (conn_string_file w); by eexists.
Qed.

Lemma total_read_schema_file : total read_schema_file.
Proof.
  intros w. unfold read_schema_file. destruct (schema_file w); by eexists.
Qed.

Lemma total_read_lines path : total (read_lines path).
Proof.
  intros w. unfold read_lines. destruct (csv_files w !! path); by eexists.
Qed.

Ltac total_step :=
  unfold bulk_import_supabase.skip_header,
    import_csv_to_supabase.copy_with_header,
    sqlite_tables, sqlite_count, sqlite_table_info, sqlite_select,
    pg_execute, pg_executemany, pg_copy_expert, pg_count,
    pg_select_limit, pg_count_region, pg_read, sys_exit;
  first
    [ apply total_bind; [|intros ?]
    | apply total_ret
    | apply total_raise
    | apply total_try_except; [|intros ?]
    | apply total_try_finally
    | apply total_print
    | apply total_sqlite_query
    | apply total_pg_statement
    | apply total_pg_commit
    | apply total_pg_rollback
    | apply total_pg_close
    | apply total_pg_connect
    | apply total_sqlite_connect
    | apply total_sqlite_close
    | apply total_read_connection_file
    | apply total_read_schema_file
    | apply total_read_lines
    | match goal with
      | |- total (if ?b then _ else _) => destruct b
      | |- total (match ?x with _ => _ end) => destruct x
      end ].

Lemma total_execute_each ss : total (execute_each ss).
Proof.
  induction ss as [|s ss IH]; simpl; [apply total_ret|].
  apply total_bind; [apply total_pg_statement|by intros _].
Qed.

Lemma total_create_tables : total create_tables.
Proof.
  unfold create_tables.
  repeat first [apply total_execute_each | total_step].
Qed.

Lemma total_verify_tables ts b : total (verify_tables ts b).
Proof.
  revert b. induction ts as [|t ts IH]; intros b; simpl; [apply total_ret|].
  repeat first [apply IH | total_step].
Qed.

Lemma total_verify_migration : total verify_migration.
Proof.
  unfold verify_migration. repeat first [apply total_verify_tables | total_step].
Qed.

Lemma total_load_connection_string : total load_connection_string.
Proof.
  intros w. unfold load_connection_string.
  destruct (conn_string_file w) as [c|]; [|by eexists].
  destruct (String.eqb c ""); by eexists.
Qed.

Lemma total_connect_sqlite : total connect_sqlite.
Proof. unfold connect_sqlite. repeat total_step. Qed.

Lemma total_connect_postgres c : total (connect_postgres c).
Proof. unfold connect_postgres. repeat total_step. Qed.







(** **** With fuel *)

Lemma settles_total {A} (m : M A) : total m -> settles (fun _ => m).
Proof.
  intros Hm w. destruct (Hm w) as [x Hx]. by exists O, x.
Qed.

Lemma settles_bind {A B} (mf : nat -> M A) (kf : nat -> A -> M B) :
  settles mf -> (forall a, settles (fun fuel => kf fuel a)) ->
  settles (fun fuel => bind (mf fuel) (kf fuel)).
Proof.
  intros Hm Hk w. destruct (Hm w) as (f1 & [[a|e] w1] & H1).
  - destruct (Hk a w1) as (f2 & x & H2). exists (Nat.max f1 f2), x.
    intros fuel Hfuel. unfold bind. rewrite H1 by lia. apply H2. lia.
  - exists f1, (Raise e, w1). intros fuel Hfuel. unfold bind.
    by rewrite H1.
Qed.

Lemma settles_try_except {A} (bf : nat -> M A) handler :
  settles bf -> (forall e, total (handler e)) ->
  settles (fun fuel => try_except (bf fuel) handler).
Proof.
  intros Hb Hh w. destruct (Hb w) as (f1 & [[a|e] w1] & H1).
  - exists f1, (Return a, w1). intros fuel Hfuel. unfold try_except.
    by rewrite H1.
  - destruct (is_Exception e) eqn:He.
    + destruct (Hh e w1) as [x Hx]. exists f1, x. intros fuel Hfuel.
      unfold try_except. by rewrite H1, He.
    + exists f1, (Raise e, w1). intros fuel Hfuel. unfold try_except.
      by rewrite H1, He.
Qed.

Lemma settles_try_finally {A} (bf : nat -> M A) cleanup :
  settles bf -> total cleanup ->
  settles (fun fuel => try_finally (bf fuel) cleanup).
Proof.
  intros Hb Hc w. destruct (Hb w) as (f1 & [r w1] & H1).
  destruct (Hc w1) as [[[[]|e] w2] H2].
  - exists f1, (r, w2). intros fuel Hfuel. unfold try_finally.
    by rewrite H1, H2.
  - exists f1, (Raise e, w2). intros fuel Hfuel. unfold try_finally.
    by rewrite H1, H2.
Qed.

Lemma migrate_data_fuel_mono t B fuel fuel' w x :
  migrate_data fuel t B w = Some x -> (fuel <= fuel')%nat ->
  migrate_data fuel' t B w = Some x.
Proof.
  unfold migrate_data. rewrite !bind_print. intros Hrun Hle.
  unfold bind at 1. unfold bind at 1 in Hrun.
  destruct (sqlite_count t _) as [[[total|e] w2]|]; [|done|done].
  rewrite bind_print in *.
  unfold bind at 1. unfold bind at 1 in Hrun.
  destruct (sqlite_table_info t _) as [[[cols|e] w4]|]; [|done|done].
  unfold bind at 1. unfold bind at 1 in Hrun.
  destruct (migrate_loop fuel t cols B total 0 0 w4) as [y|] eqn:Hloop;
    [|done].
  by rewrite (migrate_loop_fuel_mono _ _ _ _ _ _ _ _ _ _ Hloop Hle).
Qed.

Lemma settles_migrate_data t B :
  1 <= B -> settles (fun fuel => migrate_data fuel t B).
Proof.
  intros HB w. destruct (migrate_data_terminates t B w HB) as [fuel0 Hfuel0].
  destruct (Hfuel0 fuel0 (le_n _)) as [x Hx]. exists fuel0, x.
  intros fuel Hfuel. by eapply migrate_data_fuel_mono.
Qed.

Lemma settles_main : settles main.
Proof.
  unfold main.
  repeat first
    [ apply settles_migrate_data; lia
    | apply (settles_total create_tables), total_create_tables
    | apply (settles_total verify_migration), total_verify_migration
    | apply (settles_total (print _)), total_print
    | apply (settles_total load_connection_string),
        total_load_connection_string
    | apply (settles_total connect_sqlite), total_connect_sqlite
    | apply (settles_total (connect_postgres _)), total_connect_postgres
    | apply settles_bind; [|intros ?]
    | apply settles_try_finally; [|repeat total_step]
    | apply settles_try_except; [|intros ?; repeat total_step]
    | match goal with
      | |- settles (fun _ => if ?b then _ else _) => destruct b
      end ].
Qed.

Lemma pg_read_run {A} ev t (f : list Row -> A) w c d tb :
  pg w = PgConn c d false true ->
  tables d !! t = Some tb ->
  pg_read ev t f w
  = Some (Return (f (t_rows tb)), set_pg (PgConn c d false true) (emit ev w)).
Proof.
  intros Hpg Ht. unfold pg_read, pg_statement; simpl.
  rewrite Hpg; simpl. by rewrite Ht.
Qed.

(** *** The streaming load *)








(** A statement on a connection: it goes through on a sound, open
    transaction and changes its view; otherwise it raises and the
    committed database is as before. *)
Lemma pg_statement_inv {A} ev (run : db -> db_error + A * db) w r w' :
  pg_statement ev run w = Some (r, w') ->
  (exists a d',
     pg_open (pg w) = true /\ in_failed_txn (pg w) = false /\
     run (working (pg w)) = inr (a, d') /\ r = Return a /\
     w' = set_pg (PgConn (committed (pg w)) d' false true) (emit ev w)) \/
  ((exists e, r = Raise e) /\ committed (pg w') = committed (pg w) /\
   (pg_open (pg w) = true -> in_failed_txn (pg w) = false ->
    exists err, run (working (pg w)) = inl err)).
Proof.
  unfold pg_statement. simpl.
  destruct (pg_open (pg w)); simpl;
    [|intros [= <- <-]; right; split; [by eexists|by split]].
  destruct (in_failed_txn (pg w));
    [intros [= <- <-]; right; split; [by eexists|by split]|].
  destruct (run _) as [e|[a d']] eqn:Hrun; intros [= <- <-].
  - right. split; [by eexists|]. split; [done|]. by exists e.
  - left. by exists a, d'.
Qed.

Lemma pg_commit_inv_idle w r w' :
  pg_commit w = Some (r, w') ->
  pg_open (pg w) = true -> in_failed_txn (pg w) = false ->
  r = Return tt /\
  w' = set_pg (PgConn (working (pg w)) (working (pg w)) false true)
         (emit PgCommit w).
Proof.
  unfold pg_commit. simpl. intros Hrun Hopen Hok.
  rewrite Hopen, Hok in Hrun. simpl in Hrun. by injection Hrun as <- <-.
Qed.

Lemma copy_data_fixed ls :
  end_of_data ∉ ls -> copy_data ls = ls.
Proof.
  induction ls as [|l ls IH]; [done|]. intros Hno. simpl.
  destruct (String.eqb_spec l end_of_data) as [->|_].
  - destruct Hno. by left.
  - f_equal. apply IH. intros Hin. apply Hno. by right.
Qed.

Lemma copy_data_no_marker ls : end_of_data ∉ copy_data ls.
Proof.
  induction ls as [|l ls IH]; simpl; [by intros ?%elem_of_nil|].
  destruct (String.eqb_spec l end_of_data) as [->|Hne];
    [by intros ?%elem_of_nil|].
  by intros [?|?]%elem_of_cons.
Qed.

Lemma copy_data_tail ls : copy_data (tail (copy_data ls)) = tail (copy_data ls).
Proof.
  apply copy_data_fixed. intros Hin. apply (copy_data_no_marker ls).
  destruct (copy_data ls); [done|]. by right.
Qed.

Lemma copy_rows_inr t cols lines d d' :
  copy_rows t cols lines d = inr d' ->
  exists rows tb, parse_rows t cols (copy_data lines) = inr rows /\
                  tables d !! t = Some tb /\
                  d' = append_rows t rows d.
Proof.
  unfold copy_rows. destruct (tables d !! t) as [tb|] eqn:Ht; [|done].
  destruct (parse_rows t cols (copy_data lines)) as [e|rows]; [done|].
  intros Hins%insert_many_inr. by exists rows, tb.
Qed.

(** One COPY and its commit, from a connection with nothing pending. *)
Lemma copy_commit_inv {B} t cols lines (k : M B) w r w' :
  (pg_copy_expert t cols lines;; pg_commit;; k) w = Some (r, w') ->
  working (pg w) = committed (pg w) ->
  ((exists e, r = Raise e) /\ committed (pg w') = committed (pg w)) \/
  (exists rows tb w1,
     parse_rows t cols (copy_data lines) = inr rows /\
     tables (committed (pg w)) !! t = Some tb /\
     pg w1 = (let d' := append_rows t rows (committed (pg w)) in
              PgConn d' d' false true) /\
     csv_files w1 = csv_files w /\ schema_file w1 = schema_file w /\
     log w1 = log w ++ [PgCopy t cols lines; PgCommit] /\
     k w1 = Some (r, w')).
Proof.
  intros Hrun Hidle.
  apply bind_inv in Hrun as [([] & w1 & Hcopy & Hrun)|(e & Hcopy & ->)].
  2:{ left. split; [by eexists|].
      by apply (same_committed_pg_statement) in Hcopy. }
  apply pg_statement_inv in Hcopy
    as [([] & d' & Hopen & Hok & Hcopy & _ & ->)|[[e [=]] _]].
  destruct (copy_rows t cols lines (working (pg w))) as [|d''] eqn:Hrows;
    [done|]. injection Hcopy as <-.
  apply copy_rows_inr in Hrows as (rows & tb & Hparse & Htb & ->).
  apply bind_inv in Hrun as [([] & w2 & Hcommit & Hrun)|(e & Hcommit & ->)].
  2:{ by apply pg_commit_inv_idle in Hcommit as [[=] _]. }
  apply pg_commit_inv_idle in Hcommit as [_ ->]; [|done|done].
  right. exists rows, tb.
  match type of Hrun with k ?w1 = _ => exists w1 end.
  split; [done|]. rewrite <- Hidle. split; [done|].
  split; [reflexivity|]. split; [reflexivity|]. split; [reflexivity|].
  split; [simpl; by rewrite <- app_assoc|done].
Qed.

Lemma parse_rows_length t cols ls rows :
  parse_rows t cols ls = inr rows -> length rows = length ls.
Proof.
  revert rows. induction ls as [|l ls IH]; intros rows; simpl.
  - by intros [= <-].
  - destruct (parse_row t cols l); [|done].
    destruct (parse_rows t cols ls) as [|rs]; [done|].
    intros [= <-]. simpl. f_equal. by apply IH.
Qed.

Lemma read_lines_inv path w r w' :
  read_lines path w = Some (r, w') ->
  w' = w /\
  ((exists e, r = Raise e) \/
   (exists ls, csv_files w !! path = Some ls /\ r = Return ls)).
Proof.
  unfold read_lines. destruct (csv_files w !! path) as [ls|];
    intros [= <- <-]; (split; [done|]); [right|left]; by eexists.
Qed.





(** *** The connections at the end of a run *)

Global Instance same_pg_preorder : PreOrder same_pg.
Proof.
  split; [by intros w|].
  intros w1 w2 w3 H12 H23. unfold same_pg in *. congruence.
Qed.

Lemma same_pg_print msg : respects same_pg (print msg).
Proof. by intros w r w' [= <- <-]. Qed.

Lemma same_pg_sqlite_connect : respects same_pg sqlite_connect.
Proof. by intros w r w' [= <- <-]. Qed.

Lemma same_pg_sqlite_query {A} (q : gmap string table -> exn + A * event) :
  respects same_pg (sqlite_query q).
Proof.
  intros w r w'. unfold sqlite_query.
  destruct (sqlite_open w); [|by intros [= <- <-]].
  by destruct (q _) as [e|[a ev]]; intros [= <- <-].
Qed.

Lemma same_pg_load_connection_string :
  respects same_pg load_connection_string.
Proof.
  intros w r w'. unfold load_connection_string.
  destruct (conn_string_file w) as [c|].
  - by destruct (String.eqb c ""); intros [= <- <-].
  - by intros [= <- <-].
Qed.

Lemma same_pg_connect_sqlite : respects same_pg connect_sqlite.
Proof.
  unfold connect_sqlite, sqlite_tables, sys_exit.
  repeat first
    [ apply (respects_bind same_pg); [|intros ?]
    | apply (respects_try_except same_pg); [|intros ?]
    | apply (respects_raise same_pg)
    | apply same_pg_print
    | apply same_pg_sqlite_connect
    | apply same_pg_sqlite_query
    | match goal with
      | |- respects _ (if ?b then _ else _) => destruct b
      end ].
Qed.

Lemma connect_postgres_raise c w e w' :
  connect_postgres c w = Some (Raise e, w') -> pg w' = pg w.
Proof.
  unfold connect_postgres. rewrite bind_print. intros Hrun.
  assert (Hbody : forall e1 w1,
            (pg_connect;; print (Say "PostgreSQL connected"))
              (emit (Print (Say "Connecting to Supabase...")) w)
            = Some (Raise e1, w1) -> pg w1 = pg w).
  { intros e1 w1 Hb.
    apply bind_inv in Hb as [([] & w2 & _ & Hp)|(e2 & Hconn & _)];
      [done|].
    revert Hconn. unfold pg_connect. simpl.
    destruct (pg_reachable w); [done|]. by intros [= _ <-]. }
  apply try_except_inv in Hrun as [[Hrun _]|(e1 & w1 & Hrun & _ & Hh)].
  - by eapply Hbody.
  - apply Hbody in Hrun. rewrite <- Hrun.
    revert Hh. generalize w1 (Raise (A:=unit) e) w'.
    unfold sys_exit.
    apply (respects_bind same_pg); [apply same_pg_print|intros _].
    apply (respects_raise same_pg).
Qed.

(** A run of [main] ends with both connections closed, the closing
    being the last it did, unless it ended before the destination was
    connected. *)
Lemma migrate_main_closes fuel w r w' :
  main fuel w = Some (r, w') ->
  (sqlite_open w' = false /\ pg_open (pg w') = false /\
   exists pre, log w' = pre ++ [SqliteClose; PgClose;
                                Print (Say "Connections closed")]) \/
  ((exists e, r = Raise e) /\ pg w' = pg w).
Proof.
  unfold main. rewrite !bind_print. intros Hrun.
  apply bind_inv in Hrun as [(c & w1 & Hload & Hrun)|(e & Hload & ->)].
  2:{ right. split; [by eexists|].
      by apply same_pg_load_connection_string in Hload. }
  apply same_pg_load_connection_string in Hload. red in Hload.
  simpl in Hload. rewrite bind_print in Hrun.
  apply bind_inv in Hrun as [([] & w2 & Hsq & Hrun)|(e & Hsq & ->)].
  2:{ right. split; [by eexists|].
      apply same_pg_connect_sqlite in Hsq. red in Hsq. simpl in Hsq.
      congruence. }
  apply same_pg_connect_sqlite in Hsq. red in Hsq. simpl in Hsq.
  apply bind_inv in Hrun as [([] & w3 & Hpg & Hrun)|(e & Hpg & ->)].
  2:{ right. split; [by eexists|].
      apply connect_postgres_raise in Hpg. congruence. }
  left. apply try_finally_inv in Hrun as (rb & wb & rc & _ & Hclean & _).
  injection Hclean as _ <-. simpl.
  split; [done|]. split; [done|].
  exists (log wb). by rewrite <- !app_assoc.
Qed.

(** * The claims about [migrate_data] *)


(** C2 (batch commit durability).  Run from a connection with nothing
    pending, [migrate_data] sends the destination nothing but, batch
    after batch, one executemany followed at once by its commit.  When
    the load fails, the batches [bs] sent before the failing one, the
    batches 1..k-1, are exactly what the load has added to the
    destination's committed table; the executemany of batch k, if the
    failure is there, is the last write and was never committed. *)
Theorem batch_commit_durability fuel t B w r w' :
  migrate_data fuel t B w = Some (r, w') ->
  working (pg w) = committed (pg w) ->
  exists evs cols bs rest,
    log w' = log w ++ evs /\
    pg_writes evs = batch_writes t cols bs ++ rest /\
    committed (pg w') = append_rows t (concat bs) (committed (pg w)) /\
    match r with
    | Return n => rest = [] /\ inserted_batches evs = bs
    | Raise e =>
        (rest = [] /\ inserted_batches evs = bs) \/
        (exists b, rest = [PgExecuteMany t cols b] /\
                   inserted_batches evs = bs ++ [b])
    end.
Proof.
  intros Hrun Hidle.
  apply migrate_data_spec in Hrun
    as (evs & cols & bs & rest & Hlog & Hwrites & _ & Hr & Hcom).
  exists evs, cols, bs, rest. repeat split; try done; [by apply Hcom|].
  destruct r as [n|e]; [by destruct Hr as (? & ? & _)|done].
Qed.

(** C10 (termination).  For a batch size [B >= 1] and a total row count
    [total >= 0] the paging loop ends within [total + 1] turns, whatever
    the two stores answer: its page offsets are 0, B, 2B, ..., so the
    test [offset < total_rows] fails in the end, unless an empty batch
    or an exception has ended the loop before.  The count it returns is
    the sum of the lengths of the batches it sent to the destination.
    [migrate_data], which takes [total] from the source's count, ends
    likewise and returns that sum. *)
Theorem paging_loop_terminates t cols B total w :
  1 <= B ->
  0 <= total ->
  (exists r w' evs,
     migrate_loop (S (Z.to_nat total)) t cols B total 0 0 w = Some (r, w') /\
     log w' = log w ++ evs /\
     (forall i off, page_offsets evs !! i = Some off ->
                    off = Z.of_nat i * B) /\
     (forall n, r = Return n -> n = sum_lengths (inserted_batches evs))) /\
  (exists fuel0, forall fuel, (fuel0 <= fuel)%nat ->
     exists r w' evs,
       migrate_data fuel t B w = Some (r, w') /\
       log w' = log w ++ evs /\
       (forall i off, page_offsets evs !! i = Some off ->
                      off = Z.of_nat i * B) /\
       (forall n, r = Return n -> n = sum_lengths (inserted_batches evs))).
Proof.
  intros HB Htotal. split.
  - destruct (migrate_loop_terminates t cols B total (S (Z.to_nat total)) 0 0 w)
      as [[r w'] Hrun]; [done|lia|].
    exists r, w'.
    pose proof Hrun as Hspec. apply migrate_loop_spec in Hspec
      as (evs & bs & rest & Hlog & Hwrites & Hr & Hoffs & _).
    exists evs. split; [done|]. split; [done|]. split.
    + intros i off Hoff. apply Hoffs in Hoff. lia.
    + intros n ->. destruct Hr as [-> ->].
      rewrite <- inserted_batches_pg_writes, Hwrites, app_nil_r.
      rewrite inserted_batches_batch_writes, sum_lengths_concat. lia.
  - destruct (migrate_data_terminates t B w HB) as [fuel0 Hfuel0].
    exists fuel0. intros fuel Hfuel.
    destruct (Hfuel0 fuel Hfuel) as [[r w'] Hrun].
    exists r, w'.
    pose proof Hrun as Hspec. apply migrate_data_spec in Hspec
      as (evs & cols' & bs & rest & Hlog & Hwrites & Hoffs & Hr & _).
    exists evs. split; [done|]. split; [done|]. split; [done|].
    intros n ->. destruct Hr as (_ & -> & ->).
    by rewrite sum_lengths_concat.
Qed.

(** C7 (edge cases of the paging loop).  At a turn of the loop whose
    offset is still below the total counted at the start: if the page
    query returns no row, the loop ends at once, with the count it had
    and without another query; and a last page ([total <= offset + B])
    of any length from one row up, shorter than [B] or not, is inserted
    and committed like any other before the loop ends. *)
Theorem paging_edge_cases fuel t tb B total o ri w :
  o < total ->
  sqlite_open w = true ->
  sqlite_db w (sqlite_clock w) !! t = Some tb ->
  (select_page (t_rows tb) B o = [] ->
   migrate_loop (S fuel) t (t_cols tb) B total o ri w
   = Some (Return ri, emit (SqliteSelect t B o []) (tick w))) /\
  (forall page c d d',
     select_page (t_rows tb) B o = page ->
     page <> [] ->
     total <= o + B ->
     pg w = PgConn c d false true ->
     insert_many t (t_cols tb) page d = inr d' ->
     exists w',
       migrate_loop (S (S fuel)) t (t_cols tb) B total o ri w
       = Some (Return (ri + Z.of_nat (length page)), w') /\
       log w' = log w ++ [SqliteSelect t B o page;
                          PgExecuteMany t (t_cols tb) page;
                          PgCommit;
                          Print (Progress (ri + Z.of_nat (length page)) total)] /\
       committed (pg w') = d').
Proof.
  intros Hlt Hopen Htb. apply Z.ltb_lt in Hlt. split.
  - intros Hpage. simpl. rewrite Hlt.
    erewrite bind_return by (by apply sqlite_select_run).
    by rewrite Hpage.
  - intros page c d d' Hpage Hne Hlast Hpg Hins.
    change (migrate_loop (S (S fuel)) t (t_cols tb) B total o ri w)
      with ((if o <? total then
               batch <- sqlite_select t (t_cols tb) B o;;
               match batch with
               | [] => ret ri
               | _ :: _ =>
                   pg_executemany t (t_cols tb) batch;;
                   pg_commit;;
                   print (Progress (ri + Z.of_nat (length batch)) total);;
                   migrate_loop (S fuel) t (t_cols tb) B total (o + B)
                     (ri + Z.of_nat (length batch))
               end
             else ret ri) w).
    rewrite Hlt.
    erewrite bind_return by (by apply sqlite_select_run).
    rewrite Hpage. destruct page as [|r0 page']; [done|].
    erewrite bind_return by (by eapply pg_executemany_run).
    erewrite bind_return by (by eapply pg_commit_run).
    rewrite bind_print. simpl.
    destruct (o + B <? total) eqn:Hnext; [apply Z.ltb_lt in Hnext; lia|].
    eexists. split; [reflexivity|]. simpl. split; [|done].
    by rewrite <- !app_assoc.
Qed.

(** * The claims about verification *)

Lemma print_rows_run rows w :
  exists w', bulk_import_supabase.print_rows rows w = Some (Return tt, w')
             /\ pg w' = pg w.
Proof.
  revert w. induction rows as [|row rows IH]; intros w; simpl.
  - by eexists.
  - rewrite bind_print. destruct (IH (emit (Print (SampleRow row)) w))
      as (w' & -> & Hpg). by eexists.
Qed.

(** C4 (verification), as the code has it.  [verify_migration] takes no
    list of tables: it counts argo_profiles, then argo_floats, on both
    sides, prints for each the line [report_line] (a match line exactly
    when the two counts are equal, with the table name and the count;
    otherwise a mismatch line with the table name and both counts) and
    returns the overall boolean alone, true exactly when both tables
    match.  [verify_import] compares nothing: it returns the two
    destination counts. *)
Theorem verify_migration_reports w c d sP sF dP dF :
  sqlite_open w = true ->
  sqlite_db w (sqlite_clock w) !! argo_profiles = Some sP ->
  sqlite_db w (S (sqlite_clock w)) !! argo_floats = Some sF ->
  pg w = PgConn c d false true ->
  tables d !! argo_profiles = Some dP ->
  tables d !! argo_floats = Some dF ->
  (exists w',
     verify_migration w
     = Some (Return ((row_count sP =? row_count dP)
                     && (row_count sF =? row_count dF)), w') /\
     log w' = log w ++
       [Print (Say "Verifying migration...");
        SqliteCount argo_profiles (row_count sP); PgCount argo_profiles;
        Print (report_line argo_profiles (row_count sP) (row_count dP));
        SqliteCount argo_floats (row_count sF); PgCount argo_floats;
        Print (report_line argo_floats (row_count sF) (row_count dF))] /\
     pg w' = pg w) /\
  (exists w',
     bulk_import_supabase.verify_import w
     = Some (Return (row_count dF, row_count dP), w') /\
     pg w' = pg w) /\
  (forall t s p, report_line t s p = CountsMatch t s <-> s = p) /\
  report_line argo_floats 2072 2072 = CountsMatch argo_floats 2072 /\
  report_line argo_floats 1300000 1299998
  = CountsMismatch argo_floats 1300000 1299998.
Proof.
  intros Hopen HsP HsF Hpg HdP HdF.
  split; [|split; [|split; [|split; reflexivity]]].
  - unfold verify_migration. rewrite bind_print. simpl verify_tables.
    erewrite bind_return by (by apply sqlite_count_run).
    erewrite bind_return by (by eapply pg_read_run).
    fold (row_count sP) (row_count dP).
    assert (Hstep : forall b,
      (if row_count sP =? row_count dP then true else false) = b ->
      exists w',
        (if row_count sP =? row_count dP
         then print (CountsMatch argo_profiles (row_count sP));;
              verify_tables [argo_floats] true
         else print (CountsMismatch argo_profiles (row_count sP) (row_count dP));;
              verify_tables [argo_floats] false)
          (set_pg (PgConn c d false true)
             (emit (PgCount argo_profiles)
                (emit (SqliteCount argo_profiles (row_count sP))
                   (tick (emit (Print (Say "Verifying migration...")) w)))))
        = Some (Return (b && (row_count sF =? row_count dF)), w') /\
        log w' = log w ++
          [Print (Say "Verifying migration...");
           SqliteCount argo_profiles (row_count sP); PgCount argo_profiles;
           Print (report_line argo_profiles (row_count sP) (row_count dP));
           SqliteCount argo_floats (row_count sF); PgCount argo_floats;
           Print (report_line argo_floats (row_count sF) (row_count dF))] /\
        pg w' = pg w).
    { intros b Hb. unfold report_line.
      destruct (row_count sP =? row_count dP); subst b;
        rewrite bind_print; simpl verify_tables;
        (erewrite bind_return by (by apply sqlite_count_run));
        (erewrite bind_return by (by eapply pg_read_run));
        fold (row_count sF) (row_count dF);
        destruct (row_count sF =? row_count dF); rewrite bind_print;
        eexists; (split; [reflexivity|]); simpl;
        rewrite <- !app_assoc; done. }
    destruct (Hstep _ eq_refl) as (w' & Hrun & Hlog & Hpg').
    exists w'. by destruct (row_count sP =? row_count dP).
  - unfold bulk_import_supabase.verify_import. rewrite !bind_print.
    erewrite bind_return by (by eapply pg_read_run).
    erewrite bind_return by (by eapply pg_read_run).
    erewrite bind_return by (by eapply pg_read_run).
    erewrite bind_return by (by eapply pg_read_run).
    rewrite !bind_print.
    match goal with |- context [bind (bulk_import_supabase.print_rows ?rs) _ ?w0] =>
      destruct (print_rows_run rs w0) as (w1 & Hr1 & Hpg1) end.
    erewrite bind_return by exact Hr1. rewrite bind_print.
    match goal with |- context [bind (bulk_import_supabase.print_rows ?rs) _ ?w0] =>
      destruct (print_rows_run rs w0) as (w2 & Hr2 & Hpg2) end.
    erewrite bind_return by exact Hr2.
    eexists. split; [reflexivity|]. rewrite Hpg2; simpl. rewrite Hpg1; simpl.
    done.
  - intros t s p. unfold report_line. destruct (s =? p) eqn:Heq.
    + apply Z.eqb_eq in Heq. done.
    + apply Z.eqb_neq in Heq. split; [done|]. intros; done.
Qed.

(** * Schema provisioning *)

Lemma exec_ddls_cons s ss d d' :
  exec_ddl s d = inr d' -> exec_ddls (s :: ss) d = exec_ddls ss d'.
Proof. simpl. by intros ->. Qed.

Lemma exec_ddls_app ss1 ss2 d :
  exec_ddls (ss1 ++ ss2) d
  = match exec_ddls ss1 d with
    | inl e => inl e
    | inr d' => exec_ddls ss2 d'
    end.
Proof.
  revert d. induction ss1 as [|s ss1 IH]; intros d; simpl; [done|].
  destruct (exec_ddl s d); [done|apply IH].
Qed.

Lemma drop_table_absent t d :
  well_formed d -> tables d !! t = None -> drop_table t d = d.
Proof.
  intros [Hwf _] Ht. destruct d as [tbs ixs]; unfold drop_table; simpl in *.
  f_equal; [by apply delete_id|].
  apply map_filter_id. intros i ix Hix; simpl. intros Heq.
  apply Hwf in Hix. simpl in Hix. rewrite Heq, Ht in Hix. by destruct Hix.
Qed.

Lemma exec_drop t d :
  permitted (DropTableIfExistsCascade t) = true ->
  well_formed d ->
  indexes d !! t = None ->
  exec_ddl (DropTableIfExistsCascade t) d = inr (drop_table t d).
Proof.
  intros Hperm Hwf Hix. unfold exec_ddl. rewrite Hperm; simpl.
  destruct (tables d !! t) eqn:Ht; [done|].
  rewrite Hix. by rewrite drop_table_absent.
Qed.

Lemma exec_create_table t cols d :
  permitted (CreateTable t cols) = true ->
  tables d !! t = None ->
  indexes d !! t = None ->
  exec_ddl (CreateTable t cols) d
  = inr {| tables := <[t := Table cols []]> (tables d);
           indexes := indexes d |}.
Proof. intros Hperm Ht Hix. unfold exec_ddl. by rewrite Hperm, Ht, Hix. Qed.

Lemma exec_create_index i t cols d tb :
  permitted (CreateIndex i t cols) = true ->
  tables d !! t = Some tb ->
  filter (fun c => c ∉ t_cols tb) cols = [] ->
  tables d !! i = None ->
  indexes d !! i = None ->
  exec_ddl (CreateIndex i t cols) d
  = inr {| tables := tables d;
           indexes := <[i := Index t cols]> (indexes d) |}.
Proof.
  intros Hperm Ht Hcols Hti Hix. unfold exec_ddl.
  by rewrite Hperm, Ht, Hcols, Hti, Hix.
Qed.

Lemma well_formed_drop_table t d :
  well_formed d -> well_formed (drop_table t d).
Proof.
  intros [Hix Htb]. split; simpl.
  - intros i ix [Hi Hne]%map_lookup_filter_Some. simpl in *.
    rewrite lookup_delete_ne by done. by apply (Hix i).
  - intros n tb Hn. apply lookup_delete_Some in Hn as [_ Hn].
    apply map_lookup_filter_None. left. by apply (Htb n tb).
Qed.

Lemma lookup_filter_None_keep {A} (P : string * A -> Prop)
    `{!forall x, Decision (P x)} (m : gmap string A) i :
  m !! i = None -> filter P m !! i = None.
Proof. intros Hi. apply map_lookup_filter_None. by left. Qed.

Ltac names_differ :=
  unfold argo_floats, argo_profiles; discriminate.

Ltac in_list := apply list_elem_of_In; simpl; tauto.

(** The indexes left after the two drops hold none of the five names. *)
Lemma dropped_index_free d i :
  provisionable d ->
  i ∈ index_names ->
  tables d !! i = None /\
  filter (fun ix : string * index => i_table ix.2 ≠ argo_floats)
    (filter (fun ix : string * index => i_table ix.2 ≠ argo_profiles)
       (indexes d)) !! i = None.
Proof.
  intros (_ & _ & Hnames) Hi.
  rewrite Forall_forall in Hnames. destruct (Hnames i Hi) as [Ht Hix].
  split; [done|].
  destruct (indexes d !! i) as [ix|] eqn:Hlook.
  - apply map_lookup_filter_None.
    destruct Hix as [HF|HP].
    + right. intros ix' [Hix' _]%map_lookup_filter_Some. simpl.
      rewrite Hlook in Hix'. injection Hix' as <-. by intros ?.
    + left. apply map_lookup_filter_None. right.
      intros ix' Hix'. rewrite Hlook in Hix'. injection Hix' as <-.
      simpl. by intros ?.
  - by do 2 apply lookup_filter_None_keep.
Qed.

Lemma exec_create_tables d :
  (forall s, s ∈ create_tables_statements -> permitted s = true) ->
  well_formed d ->
  provisionable d ->
  exec_ddls create_tables_statements d = inr (provisioned d).
Proof.
  intros Hperm Hwf Hprov.
  pose proof Hprov as (HixF & HixP & _).
  assert (Hfree := dropped_index_free d).
  unfold create_tables_statements, drop_statements, index_statements.
  cbn [app].
  erewrite exec_ddls_cons.
  2:{ apply exec_drop; [apply Hperm; in_list|done|done]. }
  erewrite exec_ddls_cons.
  2:{ apply exec_drop; [apply Hperm; in_list| |].
      - by apply well_formed_drop_table.
      - simpl. by apply lookup_filter_None_keep. }
  erewrite exec_ddls_cons.
  2:{ apply exec_create_table; [apply Hperm; in_list| |]; simpl.
      - apply lookup_delete_eq.
      - by do 2 apply lookup_filter_None_keep. }
  erewrite exec_ddls_cons.
  2:{ apply exec_create_table; [apply Hperm; in_list| |]; simpl.
      - rewrite lookup_insert_ne by names_differ.
        rewrite lookup_delete_ne by names_differ. apply lookup_delete_eq.
      - by do 2 apply lookup_filter_None_keep. }
  repeat (erewrite exec_ddls_cons;
    [|eapply exec_create_index;
       [apply Hperm; in_list
       |simpl; apply lookup_insert_eq
       |reflexivity
       |simpl; rewrite !lookup_insert_ne, !lookup_delete_ne by names_differ;
        apply Hfree; [done|in_list]
       |simpl; rewrite ?lookup_insert_ne by discriminate;
        apply Hfree; [done|in_list]]]).
  reflexivity.
Qed.

Lemma dropped_index_elsewhere (d : db) i ix :
  filter (fun ix : string * index => i_table ix.2 ≠ argo_floats)
    (filter (fun ix : string * index => i_table ix.2 ≠ argo_profiles)
       (indexes d)) !! i = Some ix ->
  indexes d !! i = Some ix /\
  i_table ix <> argo_floats /\ i_table ix <> argo_profiles.
Proof.
  intros [[Hi HP]%map_lookup_filter_Some HF]%map_lookup_filter_Some.
  done.
Qed.

(** Dropping the two tables of a provisioned database takes the five
    indexes away and nothing else. *)
Lemma drop_provisioned_indexes (base : gmap string index) :
  (forall i, i ∈ index_names -> base !! i = None) ->
  (forall i ix, base !! i = Some ix ->
     i_table ix <> argo_floats /\ i_table ix <> argo_profiles) ->
  filter (fun ix : string * index => i_table ix.2 ≠ argo_floats)
    (filter (fun ix : string * index => i_table ix.2 ≠ argo_profiles)
       (<["idx_profiles_location" := Index argo_profiles ["latitude"; "longitude"]]>
       (<["idx_profiles_lon" := Index argo_profiles ["longitude"]]>
       (<["idx_profiles_lat" := Index argo_profiles ["latitude"]]>
       (<["idx_profiles_timestamp" := Index argo_profiles ["timestamp"]]>
       (<["idx_profiles_float_id" := Index argo_profiles ["float_id"]]>
          base))))))
  = base.
Proof.
  intros Hfree Hbase.
  assert (H1 := Hfree "idx_profiles_float_id" ltac:(in_list)).
  assert (H2 := Hfree "idx_profiles_timestamp" ltac:(in_list)).
  assert (H3 := Hfree "idx_profiles_lat" ltac:(in_list)).
  assert (H4 := Hfree "idx_profiles_lon" ltac:(in_list)).
  assert (H5 := Hfree "idx_profiles_location" ltac:(in_list)).
  apply map_eq; intros k. apply option_eq; intros x.
  rewrite !map_lookup_filter_Some, !lookup_insert_Some. simpl. split.
  - intros [[Hk HP] HF].
    repeat (destruct Hk as [[_ <-]|[_ Hk]]; [done|]). done.
  - intros Hk. destruct (Hbase _ _ Hk) as [HF HP].
    split; [split|]; [|done|done].
    do 5 (right; split; [intros <-; congruence|]). done.
Qed.

Lemma provisioned_idem d :
  provisionable d -> provisioned (provisioned d) = provisioned d.
Proof.
  intros Hprov. unfold provisioned at 1 3. f_equal.
  - cbn [tables provisioned]. do 2 f_equal.
    apply map_eq; intros k.
    destruct (decide (k = argo_floats)) as [->|HF];
      [by rewrite !lookup_delete_eq|].
    rewrite !(lookup_delete_ne _ argo_floats) by done.
    destruct (decide (k = argo_profiles)) as [->|HP];
      [by rewrite !lookup_delete_eq|].
    rewrite !(lookup_delete_ne _ argo_profiles) by done.
    rewrite !lookup_insert_ne by done.
    by rewrite !lookup_delete_ne by done.
  - cbn [indexes provisioned]. do 5 f_equal.
    apply drop_provisioned_indexes.
    + intros i Hi. by apply dropped_index_free.
    + intros i ix Hi. by apply dropped_index_elsewhere in Hi as (_ & ? & ?).
Qed.

Lemma provisioned_well_formed d :
  well_formed d -> provisionable d -> well_formed (provisioned d).
Proof.
  intros [Hix Htb] Hprov. pose proof Hprov as (HixF & HixP & _). split.
  - intros i ix Hi. cbn [indexes provisioned] in Hi. cbn [tables provisioned].
    rewrite !lookup_insert_Some in Hi.
    repeat (destruct Hi as [[_ <-]|[_ Hi]];
            [simpl; rewrite lookup_insert_eq; by eexists|]).
    apply dropped_index_elsewhere in Hi as (Hi & HF & HP).
    rewrite !lookup_insert_ne, !lookup_delete_ne by done. by apply (Hix i).
  - intros n tb Hn. cbn [tables provisioned] in Hn. cbn [indexes provisioned].
    assert (Hcase : (n = argo_profiles \/ n = argo_floats) \/
                    (n <> argo_profiles /\ n <> argo_floats /\
                     tables d !! n = Some tb)).
    { apply lookup_insert_Some in Hn as [[<- _]|[? Hn]]; [by left; left|].
      apply lookup_insert_Some in Hn as [[<- _]|[? Hn]]; [by left; right|].
      right. by rewrite !lookup_delete_ne in Hn by done. }
    destruct Hcase as [[->| ->]|(HP & HF & Hd)].
    + rewrite !lookup_insert_ne by names_differ.
      by do 2 apply lookup_filter_None_keep.
    + rewrite !lookup_insert_ne by names_differ.
      by do 2 apply lookup_filter_None_keep.
    + assert (Hfree : forall i, i ∈ index_names -> n <> i).
      { intros i Hi ->. apply (dropped_index_free d) in Hi as [Ht _]; [|done].
        congruence. }
      rewrite !lookup_insert_ne by (symmetry; apply Hfree; in_list).
      do 2 apply lookup_filter_None_keep. by apply (Htb n tb).
Qed.

Lemma provisioned_provisionable d :
  well_formed d -> provisionable d -> provisionable (provisioned d).
Proof.
  intros Hwf Hprov. pose proof Hprov as (HixF & HixP & _).
  split; [|split].
  - cbn [indexes provisioned]. rewrite !lookup_insert_ne by names_differ.
    by do 2 apply lookup_filter_None_keep.
  - cbn [indexes provisioned]. rewrite !lookup_insert_ne by names_differ.
    by do 2 apply lookup_filter_None_keep.
  - apply Forall_forall. intros i Hi.
    destruct (dropped_index_free d i Hprov Hi) as [Ht Hbase]. split.
    + cbn [tables provisioned]. unfold index_names in Hi.
      repeat (apply elem_of_cons in Hi as [->|Hi];
        [rewrite !lookup_insert_ne, !lookup_delete_ne by names_differ; done|]).
      by apply elem_of_nil in Hi.
    + destruct (indexes (provisioned d) !! i) as [ix|] eqn:Hix; [|done].
      cbn [indexes provisioned] in Hix. rewrite !lookup_insert_Some in Hix.
      repeat (destruct Hix as [[_ <-]|[_ Hix]]; [by right|]).
      congruence.
Qed.

(** *** Provisioning as the scripts run it *)

Lemma ddl_block_print msg : ddl_block [] (print msg).
Proof.
  intros w c d Hpg. exists (emit (Print msg) w), [Print msg]. simpl.
  repeat split; auto. by constructor.
Qed.

Lemma ddl_block_pg_execute ss : ddl_block ss (pg_execute ss).
Proof.
  intros w c d Hpg.
  destruct (exec_ddls ss d) as [err|d'] eqn:Hexec.
  - exists (set_pg (PgConn c d true true) (emit (PgExecute ss) w)),
      [PgExecute ss].
    repeat split; [by constructor| |by eexists].
    unfold pg_execute, pg_statement. simpl. rewrite Hpg. simpl.
    by rewrite Hexec.
  - exists (set_pg (PgConn c d' false true) (emit (PgExecute ss) w)),
      [PgExecute ss].
    repeat split; [by constructor|].
    unfold pg_execute, pg_statement. simpl. rewrite Hpg. simpl.
    by rewrite Hexec.
Qed.

Lemma ddl_block_seq ss1 ss2 m1 m2 :
  ddl_block ss1 m1 -> ddl_block ss2 m2 ->
  ddl_block (ss1 ++ ss2) (m1;; m2).
Proof.
  intros H1 H2 w c d Hpg. rewrite exec_ddls_app.
  destruct (H1 w c d Hpg) as (w1 & evs1 & Hlog1 & Hevs1 & Hsch1 & Hrun1).
  destruct (exec_ddls ss1 d) as [err|d1].
  - destruct Hrun1 as (Hrun1 & d' & Hpg1).
    exists w1, evs1. erewrite bind_raise by exact Hrun1. eauto 10.
  - destruct Hrun1 as (Hrun1 & Hpg1).
    destruct (H2 w1 c d1 Hpg1) as (w2 & evs2 & Hlog2 & Hevs2 & Hsch2 & Hrun2).
    exists w2, (evs1 ++ evs2). erewrite bind_return by exact Hrun1.
    split; [by rewrite Hlog2, Hlog1, <- app_assoc|].
    split; [by apply Forall_app|]. split; [congruence|done].
Qed.

Lemma ddl_block_execute_each ss : ddl_block ss (execute_each ss).
Proof.
  induction ss as [|s ss IH].
  - intros w c d Hpg. exists w, []. simpl. rewrite app_nil_r.
    repeat split; auto.
  - apply (ddl_block_seq [s] ss); [apply ddl_block_pg_execute|apply IH].
Qed.

Lemma ddl_commit_pg_commit : ddl_commit [] pg_commit.
Proof.
  intros w c d Hpg. eexists _, [PgCommit]. simpl.
  erewrite pg_commit_run by exact Hpg.
  repeat split; [reflexivity|by constructor].
Qed.

Lemma ddl_commit_seq ss1 ss2 m1 m2 :
  ddl_block ss1 m1 -> ddl_commit ss2 m2 ->
  ddl_commit (ss1 ++ ss2) (m1;; m2).
Proof.
  intros H1 H2 w c d Hpg. rewrite exec_ddls_app.
  destruct (H1 w c d Hpg) as (w1 & evs1 & Hlog1 & Hevs1 & Hsch1 & Hrun1).
  destruct (exec_ddls ss1 d) as [err|d1].
  - destruct Hrun1 as (Hrun1 & d' & Hpg1).
    exists w1, evs1. erewrite bind_raise by exact Hrun1. eauto 10.
  - destruct Hrun1 as (Hrun1 & Hpg1).
    destruct (H2 w1 c d1 Hpg1) as (w2 & evs2 & Hlog2 & Hevs2 & Hrun2).
    exists w2, (evs1 ++ evs2). erewrite bind_return by exact Hrun1.
    split; [by rewrite Hlog2, Hlog1, <- app_assoc|].
    split; [by apply Forall_app|done].
Qed.

(** The body of [create_tables]. *)
Lemma ddl_commit_create_tables :
  ddl_commit create_tables_statements
    (execute_each drop_statements;;
     pg_execute [CreateTable argo_floats argo_floats_columns];;
     print (Say "Created: argo_floats");;
     pg_execute [CreateTable argo_profiles argo_profiles_columns];;
     print (Say "Created: argo_profiles");;
     print (Say "Creating indexes...");;
     execute_each index_statements;;
     print (Say "Indexes created");;
     pg_commit).
Proof.
  change create_tables_statements with
    (drop_statements
     ++ [CreateTable argo_floats argo_floats_columns] ++ []
     ++ [CreateTable argo_profiles argo_profiles_columns] ++ [] ++ []
     ++ index_statements ++ [] ++ []).
  repeat first
    [ apply ddl_commit_pg_commit
    | apply ddl_commit_seq
    | apply ddl_block_print
    | apply ddl_block_execute_each
    | apply ddl_block_pg_execute ].
Qed.

Lemma Forall_ddl_no_rollback evs :
  Forall is_ddl_event evs -> PgRollback ∉ evs.
Proof.
  intros Hevs Hin. rewrite Forall_forall in Hevs. by apply Hevs in Hin.
Qed.

Lemma create_tables_run w c d :
  pg w = PgConn c d false true ->
  exists w' evs,
    log w' = log w ++ evs /\
    match exec_ddls create_tables_statements d with
    | inr d' =>
        create_tables w = Some (Return tt, w') /\
        pg w' = PgConn d' d' false true /\ PgRollback ∉ evs
    | inl err =>
        create_tables w = Some (Raise (DatabaseError err), w') /\
        pg w' = PgConn c c false true /\ PgRollback ∈ evs
    end.
Proof.
  intros Hpg. unfold create_tables. rewrite bind_print.
  destruct (ddl_commit_create_tables
              (emit (Print (Say "Creating tables...")) w)
              c d Hpg) as (w1 & evs & Hlog & Hevs & Hrun).
  unfold try_except.
  destruct (exec_ddls create_tables_statements d) as [err|d'].
  - destruct Hrun as (Hrun & d' & Hpg1). rewrite Hrun. simpl.
    unfold bind at 1, pg_rollback at 1. simpl. rewrite Hpg1. simpl.
    rewrite bind_print.
    eexists _, ([Print (Say "Creating tables...")] ++ evs
                ++ [PgRollback; Print (SayFailed "Table creation failed"
                                         (DatabaseError err))]).
    split; [|split; [reflexivity|split; [reflexivity|]]].
    + simpl. rewrite Hlog. simpl. by rewrite <- !app_assoc.
    + rewrite !elem_of_app. right. right. by left.
  - destruct Hrun as (Hrun & Hpg1). rewrite Hrun.
    eexists _, ([Print (Say "Creating tables...")] ++ evs).
    split; [|split; [reflexivity|split; [done|]]].
    + simpl. rewrite Hlog. simpl. by rewrite <- !app_assoc.
    + rewrite !elem_of_app, !elem_of_cons, !elem_of_nil.
      intros [[?|?]|?]; try done.
      by apply Forall_ddl_no_rollback in Hevs.
Qed.

Lemma read_schema_file_run w ss :
  schema_file w = Some ss -> read_schema_file w = Some (Return ss, w).
Proof. unfold read_schema_file. by intros ->. Qed.

Lemma create_schema_run w c d ss :
  pg w = PgConn c d false true ->
  schema_file w = Some ss ->
  exists w' evs,
    log w' = log w ++ evs /\ (PgRollback ∉ evs) /\
    match exec_ddls ss d with
    | inr d' =>
        bulk_import_supabase.create_schema w = Some (Return tt, w') /\
        pg w' = PgConn d' d' false true
    | inl err =>
        bulk_import_supabase.create_schema w
        = Some (Raise (DatabaseError err), w') /\
        exists d', pg w' = PgConn c d' true true
    end.
Proof.
  intros Hpg Hsch. unfold bulk_import_supabase.create_schema.
  rewrite !bind_print.
  set (w0 := emit _ (emit _ (emit _ w))).
  erewrite bind_return by (by apply read_schema_file_run).
  destruct (ddl_block_pg_execute ss w0 c d Hpg)
    as (w1 & evs & Hlog & Hevs & _ & Hrun).
  destruct (exec_ddls ss d) as [err|d'].
  - destruct Hrun as (Hrun & d' & Hpg1).
    erewrite bind_raise by exact Hrun.
    exists w1, ([Print (rule 50); Print (Say "STEP 1: Creating tables...");
                 Print (rule 50)] ++ evs).
    split; [|split; [|eauto]].
    + rewrite Hlog. subst w0. simpl. by rewrite <- !app_assoc.
    + rewrite !elem_of_app, !elem_of_cons, !elem_of_nil.
      intros [[?|[?|[?|?]]]|?]; try done.
      by apply Forall_ddl_no_rollback in Hevs.
  - destruct Hrun as (Hrun & Hpg1).
    erewrite bind_return by exact Hrun.
    erewrite bind_return by (by eapply pg_commit_run).
    eexists _, ([Print (rule 50); Print (Say "STEP 1: Creating tables...");
                 Print (rule 50)] ++ evs
                ++ [PgCommit; Print (Say "Tables created successfully!")]).
    split; [|split; [|split; reflexivity]].
    + simpl. rewrite Hlog. subst w0. simpl. by rewrite <- !app_assoc.
    + rewrite !elem_of_app, !elem_of_cons, !elem_of_nil.
      intros [[?|[?|[?|?]]]|[?|[?|[?|?]]]]; try done.
      by apply Forall_ddl_no_rollback in Hevs.
Qed.

(** * The claims about schema provisioning *)

(** What a failing DDL statement leaves behind.  When a statement of
    the provisioning fails, the provisioner raises the database's error
    for that statement and nothing of the partial DDL is committed: the
    destination's database is what it was before the run.
    [create_tables] rolls the transaction back before it re-raises,
    leaving the connection with nothing pending; [create_schema] sends
    no rollback and leaves the connection in the failed transaction. *)
Theorem failed_provisioning w c d err :
  pg w = PgConn c d false true ->
  (exec_ddls create_tables_statements d = inl err ->
   exists w' evs,
     create_tables w = Some (Raise (DatabaseError err), w') /\
     log w' = log w ++ evs /\ PgRollback ∈ evs /\
     pg w' = PgConn c c false true) /\
  (forall ss,
     schema_file w = Some ss ->
     exec_ddls ss d = inl err ->
     exists w' evs d',
       bulk_import_supabase.create_schema w
       = Some (Raise (DatabaseError err), w') /\
       log w' = log w ++ evs /\ (PgRollback ∉ evs) /\
       pg w' = PgConn c d' true true).
Proof.
  intros Hpg. split.
  - intros Hfail.
    destruct (create_tables_run w c d Hpg) as (w' & evs & Hlog & Hrun).
    rewrite Hfail in Hrun. destruct Hrun as (Hrun & Hpg' & Hrb).
    by exists w', evs.
  - intros ss Hsch Hfail.
    destruct (create_schema_run w c d ss Hpg Hsch)
      as (w' & evs & Hlog & Hrb & Hrun).
    rewrite Hfail in Hrun. destruct Hrun as (Hrun & d' & Hpg').
    by exists w', evs, d'.
Qed.

(** C6 (idempotent provisioning).  On a sound destination where nothing
    stands in the way of the statements (the role may run them, and no
    other table's index bears one of the five names), [create_tables]
    run twice in succession succeeds both times and leaves the same
    database after each run: what was there besides the two tables, the
    two tables empty, and on argo_profiles exactly the five indexes. *)
Theorem create_tables_idempotent w c d :
  pg w = PgConn c d false true ->
  (forall s, s ∈ create_tables_statements -> permitted s = true) ->
  well_formed d ->
  provisionable d ->
  exists w1 w2,
    create_tables w = Some (Return tt, w1) /\
    create_tables w1 = Some (Return tt, w2) /\
    pg w1 = PgConn (provisioned d) (provisioned d) false true /\
    pg w2 = pg w1 /\
    tables (provisioned d) !! argo_floats
    = Some (Table argo_floats_columns []) /\
    tables (provisioned d) !! argo_profiles
    = Some (Table argo_profiles_columns []) /\
    (forall i ix,
       indexes (provisioned d) !! i = Some ix /\ i_table ix = argo_profiles
       <-> (i, ix) ∈ profile_indexes).
Proof.
  intros Hpg Hperm Hwf Hprov.
  destruct (create_tables_run w c d Hpg) as (w1 & evs1 & _ & Hrun1).
  rewrite exec_create_tables in Hrun1 by done.
  destruct Hrun1 as (Hrun1 & Hpg1 & _).
  destruct (create_tables_run w1 _ _ Hpg1) as (w2 & evs2 & _ & Hrun2).
  rewrite exec_create_tables in Hrun2;
    [|done|by apply provisioned_well_formed|by apply provisioned_provisionable].
  rewrite provisioned_idem in Hrun2 by done.
  destruct Hrun2 as (Hrun2 & Hpg2 & _).
  exists w1, w2. split; [done|]. split; [done|]. split; [done|].
  split; [congruence|]. split; [|split].
  - cbn [tables provisioned].
    rewrite lookup_insert_ne by names_differ. apply lookup_insert_eq.
  - cbn [tables provisioned]. apply lookup_insert_eq.
  - intros i ix. cbn [indexes provisioned]. unfold profile_indexes.
    rewrite !lookup_insert_Some, !elem_of_cons, elem_of_nil. split.
    + intros [Hi HP].
      repeat (destruct Hi as [[<- <-]|[_ Hi]]; [tauto|]).
      by apply dropped_index_elsewhere in Hi as (_ & _ & ?).
    + intros Hi.
      repeat (destruct Hi as [[= -> ->]|Hi];
              [split; [|done];
               repeat (first [left; split; reflexivity
                             |right; split; [discriminate|]]) |]).
      done.
Qed.

(** * The claim about the streaming load *)


(** * The claim about the order of the phases *)


(** * Further properties of the scripts *)

Lemma elem_of_table_names (d : gmap string table) t :
  t ∈ (map_to_list d).*1 <-> is_Some (d !! t).
Proof.
  split.
  - intros ([k v] & -> & Hin)%list_elem_of_fmap.
    apply elem_of_map_to_list in Hin. by exists v.
  - intros [v Hv]. apply list_elem_of_fmap. exists (t, v).
    split; [done|]. by apply elem_of_map_to_list.
Qed.

(** *** What a computation raises *)

Lemma reo_ret {A} (a : A) : raises_exceptions_only (ret a).
Proof. by intros w e w'. Qed.

Lemma reo_raise {A} e :
  is_Exception e = true -> raises_exceptions_only (raise (A:=A) e).
Proof. by intros He w e' w' [= <- <-]. Qed.

Lemma reo_diverge {A} : raises_exceptions_only (diverge (A:=A)).
Proof. by intros w e w'. Qed.

Lemma reo_bind {A B} (m : M A) (k : A -> M B) :
  raises_exceptions_only m -> (forall a, raises_exceptions_only (k a)) ->
  raises_exceptions_only (bind m k).
Proof.
  intros Hm Hk w e w' Hrun.
  apply bind_inv in Hrun as [(a & w1 & _ & Hrun)|(e' & Hrun & [= <-])].
  - by eapply Hk.
  - by eapply Hm.
Qed.

Lemma reo_try_except {A} (body : M A) handler :
  (forall e, is_Exception e = true -> raises_exceptions_only (handler e)) ->
  raises_exceptions_only body ->
  raises_exceptions_only (try_except body handler).
Proof.
  intros Hh Hb w e w' Hrun.
  apply try_except_inv in Hrun as [[Hrun _]|(e' & w1 & _ & He' & Hrun)].
  - by eapply Hb.
  - by eapply Hh.
Qed.

Lemma reo_print msg : raises_exceptions_only (print msg).
Proof. by intros w e w'. Qed.

Lemma reo_sqlite_query {A} (q : gmap string table -> exn + A * event) :
  (forall d e, q d = inl e -> is_Exception e = true) ->
  raises_exceptions_only (sqlite_query q).
Proof.
  intros Hq w e w'. unfold sqlite_query.
  destruct (sqlite_open w); [|by intros [= <- <-]].
  destruct (q _) as [e'|[a ev]] eqn:Heq; intros [= <- <-]. by eapply Hq.
Qed.

Lemma reo_pg_statement {A} ev (run : db -> db_error + A * db) :
  raises_exceptions_only (pg_statement ev run).
Proof.
  intros w e w'. unfold pg_statement. simpl.
  destruct (pg_open (pg w)); simpl; [|by intros [= <- <-]].
  destruct (in_failed_txn (pg w)); [by intros [= <- <-]|].
  by destruct (run _) as [err|[a d']]; intros [= <- <-].
Qed.

Lemma reo_pg_commit : raises_exceptions_only pg_commit.
Proof.
  intros w e w'. unfold pg_commit. simpl.
  by destruct (pg_open (pg w)); simpl; intros [= <- <-].
Qed.

Lemma reo_pg_rollback : raises_exceptions_only pg_rollback.
Proof.
  intros w e w'. unfold pg_rollback. simpl.
  by destruct (pg_open (pg w)); simpl; intros [= <- <-].
Qed.

Lemma reo_pg_close : raises_exceptions_only pg_close.
Proof. by intros w e w'. Qed.


Ltac reo_step :=
  unfold sqlite_tables, sqlite_count, sqlite_table_info, sqlite_select,
    pg_execute, pg_executemany, pg_copy_expert, pg_count,
    pg_select_limit, pg_count_region, pg_read;
  first
    [ apply reo_bind; [|intros ?]
    | apply reo_ret
    | apply reo_diverge
    | apply reo_print
    | apply reo_pg_statement
    | apply reo_pg_commit
    | apply reo_pg_rollback
    | apply reo_pg_close
    | apply reo_sqlite_query;
      intros ? ?; repeat case_match; intros [= <-]; reflexivity
    | match goal with
      | |- raises_exceptions_only (if ?b then _ else _) => destruct b
      | |- raises_exceptions_only (match ?x with _ => _ end) => destruct x
      end ].

Lemma reo_execute_each ss : raises_exceptions_only (execute_each ss).
Proof. induction ss as [|s ss IH]; simpl; repeat reo_step. exact IH. Qed.

Lemma reo_create_tables : raises_exceptions_only create_tables.
Proof.
  unfold create_tables. reo_step; [reo_step|].
  apply reo_try_except.
  - intros e He. repeat reo_step. by apply reo_raise.
  - repeat first [apply reo_execute_each | reo_step].
Qed.

Lemma reo_migrate_loop fuel t cols B total :
  forall o ri, raises_exceptions_only (migrate_loop fuel t cols B total o ri).
Proof.
  induction fuel as [|fuel IH]; intros o ri; simpl; repeat reo_step.
  apply IH.
Qed.

Lemma reo_migrate_data fuel t B : raises_exceptions_only (migrate_data fuel t B).
Proof.
  unfold migrate_data. repeat first [apply reo_migrate_loop | reo_step].
Qed.

Lemma reo_verify_tables ts :
  forall b, raises_exceptions_only (verify_tables ts b).
Proof.
  induction ts as [|t ts IH]; intros b; simpl; repeat reo_step; apply IH.
Qed.

Lemma reo_verify_migration : raises_exceptions_only verify_migration.
Proof. unfold verify_migration. reo_step; [reo_step|]. apply reo_verify_tables. Qed.


(** *** The set-up of [main] *)

Lemma load_connection_string_inv w r w' :
  load_connection_string w = Some (r, w') ->
  pg w' = pg w /\
  ((exists c, conn_string_file w = Some c /\ c <> "" /\ r = Return c /\
              w' = w) \/
   (conn_string_file w = Some "" /\
    r = Raise (ValueError "Connection string file is empty")) \/
   (conn_string_file w = None /\ r = Raise (SystemExit 1))).
Proof.
  unfold load_connection_string.
  destruct (conn_string_file w) as [c|].
  - destruct (String.eqb c "") eqn:Hc; intros [= <- <-]; (split; [done|]).
    + apply String.eqb_eq in Hc as ->. right. left. by split.
    + apply String.eqb_neq in Hc. left. by exists c.
  - intros [= <- <-]. split; [done|]. right. right. by split.
Qed.

Lemma connect_sqlite_run w :
  exists r w' evs,
    connect_sqlite w = Some (r, w') /\
    log w' = log w ++ evs /\
    sqlite_open w' = true /\ pg w' = pg w /\
    sqlite_db w' = sqlite_db w /\ pg_reachable w' = pg_reachable w /\
    ((r = Return tt /\ has_required_tables (sqlite_db w (sqlite_clock w))) \/
     (r = Raise (SystemExit 1) /\
      ~ has_required_tables (sqlite_db w (sqlite_clock w)) /\
      last evs = Some (Print (Say "Required tables not found")))).
Proof.
  unfold connect_sqlite.
  set (d := sqlite_db w (sqlite_clock w)).
  destruct (decide (has_required_tables d)) as [Hyes|Hno].
  - exists (Return tt). eexists. eexists.
    unfold bind, try_except, print, sqlite_connect, sqlite_tables,
      sqlite_query. simpl. fold d.
    destruct Hyes as [HP HF].
    rewrite (bool_decide_eq_true_2 (argo_profiles ∈ (map_to_list d).*1))
      by by apply elem_of_table_names.
    rewrite (bool_decide_eq_true_2 (argo_floats ∈ (map_to_list d).*1))
      by by apply elem_of_table_names.
    simpl. split; [reflexivity|]. simpl.
    split; [by rewrite <- !app_assoc|].
    repeat (split; [done|]). left. by split.
  - exists (Raise (SystemExit 1)). eexists. eexists.
    unfold bind, try_except, print, sqlite_connect, sqlite_tables,
      sqlite_query. simpl. fold d.
    assert (Hb : negb (bool_decide (argo_profiles ∈ (map_to_list d).*1))
                 || negb (bool_decide (argo_floats ∈ (map_to_list d).*1))
                 = true).
    { apply orb_true_iff.
      destruct (decide (is_Some (d !! argo_profiles))) as [HP|HP].
      - right. apply negb_true_iff, bool_decide_eq_false_2.
        rewrite elem_of_table_names. intros HF. by apply Hno.
      - left. apply negb_true_iff, bool_decide_eq_false_2.
        by rewrite elem_of_table_names. }
    rewrite Hb. simpl. split; [reflexivity|]. simpl.
    split; [by rewrite <- !app_assoc|].
    repeat (split; [done|]). right. split; [done|]. by split.
Qed.

(** X2.  [connect_sqlite] over a source that can be read, the only
    one the model has: its handler for a connection or a query that
    fails is not reached here.  When the source holds both
    argo_profiles and argo_floats at the moment the tables are listed,
    it returns.  When one of them is missing, it prints that the
    required tables were not found and exits with status 1: the exit,
    raised inside the try block, passes the handler, which catches
    Exceptions only.  In both cases the SQLite connection it opened is
    left open and the destination is not touched. *)
Theorem connect_sqlite_checks_tables w :
  (has_required_tables (sqlite_db w (sqlite_clock w)) ->
   exists w' evs,
     connect_sqlite w = Some (Return tt, w') /\
     log w' = log w ++ evs /\
     sqlite_open w' = true /\ pg w' = pg w) /\
  (~ has_required_tables (sqlite_db w (sqlite_clock w)) ->
   exists w' evs,
     connect_sqlite w = Some (Raise (SystemExit 1), w') /\
     log w' = log w ++ evs /\
     last evs = Some (Print (Say "Required tables not found")) /\
     sqlite_open w' = true /\ pg w' = pg w).
Proof.
  destruct (connect_sqlite_run w)
    as (r & w' & evs & Hrun & Hlog & Hopen & Hpg & _ & _ & Hcase).
  split; intros Htabs.
  - destruct Hcase as [[-> _]|[_ [Hno _]]]; [|by destruct Hno].
    by exists w', evs.
  - destruct Hcase as [[_ Hyes]|[-> [_ Hlast]]]; [by destruct Htabs|].
    by exists w', evs.
Qed.

Lemma connect_postgres_run c w :
  exists r w',
    connect_postgres c w = Some (r, w') /\
    same_source w w' /\
    if pg_reachable w then
      r = Return tt /\
      pg w' = PgConn (committed (pg w)) (committed (pg w)) false true /\
      log w' = log w ++ [Print (Say "Connecting to Supabase..."); PgConnect;
                         Print (Say "PostgreSQL connected")]
    else
      r = Raise (SystemExit 1) /\ pg w' = pg w /\
      log w' = log w ++
        [Print (Say "Connecting to Supabase...");
         Print (SayFailed "PostgreSQL connection failed"
                  (DatabaseError ConnectionRefused))].
Proof.
  unfold connect_postgres, bind, try_except, print, pg_connect. simpl.
  destruct (pg_reachable w); simpl; eexists _, _;
    (split; [reflexivity|]); simpl; rewrite <- ?app_assoc; done.
Qed.


(** What a run of [main] that has ended tells about its set-up. *)
Lemma main_outcome_inv fuel w r w' :
  main fuel w = Some (r, w') ->
  match r with
  | Return _ =>
      setup_ok w /\ sqlite_open w' = false /\ pg_open (pg w') = false
  | Raise e =>
      ~ setup_ok w /\ pg w' = pg w /\
      (e = SystemExit 1 \/
       (e = ValueError "Connection string file is empty" /\
        conn_string_file w = Some ""))
  end.
Proof.
  unfold main. rewrite !bind_print. intros Hrun.
  apply bind_inv in Hrun as [(c & w1 & Hload & Hrun)|(e & Hload & ->)].
  2:{ apply load_connection_string_inv in Hload
        as [Hpg [(c & _ & _ & [=] & _)|[[Hc [= ->]]|[Hc [= ->]]]]];
        simpl in Hpg, Hc.
      - split; [|split; [done|by right]].
        intros [(c & Hc' & Hne) _]. congruence.
      - split; [|split; [done|by left]].
        intros [(c & Hc' & Hne) _]. congruence. }
  apply load_connection_string_inv in Hload
    as [_ [(c' & Hc & Hne & [= <-] & ->)|[[_ [=]]|[_ [=]]]]].
  simpl in Hc. rewrite bind_print in Hrun.
  match type of Hrun with bind connect_sqlite _ ?w0 = _ =>
    destruct (connect_sqlite_run w0)
      as (r1 & w1 & evs1 & Hsq & _ & _ & Hpg1 & _ & Hreach1 & Hcase)
  end.
  simpl in Hpg1, Hreach1, Hcase.
  destruct Hcase as [[-> Htabs]|[-> [Htabs _]]].
  2:{ erewrite bind_raise in Hrun by exact Hsq. injection Hrun as <- <-.
      split; [|split; [done|by left]].
      by intros (_ & Htabs' & _). }
  erewrite bind_return in Hrun by exact Hsq.
  destruct (connect_postgres_run c w1) as (r2 & w2 & Hpc & _ & Hcase).
  rewrite Hreach1 in Hcase.
  destruct (pg_reachable w) eqn:Hreach.
  2:{ destruct Hcase as (-> & Hpg2 & _).
      erewrite bind_raise in Hrun by exact Hpc. injection Hrun as <- <-.
      split; [|split; [congruence|by left]].
      intros (_ & _ & Hr). congruence. }
  destruct Hcase as (-> & _ & _).
  erewrite bind_return in Hrun by exact Hpc.
  apply try_finally_inv in Hrun as (rb & wb & rc & Hbody & Hclean & Hr).
  injection Hclean as <- <-. subst r.
  assert (rb = Return tt) as ->.
  { apply try_except_inv in Hbody as [[Hbody Hne']|(e & w3 & _ & _ & Hh)].
    - destruct rb as [[]|e]; [done|].
      assert (is_Exception e = true); [|by rewrite (Hne' e eq_refl) in *].
      revert Hbody. generalize w2 e wb.
      change (raises_exceptions_only
        (create_tables;;
         migrate_data fuel argo_floats 2000;;
         migrate_data fuel argo_profiles 5000;;
         ok <- verify_migration;;
         if ok then
           print (rule 60);;
           print (Say "MIGRATION SUCCESSFUL!");;
           print (rule 60);;
           print (Say "Add to your .env:");;
           print (Say "USE_SUPABASE=true");;
           print (EnvUrl c)
         else print (Say "Migration completed with errors"))).
      repeat first [ apply reo_create_tables | apply reo_migrate_data
                   | apply reo_verify_migration | reo_step ].
    - rewrite !bind_print in Hh. by injection Hh as <- _. }
  split; [|by split].
  split; [by exists c|]. by split.
Qed.

(** X1.  Every run of [main] ends, given fuel enough for its paging
    loops, and what it ends in depends on its set-up alone.  It returns
    normally exactly when the connection file is there and holds more
    than white space, the source had both tables and the destination
    answered, whatever then happened in the four phases, and then both
    connections are closed.  Otherwise it ends before the destination
    is touched: with exit status 1, or with the ValueError of a
    connection file that holds nothing but white space. *)
Theorem main_exit_status w :
  exists fuel0 r w',
    (forall fuel, (fuel0 <= fuel)%nat -> main fuel w = Some (r, w')) /\
    match r with
    | Return _ =>
        setup_ok w /\ sqlite_open w' = false /\ pg_open (pg w') = false
    | Raise e =>
        ~ setup_ok w /\ pg w' = pg w /\
        (e = SystemExit 1 \/
         (e = ValueError "Connection string file is empty" /\
          conn_string_file w = Some ""))
    end.
Proof.
  destruct (settles_main w) as (fuel0 & [r w'] & Hrun).
  exists fuel0, r, w'. split; [exact Hrun|].
  apply (main_outcome_inv fuel0). apply Hrun. reflexivity.
Qed.


Lemma load_connection_string_run w c :
  conn_string_file w = Some c -> c <> "" ->
  load_connection_string w = Some (Return c, w).
Proof.
  intros Hc Hne. unfold load_connection_string. rewrite Hc.
  apply String.eqb_neq in Hne. by rewrite Hne.
Qed.

(** Past a set-up that goes through, [main] is its try block, started
    with both connections open and the destination's transaction
    fresh. *)
Lemma main_after_setup fuel w c :
  conn_string_file w = Some c -> c <> "" ->
  has_required_tables (sqlite_db w (sqlite_clock w)) ->
  pg_reachable w = true ->
  exists w2 evs0,
    main fuel w
    = try_finally
        (try_except
           (create_tables;;
            migrate_data fuel argo_floats 2000;;
            migrate_data fuel argo_profiles 5000;;
            ok <- verify_migration;;
            if ok then
              print (rule 60);;
              print (Say "MIGRATION SUCCESSFUL!");;
              print (rule 60);;
              print (Say "Add to your .env:");;
              print (Say "USE_SUPABASE=true");;
              print (EnvUrl c)
            else print (Say "Migration completed with errors"))
           (fun e =>
              print (SayFailed "Migration failed" e);;
              print (Say "traceback")))
        (sqlite_close;; pg_close;; print (Say "Connections closed")) w2 /\
    log w2 = log w ++ evs0 /\ Forall untagged evs0 /\
    pg w2 = PgConn (committed (pg w)) (committed (pg w)) false true /\
    sqlite_open w2 = true /\ sqlite_db w2 = sqlite_db w.
Proof.
  intros Hc Hne Htabs Hreach. unfold main. rewrite !bind_print.
  erewrite bind_return by (by apply load_connection_string_run).
  rewrite bind_print.
  match goal with |- context [bind connect_sqlite _ ?w0] =>
    destruct (connect_sqlite_run w0)
      as (r1 & w1 & evs1 & Hsq & Hlog1 & Hopen1 & Hpg1 & Hdb1 & Hreach1
          & Hcase)
  end.
  simpl in Hlog1, Hpg1, Hdb1, Hreach1, Hcase.
  destruct Hcase as [[-> _]|[_ [Hno _]]]; [|done].
  erewrite bind_return by exact Hsq.
  destruct (connect_postgres_run c w1)
    as (r2 & w2 & Hpc & (Hdb2 & Hopen2 & _) & Hcase).
  rewrite Hreach1, Hreach in Hcase. destruct Hcase as (-> & Hpg2 & Hlog2).
  erewrite bind_return by exact Hpc.
  apply logs_connect_sqlite in Hsq as (evs1' & Hlog1' & Huntagged).
  simpl in Hlog1'.
  exists w2. eexists. split; [reflexivity|].
  split; [rewrite Hlog2, Hlog1'; by rewrite <- !app_assoc|].
  split.
  { repeat (apply Forall_cons; split; [by split|]).
    apply Forall_app. split; [done|].
    by repeat (apply Forall_cons; split; [by split|]). }
  split; [by rewrite Hpg2, Hpg1|].
  split; [congruence|congruence].
Qed.


(** *** What leaves the source alone *)

Global Instance same_source_preorder : PreOrder same_source.
Proof.
  split; [by intros w|].
  intros w1 w2 w3 (H1 & H2 & H3) (H4 & H5 & H6). unfold same_source.
  repeat split; congruence.
Qed.

Lemma same_source_print msg : respects same_source (print msg).
Proof. by intros w r w' [= <- <-]. Qed.

Lemma same_source_pg_statement {A} ev (run : db -> db_error + A * db) :
  respects same_source (pg_statement ev run).
Proof.
  intros w r w'. unfold pg_statement. simpl.
  destruct (pg_open (pg w)); simpl; [|by intros [= <- <-]].
  destruct (in_failed_txn (pg w)); [by intros [= <- <-]|].
  by destruct (run _) as [err|[a d']]; intros [= <- <-].
Qed.

Lemma same_source_pg_commit : respects same_source pg_commit.
Proof.
  intros w r w'. unfold pg_commit. simpl.
  by destruct (pg_open (pg w)); simpl; intros [= <- <-].
Qed.

Lemma same_source_pg_rollback : respects same_source pg_rollback.
Proof.
  intros w r w'. unfold pg_rollback. simpl.
  by destruct (pg_open (pg w)); simpl; intros [= <- <-].
Qed.

Ltac ss_step :=
  unfold pg_execute, pg_executemany, pg_copy_expert, pg_count,
    pg_select_limit, pg_count_region, pg_read;
  first
    [ apply (respects_bind same_source); [|intros ?]
    | apply (respects_ret same_source)
    | apply (respects_raise same_source)
    | apply (respects_try_except same_source); [|intros ?]
    | apply same_source_print
    | apply same_source_pg_statement
    | apply same_source_pg_commit
    | apply same_source_pg_rollback ].

Lemma same_source_execute_each ss : respects same_source (execute_each ss).
Proof. induction ss as [|s ss IH]; simpl; repeat ss_step. exact IH. Qed.

Lemma same_source_create_tables : respects same_source create_tables.
Proof.
  unfold create_tables.
  repeat first [apply same_source_execute_each | ss_step].
Qed.

Lemma no_load_no_batches evs :
  Forall (fun e => forall t, phase_of e <> Some (Load t)) evs ->
  fetched_batches evs = [] /\ inserted_batches evs = [].
Proof.
  induction 1 as [|e evs He _ [IH1 IH2]]; [done|].
  split.
  - destruct e; try done. by destruct (He t).
  - destruct e; try done. by destruct (He t).
Qed.

Lemma untagged_no_load e t : untagged e -> phase_of e <> Some (Load t).
Proof. intros [_ ->]. done. Qed.

Lemma provision_no_load e t :
  in_phase Provision e -> phase_of e <> Some (Load t).
Proof. intros [_ [->| ->]]; done. Qed.

(** X3.  A provisioning that fails ends the run before any row is read
    or written: [create_tables] rolls back, [main] prints the failure,
    nothing is committed, and [main] returns as after a success. *)
Theorem main_provisioning_failure fuel w err :
  setup_ok w ->
  exec_ddls create_tables_statements (committed (pg w)) = inl err ->
  exists w' evs,
    main fuel w = Some (Return tt, w') /\
    log w' = log w ++ evs /\
    committed (pg w') = committed (pg w) /\
    Print (SayFailed "Migration failed" (DatabaseError err)) ∈ evs /\
    PgRollback ∈ evs /\
    fetched_batches evs = [] /\ inserted_batches evs = [].
Proof.
  intros ((c & Hc & Hne) & Htabs & Hreach) Hddl.
  destruct (main_after_setup fuel w c Hc Hne Htabs Hreach)
    as (w2 & evs0 & -> & Hlog2 & Hevs0 & Hpg2 & _ & _).
  destruct (create_tables_run w2 _ _ Hpg2) as (w3 & evs3 & Hlog3 & Hct).
  rewrite Hddl in Hct. destruct Hct as (Hct & Hpg3 & Hrb).
  pose proof (create_tables_events _ _ _ Hct) as (evs3' & Hlog3' & Hevs3).
  assert (evs3 = Print (Say "Creating tables...") :: evs3') as ->.
  { rewrite Hlog3 in Hlog3'. by apply app_inv_head in Hlog3'. }
  unfold try_finally, try_except.
  erewrite bind_raise by exact Hct. simpl.
  eexists _, _. split; [reflexivity|]. simpl.
  split; [rewrite Hlog3, Hlog2; rewrite <- !app_assoc; reflexivity|].
  split; [by rewrite Hpg3|].
  split.
  { rewrite !elem_of_app, !list_elem_of_singleton. tauto. }
  split; [rewrite !elem_of_app; tauto|].
  apply no_load_no_batches.
  apply Forall_app. split.
  { eapply Forall_impl; [exact Hevs0|].
    intros e He t. by apply untagged_no_load. }
  apply Forall_app. split.
  - apply Forall_cons. split; [done|].
    eapply Forall_impl; [exact Hevs3|].
    intros e He t. by apply provision_no_load.
  - by repeat (apply Forall_cons; split; [done|]).
Qed.


(** *** A whole run *)

Lemma migrate_data_run t B w tb d dtb fuel :
  1 <= B ->
  source_unchanged w t tb ->
  sqlite_open w = true ->
  pg w = PgConn d d false true ->
  tables d !! t = Some dtb ->
  (exists res, insert_rows t (t_cols tb) (t_rows dtb) (t_rows tb) = inr res) ->
  (length (t_rows tb) < fuel)%nat ->
  exists w' evs,
    migrate_data fuel t B w
    = Some (Return (Z.of_nat (length (t_rows tb))), w') /\
    log w' = log w ++ evs /\
    pg w' = (let d' := append_rows t (t_rows tb) d in
             PgConn d' d' false true) /\
    sqlite_db w' = sqlite_db w /\ sqlite_open w' = true.
Proof.
  intros HB Hsrc Hopen Hpg Hdt Hacc Hfuel.
  unfold migrate_data. rewrite bind_print.
  erewrite bind_return by (by apply sqlite_count_run; [|apply Hsrc]).
  rewrite bind_print.
  erewrite bind_return by (by apply sqlite_table_info_run; [|apply Hsrc]).
  edestruct (migrate_loop_unchanged t tb B fuel 0 0) as
    (w' & evs & Hrun & Hlog & _ & _ & _ & _ & Hpg' & Hdb' & Hopen');
    [done | done | | | | exact Hdt | exact Hacc | lia | ].
  4:{ erewrite bind_return by exact Hrun. rewrite bind_print.
      change (Z.to_nat 0) with O in *. rewrite drop_0, Z.add_0_l in *.
      eexists _, _. split; [reflexivity|]. simpl.
      split; [rewrite Hlog; simpl; rewrite <- !app_assoc; reflexivity|].
      split; [exact Hpg'|]. by split. }
  - intros k. apply Hsrc.
  - done.
  - done.
Qed.


Lemma tables_append_rows_ne t t' b d :
  t <> t' -> tables (append_rows t b d) !! t' = tables d !! t'.
Proof.
  intros Hne. unfold append_rows, set_rows. simpl.
  by rewrite lookup_alter_ne.
Qed.

Lemma provisioned_floats d :
  tables (provisioned d) !! argo_floats = Some (Table argo_floats_columns []).
Proof.
  unfold provisioned. simpl.
  rewrite lookup_insert_ne by done. by rewrite lookup_insert_eq.
Qed.

Lemma provisioned_profiles d :
  tables (provisioned d) !! argo_profiles
  = Some (Table argo_profiles_columns []).
Proof. unfold provisioned. simpl. by rewrite lookup_insert_eq. Qed.

Lemma verify_migration_match w c d sP sF dP dF :
  sqlite_open w = true ->
  sqlite_db w (sqlite_clock w) !! argo_profiles = Some sP ->
  sqlite_db w (S (sqlite_clock w)) !! argo_floats = Some sF ->
  pg w = PgConn c d false true ->
  tables d !! argo_profiles = Some dP ->
  tables d !! argo_floats = Some dF ->
  row_count sP = row_count dP -> row_count sF = row_count dF ->
  exists w',
    verify_migration w = Some (Return true, w') /\
    log w' = log w ++
      [Print (Say "Verifying migration...");
       SqliteCount argo_profiles (row_count sP); PgCount argo_profiles;
       Print (CountsMatch argo_profiles (row_count sP));
       SqliteCount argo_floats (row_count sF); PgCount argo_floats;
       Print (CountsMatch argo_floats (row_count sF))] /\
    pg w' = pg w /\ sqlite_open w' = true.
Proof.
  intros Hopen HsP HsF Hpg HdP HdF HeqP HeqF.
  unfold verify_migration. rewrite bind_print. simpl verify_tables.
  erewrite bind_return by (by apply sqlite_count_run).
  erewrite bind_return by (by eapply pg_read_run).
  fold (row_count sP) (row_count dP).
  rewrite <- HeqP, Z.eqb_refl. rewrite bind_print. simpl verify_tables.
  erewrite bind_return by (by apply sqlite_count_run).
  erewrite bind_return by (by eapply pg_read_run).
  fold (row_count sF) (row_count dF).
  rewrite <- HeqF, Z.eqb_refl. rewrite bind_print.
  eexists. split; [reflexivity|]. simpl. rewrite <- !app_assoc.
  by rewrite Hpg.
Qed.

(** X4.  A whole migration.  With a connection string on file, a source
    that does not change during the run, a destination that answers,
    permits the data definition, has nothing in the way of it and takes
    every source row, [main] returns; the committed argo_floats and
    argo_profiles hold exactly the source's rows, in order; verification
    printed a match for both; and the success line was printed. *)
Theorem migration_end_to_end fuel w c src sF sP :
  conn_string_file w = Some c -> c <> "" ->
  (forall k, sqlite_db w k = src) ->
  src !! argo_floats = Some sF -> src !! argo_profiles = Some sP ->
  pg_reachable w = true ->
  (forall s, s ∈ create_tables_statements -> permitted s = true) ->
  well_formed (committed (pg w)) -> provisionable (committed (pg w)) ->
  (exists res,
     insert_rows argo_floats (t_cols sF) [] (t_rows sF) = inr res) ->
  (exists res,
     insert_rows argo_profiles (t_cols sP) [] (t_rows sP) = inr res) ->
  (length (t_rows sF) < fuel)%nat -> (length (t_rows sP) < fuel)%nat ->
  exists w' evs,
    main fuel w = Some (Return tt, w') /\
    log w' = log w ++ evs /\
    rows_of (committed (pg w')) argo_floats = t_rows sF /\
    rows_of (committed (pg w')) argo_profiles = t_rows sP /\
    Print (CountsMatch argo_profiles (row_count sP)) ∈ evs /\
    Print (CountsMatch argo_floats (row_count sF)) ∈ evs /\
    Print (Say "MIGRATION SUCCESSFUL!") ∈ evs.
Proof.
  intros Hc Hne Hsrc HsF HsP Hreach Hperm Hwf Hprov HaccF HaccP HfF HfP.
  assert (Htabs : has_required_tables (sqlite_db w (sqlite_clock w))).
  { rewrite Hsrc. by split; eexists. }
  destruct (main_after_setup fuel w c Hc Hne Htabs Hreach)
    as (w2 & evs0 & -> & Hlog2 & _ & Hpg2 & Hopen2 & Hdb2).
  set (d := committed (pg w)) in *.
  (* provisioning *)
  destruct (create_tables_run w2 _ _ Hpg2) as (w3 & evs3 & Hlog3 & Hct).
  rewrite (exec_create_tables d Hperm Hwf Hprov) in Hct.
  destruct Hct as (Hct & Hpg3 & _).
  pose proof (same_source_create_tables _ _ _ Hct) as (Hdb3 & Hopen3 & _).
  (* argo_floats *)
  destruct (migrate_data_run argo_floats 2000 w3 sF (provisioned d)
              (Table argo_floats_columns []) fuel)
    as (w4 & evs4 & HmF & Hlog4 & Hpg4 & Hdb4 & Hopen4);
    [lia | | congruence | done | apply provisioned_floats | done | done |].
  { intros k. by rewrite Hdb3, Hdb2, Hsrc. }
  simpl in Hpg4.
  set (d4 := append_rows argo_floats (t_rows sF) (provisioned d)) in *.
  assert (Ht4P : tables d4 !! argo_profiles
                 = Some (Table argo_profiles_columns [])).
  { unfold d4. rewrite tables_append_rows_ne by done.
    apply provisioned_profiles. }
  assert (Ht4F : tables d4 !! argo_floats
                 = Some (Table argo_floats_columns ([] ++ t_rows sF))).
  { unfold d4. erewrite tables_append_rows by apply provisioned_floats.
    done. }
  (* argo_profiles *)
  destruct (migrate_data_run argo_profiles 5000 w4 sP d4
              (Table argo_profiles_columns []) fuel)
    as (w5 & evs5 & HmP & Hlog5 & Hpg5 & Hdb5 & Hopen5);
    [lia | | done | done | done | done | done |].
  { intros k. by rewrite Hdb4, Hdb3, Hdb2, Hsrc. }
  simpl in Hpg5.
  set (d5 := append_rows argo_profiles (t_rows sP) d4) in *.
  assert (Ht5P : tables d5 !! argo_profiles
                 = Some (Table argo_profiles_columns ([] ++ t_rows sP))).
  { unfold d5. by erewrite tables_append_rows by exact Ht4P. }
  assert (Ht5F : tables d5 !! argo_floats
                 = Some (Table argo_floats_columns ([] ++ t_rows sF))).
  { unfold d5. by rewrite tables_append_rows_ne. }
  assert (Hsrc5 : forall k, sqlite_db w5 k = src).
  { intros k. by rewrite Hdb5, Hdb4, Hdb3, Hdb2, Hsrc. }
  unfold try_finally, try_except.
  erewrite bind_return by exact Hct.
  erewrite bind_return by exact HmF.
  erewrite bind_return by exact HmP.
  (* verification *)
  destruct (verify_migration_match w5 d5 d5 sP sF
              (Table argo_profiles_columns ([] ++ t_rows sP))
              (Table argo_floats_columns ([] ++ t_rows sF)))
    as (w6 & Hver & Hlog6 & Hpg6 & Hopen6);
    [done | by rewrite Hsrc5 | by rewrite Hsrc5 | done | done | done
    | done | done |].
  erewrite bind_return by exact Hver. cbv beta iota.
  rewrite !bind_print. simpl.
  eexists _, _. split; [reflexivity|]. simpl.
  split.
  { rewrite Hlog6, Hlog5, Hlog4, Hlog3, Hlog2. rewrite <- !app_assoc.
    reflexivity. }
  rewrite Hpg6, Hpg5. simpl.
  split; [unfold rows_of; by rewrite Ht5F|].
  split; [unfold rows_of; by rewrite Ht5P|].
  rewrite !elem_of_app, !elem_of_cons. tauto.
Qed.


(** *** The paging loop at its bounds *)

Lemma select_page_length rows B o :
  0 <= B -> Z.of_nat (length (select_page rows B o)) <= B.
Proof.
  intros HB. unfold select_page.
  destruct (B <? 0) eqn:Hneg; [apply Z.ltb_lt in Hneg; lia|].
  rewrite length_take. lia.
Qed.

Lemma migrate_loop_bounds t cols B total fuel :
  1 <= B ->
  forall o ri w r w',
    migrate_loop fuel t cols B total o ri w = Some (r, w') ->
    exists evs,
      log w' = log w ++ evs /\
      (page_offsets evs = [] \/
       o + (Z.of_nat (length (page_offsets evs)) - 1) * B < total) /\
      Forall (fun b => Z.of_nat (length b) <= B) (fetched_batches evs) /\
      forall n, r = Return n ->
        ri <= n <= ri + Z.of_nat (length (page_offsets evs)) * B.
Proof.
  intros HB.
  induction fuel as [|fuel IH]; intros o ri w r w' Hrun; [done|].
  simpl in Hrun. destruct (o <? total) eqn:Hlt.
  2:{ injection Hrun as <- <-. exists []. rewrite app_nil_r.
      split; [done|]. split; [by left|]. split; [done|].
      intros n [= <-]. simpl. lia. }
  apply Z.ltb_lt in Hlt.
  apply bind_inv in Hrun as [(batch & w1 & Hsel & Hrun)|(e & Hsel & ->)].
  2:{ apply sqlite_select_inv in Hsel
        as [(e' & _ & Hlog & Hpg)|(tb & _ & _ & _ & [=] & _)].
      exists []. rewrite app_nil_r.
      split; [done|]. split; [by left|]. by split. }
  apply sqlite_select_inv in Hsel
    as [(e' & [=] & _)|(tb & _ & _ & _ & [= ->] & ->)].
  pose proof (select_page_length (t_rows tb) B o ltac:(lia)) as Hlen.
  set (page := select_page (t_rows tb) B o) in *. clearbody page.
  destruct page as [|r0 page'].
  { injection Hrun as <- <-. exists [SqliteSelect t B o []]. simpl.
    split; [done|]. split; [right; lia|].
    split; [by repeat constructor|]. intros n [= <-]. lia. }
  assert (Hstop : forall rest,
    page_offsets rest = [] -> fetched_batches rest = [] ->
    (page_offsets (SqliteSelect t B o (r0 :: page') :: rest) = [] \/
     o + (Z.of_nat (length
            (page_offsets (SqliteSelect t B o (r0 :: page') :: rest))) - 1)
         * B < total) /\
    Forall (fun b => Z.of_nat (length b) <= B)
      (fetched_batches (SqliteSelect t B o (r0 :: page') :: rest))).
  { intros rest Hp Hf. simpl. rewrite Hp, Hf. simpl.
    split; [right; lia|]. by repeat constructor. }
  apply bind_inv in Hrun as [([] & w2 & Hins & Hrun)|(e & Hins & ->)].
  2:{ apply pg_executemany_inv in Hins as (Hlog & _).
      exists [SqliteSelect t B o (r0 :: page');
              PgExecuteMany t cols (r0 :: page')].
      rewrite Hlog. simpl. rewrite <- app_assoc.
      split; [done|].
      destruct (Hstop [PgExecuteMany t cols (r0 :: page')]) as [? ?];
        [done|done|]. by split; [|split]. }
  apply pg_executemany_inv in Hins as (Hlog2 & _).
  apply bind_inv in Hrun as [([] & w3 & Hcommit & Hrun)|(e & Hcommit & ->)].
  2:{ apply pg_commit_inv in Hcommit as (Hlog3 & _).
      exists [SqliteSelect t B o (r0 :: page');
              PgExecuteMany t cols (r0 :: page'); PgCommit].
      rewrite Hlog3, Hlog2. simpl. rewrite <- !app_assoc.
      split; [done|].
      destruct (Hstop [PgExecuteMany t cols (r0 :: page'); PgCommit])
        as [? ?]; [done|done|]. by split; [|split]. }
  apply pg_commit_inv in Hcommit as (Hlog3 & _).
  apply bind_inv in Hrun as [([] & w4 & Hprint & Hrun)|(e & [=] & _)].
  injection Hprint as <-.
  apply IH in Hrun as (evs & Hlog & Hpages & Hsizes & Hn).
  simpl in Hlog.
  exists ([SqliteSelect t B o (r0 :: page'); PgExecuteMany t cols (r0 :: page');
           PgCommit;
           Print (Progress (ri + Z.of_nat (length (r0 :: page'))) total)]
          ++ evs).
  split; [rewrite Hlog, Hlog3, Hlog2; simpl; by rewrite <- !app_assoc|].
  rewrite page_offsets_app, fetched_batches_app. simpl.
  split; [|split].
  - right. destruct Hpages as [-> | Hpages]; simpl; lia.
  - constructor; [exact Hlen|done].
  - intros n Hr. specialize (Hn n Hr). simpl in Hlen, Hn. lia.
Qed.

(** X6.  Bounds of the paging loop, whatever the source does meanwhile.
    With a batch size [B >= 1] and a source table of [n] rows when it
    was counted, [migrate_data] asks for fewer than [n / B + 1] pages,
    no page holds more than [B] rows, and the count it returns is
    below [n + B]. *)
Theorem migrate_data_bounds fuel t B w tb r w' :
  1 <= B ->
  sqlite_open w = true ->
  sqlite_db w (sqlite_clock w) !! t = Some tb ->
  migrate_data fuel t B w = Some (r, w') ->
  exists evs,
    log w' = log w ++ evs /\
    Z.of_nat (length (page_offsets evs)) * B < row_count tb + B /\
    Forall (fun b => Z.of_nat (length b) <= B) (fetched_batches evs) /\
    forall n, r = Return n -> 0 <= n < row_count tb + B.
Proof.
  intros HB Hopen Htb. unfold migrate_data. rewrite bind_print.
  erewrite bind_return by (by apply sqlite_count_run).
  rewrite bind_print. fold (row_count tb). intros Hrun.
  apply bind_inv in Hrun as [(cols & w1 & Hinfo & Hrun)|(e & Hinfo & ->)].
  2:{ apply sqlite_table_info_inv in Hinfo as (_ & [(e' & _ & Hlog)|(c & [=] & _)]).
      simpl in Hlog. eexists. split; [rewrite Hlog; by rewrite <- !app_assoc|].
      simpl. unfold row_count. split; [lia|]. by split. }
  apply sqlite_table_info_inv in Hinfo as (_ & [(e' & [=] & _)|(c & [= <-] & Hlog1)]).
  simpl in Hlog1.
  apply bind_inv in Hrun as [(n & w2 & Hloop & Hrun)|(e & Hloop & ->)].
  - apply (migrate_loop_bounds _ _ _ _ _ HB) in Hloop
      as (evs & Hlog2 & Hpages & Hsizes & Hn).
    rewrite bind_print in Hrun. injection Hrun as <- <-.
    eexists. simpl. rewrite Hlog2, Hlog1.
    split; [by rewrite <- !app_assoc|].
    rewrite !page_offsets_app, !fetched_batches_app. simpl.
    rewrite !app_nil_r.
    assert (Z.of_nat (length (page_offsets evs)) * B < row_count tb + B).
    { unfold row_count in *.
      destruct Hpages as [-> | Hpages]; simpl; lia. }
    split; [done|]. split; [done|]. intros m [= <-].
    specialize (Hn n eq_refl). lia.
  - apply (migrate_loop_bounds _ _ _ _ _ HB) in Hloop
      as (evs & Hlog2 & Hpages & Hsizes & Hn).
    eexists. rewrite Hlog2, Hlog1.
    split; [by rewrite <- !app_assoc|].
    rewrite !page_offsets_app, !fetched_batches_app. simpl.
    assert (Z.of_nat (length (page_offsets evs)) * B < row_count tb + B).
    { unfold row_count in *.
      destruct Hpages as [-> | Hpages]; simpl; lia. }
    by split; [|split].
Qed.



Lemma migrate_loop_negative_batch t tb B total fuel :
  B < 0 -> 0 < total -> t_rows tb <> [] ->
  forall o ri w r w',
    o <= 0 ->
    source_unchanged w t tb ->
    sqlite_open w = true ->
    migrate_loop fuel t (t_cols tb) B total o ri w = Some (r, w') ->
    exists e, r = Raise e.
Proof.
  intros HB Htotal Hrows.
  induction fuel as [|fuel IH]; intros o ri w r w' Ho Hsrc Hopen Hrun;
    [done|].
  simpl in Hrun.
  destruct (o <? total) eqn:Hlt; [|apply Z.ltb_ge in Hlt; lia].
  erewrite bind_return in Hrun by (by apply sqlite_select_run; [|apply Hsrc]).
  assert (Hpage : select_page (t_rows tb) B o = t_rows tb).
  { unfold select_page. apply Z.ltb_lt in HB. rewrite HB.
    replace (Z.to_nat o) with O by lia. apply drop_0. }
  rewrite Hpage in Hrun. destruct (t_rows tb) as [|r0 rows] eqn:Hr; [done|].
  apply bind_inv in Hrun as [([] & w2 & Hins & Hrun)|(e & _ & ->)];
    [|by eexists].
  apply pg_executemany_inv in Hins as (_ & Hdb2 & _ & Hopen2 & _).
  apply bind_inv in Hrun as [([] & w3 & Hcommit & Hrun)|(e & _ & ->)];
    [|by eexists].
  apply pg_commit_inv in Hcommit as (_ & Hdb3 & _ & Hopen3 & _).
  rewrite bind_print in Hrun.
  apply IH in Hrun; [done|lia| |].
  - intros k. simpl. rewrite Hdb3, Hdb2. simpl. apply Hsrc.
  - simpl. rewrite Hopen3, Hopen2. done.
Qed.

(** X8.  A negative batch size.  SQLite reads a negative LIMIT as no
    limit and a negative OFFSET as zero, and the loop's offset only goes
    down: over a source table that has rows, [migrate_data] never
    returns.  A run that ends, ends in an exception. *)
Theorem migrate_data_negative_batch fuel t B w tb r w' :
  B < 0 ->
  source_unchanged w t tb -> t_rows tb <> [] ->
  sqlite_open w = true ->
  migrate_data fuel t B w = Some (r, w') ->
  exists e, r = Raise e.
Proof.
  intros HB Hsrc Hrows Hopen. unfold migrate_data. rewrite bind_print.
  erewrite bind_return by (by apply sqlite_count_run; [|apply Hsrc]).
  rewrite bind_print.
  erewrite bind_return by (by apply sqlite_table_info_run; [|apply Hsrc]).
  intros Hrun.
  apply bind_inv in Hrun as [(n & w2 & Hloop & _)|(e & _ & ->)];
    [|by eexists].
  eapply (migrate_loop_negative_batch t tb B) in Hloop
    as [e [=]]; try done.
  destruct (t_rows tb); [done|simpl; lia].
Qed.


(** *** What provisioning leaves alone *)

Lemma provisioned_other_table d t :
  t <> argo_floats -> t <> argo_profiles ->
  tables (provisioned d) !! t = tables d !! t.
Proof.
  intros HF HP. unfold provisioned. simpl.
  rewrite !lookup_insert_ne by done. by rewrite !lookup_delete_ne.
Qed.

Lemma provisioned_index d i ix :
  indexes (provisioned d) !! i = Some ix ->
  (i, ix) ∈ profile_indexes \/
  (indexes d !! i = Some ix /\ i_table ix <> argo_floats /\
   i_table ix <> argo_profiles).
Proof.
  unfold provisioned. simpl. intros Hix.
  repeat (apply lookup_insert_Some in Hix as [[<- <-]|[_ Hix]];
          [left; in_list|]).
  apply map_lookup_filter_Some in Hix as [Hix HF].
  apply map_lookup_filter_Some in Hix as [Hix HP].
  right. done.
Qed.

(** X9.  What provisioning leaves alone.  When [create_tables] has
    gone through on a sound destination, every table other than
    argo_floats and argo_profiles is as it was, and the indexes on
    those other tables are exactly the ones that were there before. *)
Theorem create_tables_frame w c d w' :
  pg w = PgConn c d false true ->
  (forall s, s ∈ create_tables_statements -> permitted s = true) ->
  well_formed d ->
  provisionable d ->
  create_tables w = Some (Return tt, w') ->
  (forall t, t <> argo_floats -> t <> argo_profiles ->
     tables (committed (pg w')) !! t = tables d !! t) /\
  (forall i ix, i_table ix <> argo_floats -> i_table ix <> argo_profiles ->
     (indexes (committed (pg w')) !! i = Some ix
      <-> indexes d !! i = Some ix)).
Proof.
  intros Hpg Hperm Hwf Hprov Hrun.
  destruct (create_tables_run w c d Hpg) as (w1 & evs & _ & Hct).
  rewrite (exec_create_tables d Hperm Hwf Hprov) in Hct.
  destruct Hct as (Hct & Hpg' & _).
  rewrite Hrun in Hct. injection Hct as <-.
  rewrite Hpg'. simpl.
  split; [intros t; apply provisioned_other_table|].
  - intros i ix HF HP. split.
    + intros [Hin|[Hix _]]%provisioned_index; [|done].
      apply list_elem_of_In in Hin. simpl in Hin.
      repeat (destruct Hin as [[= <- <-]|Hin]; [done|]). done.
    + intros Hix. unfold provisioned. simpl.
      destruct Hprov as (_ & _ & Hnames).
      assert (Hi : i ∉ index_names).
      { intros Hi. rewrite Forall_forall in Hnames.
        destruct (Hnames i Hi) as [_ Hheld]. rewrite Hix in Hheld.
        by destruct Hheld. }
      rewrite !lookup_insert_ne
        by (intros <-; apply Hi; in_list).
      apply map_lookup_filter_Some. split; [|done].
      apply map_lookup_filter_Some. by split.
Qed.


(** *** Runs that raise *)

Lemma respects_raising_never {A} R (m : M A) :
  never_raises m -> respects_raising R m.
Proof. intros Hm w e w' Hrun. by apply Hm in Hrun. Qed.

Lemma respects_raising_bind {A B} R `{!PreOrder R}
    (m : M A) (k : A -> M B) :
  respects R m -> (forall a, respects_raising R (k a)) ->
  respects_raising R (bind m k).
Proof.
  intros Hm Hk w e w' Hrun.
  apply bind_inv in Hrun as [(a & w1 & Hrun1 & Hrun)|(e' & Hrun & _)].
  - etransitivity; [by eapply Hm|by eapply Hk].
  - by eapply Hm.
Qed.

Lemma never_raises_print msg : never_raises (print msg).
Proof. by intros w e w'. Qed.

Lemma never_raises_pg_close : never_raises pg_close.
Proof. by intros w e w'. Qed.

Lemma never_raises_bind {A B} (m : M A) (k : A -> M B) :
  never_raises m -> (forall a, never_raises (k a)) -> never_raises (bind m k).
Proof.
  intros Hm Hk w e w' Hrun.
  apply bind_inv in Hrun as [(a & w1 & _ & Hrun)|(e' & Hrun & _)].
  - by apply Hk in Hrun.
  - by apply Hm in Hrun.
Qed.

Lemma bind_return_inv {A B} (m : M A) (k : A -> M B) w b w' :
  bind m k w = Some (Return b, w') ->
  exists a w1, m w = Some (Return a, w1) /\ k a w1 = Some (Return b, w').
Proof. intros [?|(e & _ & [=])]%bind_inv. done. Qed.

(** *** An open connection *)

Global Instance keeps_open_preorder : PreOrder keeps_open.
Proof.
  split; [intros w Hw; exact Hw|].
  intros w1 w2 w3 H12 H23 H1. apply H23, H12, H1.
Qed.

Lemma keeps_open_print msg : respects keeps_open (print msg).
Proof. intros w r w' [= <- <-] Hopen. exact Hopen. Qed.

Lemma keeps_open_pg_statement {A} ev (run : db -> db_error + A * db) :
  respects keeps_open (pg_statement ev run).
Proof.
  intros w r w' Hrun Hopen. unfold pg_statement in Hrun. simpl in Hrun.
  rewrite Hopen in Hrun. simpl in Hrun.
  destruct (in_failed_txn (pg w)); [by injection Hrun as <- <-|].
  by destruct (run _) as [err|[a d']]; injection Hrun as <- <-.
Qed.

Lemma keeps_open_pg_commit : respects keeps_open pg_commit.
Proof.
  intros w r w' Hrun Hopen. unfold pg_commit in Hrun. simpl in Hrun.
  rewrite Hopen in Hrun. by injection Hrun as <- <-.
Qed.

Lemma keeps_open_pg_rollback : respects keeps_open pg_rollback.
Proof.
  intros w r w' Hrun Hopen. unfold pg_rollback in Hrun. simpl in Hrun.
  rewrite Hopen in Hrun. by injection Hrun as <- <-.
Qed.

Ltac open_step :=
  unfold bulk_import_supabase.skip_header,
    import_csv_to_supabase.copy_with_header,
    pg_execute, pg_executemany, pg_copy_expert, pg_count,
    pg_select_limit, pg_count_region, pg_read;
  first
    [ apply (respects_bind keeps_open); [|intros ?]
    | apply (respects_ret keeps_open)
    | apply (respects_raise keeps_open)
    | apply (respects_read_lines keeps_open)
    | apply (respects_read_schema_file keeps_open)
    | apply keeps_open_print
    | apply keeps_open_pg_statement
    | apply keeps_open_pg_commit
    | apply keeps_open_pg_rollback
    | match goal with
      | |- respects _ (match ?x with _ => _ end) => destruct x
      end ].

Lemma keeps_open_print_rows rows :
  respects keeps_open (bulk_import_supabase.print_rows rows).
Proof. induction rows as [|row rows IH]; simpl; repeat open_step. exact IH. Qed.

(** *** Events that are not a given one *)

Ltac ne_side := intros; first [discriminate | split; intros; discriminate].

(** A membership in an explicit list of events that holds for none. *)
Ltac no_event H :=
  repeat first
    [ discriminate H
    | destruct H as [H|H]
    | destruct H ].

Ltac ne_step :=
  unfold bulk_import_supabase.skip_header,
    import_csv_to_supabase.copy_with_header,
    sqlite_tables, sqlite_count, sqlite_table_info, sqlite_select,
    pg_execute, pg_executemany, pg_copy_expert, pg_count,
    pg_select_limit, pg_count_region, pg_read, sys_exit;
  first
    [ apply logs_bind; [|intros ?]
    | apply logs_ret
    | apply logs_raise
    | apply logs_diverge
    | apply logs_try_except; [|intros ?]
    | apply logs_sqlite_connect; ne_side
    | apply logs_read_connection_file
    | apply logs_read_schema_file
    | apply logs_read_lines
    | apply logs_print; ne_side
    | apply logs_pg_connect; ne_side
    | apply logs_pg_statement; ne_side
    | apply logs_pg_commit; ne_side
    | apply logs_pg_rollback; ne_side
    | apply logs_sqlite_query; intros ? ? ?; repeat case_match;
      intros [= <- <-]; ne_side
    | match goal with
      | |- respects _ (if ?b then _ else _) => destruct b
      | |- respects _ (match ?x with _ => _ end) => destruct x
      end ].


(** *** [bulk_import_supabase.main] *)

Lemma reo_read_connection_file : raises_exceptions_only read_connection_file.
Proof.
  intros w e w'. unfold read_connection_file.
  by destruct (conn_string_file w); intros [= <- <-].
Qed.

Lemma reo_read_schema_file : raises_exceptions_only read_schema_file.
Proof.
  intros w e w'. unfold read_schema_file.
  by destruct (schema_file w); intros [= <- <-].
Qed.

Lemma reo_read_lines path : raises_exceptions_only (read_lines path).
Proof.
  intros w e w'. unfold read_lines.
  by destruct (csv_files w !! path); intros [= <- <-].
Qed.

Lemma reo_pg_connect : raises_exceptions_only pg_connect.
Proof.
  intros w e w'. unfold pg_connect.
  by destruct (pg_reachable w); intros [= <- <-].
Qed.

Ltac reo_file_step :=
  unfold bulk_import_supabase.skip_header,
    import_csv_to_supabase.copy_with_header;
  first
    [ apply reo_read_connection_file
    | apply reo_read_schema_file
    | apply reo_read_lines
    | apply reo_pg_connect
    | apply reo_raise; reflexivity
    | reo_step ].

Lemma reo_print_rows rows :
  raises_exceptions_only (bulk_import_supabase.print_rows rows).
Proof.
  induction rows as [|row rows IH]; simpl; repeat reo_file_step. exact IH.
Qed.

Lemma get_connection_inv w r w' :
  bulk_import_supabase.get_connection w = Some (r, w') ->
  ((exists e, r = Raise e) /\ w' = w) \/
  (r = Return tt /\ pg_open (pg w') = true /\ log w' = log w ++ [PgConnect]).
Proof.
  unfold bulk_import_supabase.get_connection, bind, read_connection_file,
    pg_connect.
  destruct (conn_string_file w); [|intros [= <- <-]; left; eauto].
  destruct (pg_reachable w); intros [= <- <-]; [right|left]; eauto.
Qed.


(** X10.  The two ways out of [bulk_import_supabase.main].  A run that
    returns has closed the connection and printed MIGRATION COMPLETE.
    A run that raises raises an Exception, the last thing it printed is
    the ERROR line of that exception, it printed no MIGRATION COMPLETE,
    sent no close, and if it had connected the connection is still
    open. *)
Theorem bulk_main_outcome w r w' :
  bulk_import_supabase.main w = Some (r, w') ->
  exists evs,
    log w' = log w ++ evs /\
    match r with
    | Return _ =>
        pg_open (pg w') = false /\ PgClose ∈ evs /\
        Print (Say "MIGRATION COMPLETE!") ∈ evs
    | Raise e =>
        is_Exception e = true /\
        last evs = Some (Print (SayFailed "ERROR" e)) /\
        (PgClose ∉ evs) /\ (Print (Say "MIGRATION COMPLETE!") ∉ evs) /\
        (PgConnect ∈ evs -> pg_open (pg w') = true)
    end.
Proof.
  unfold bulk_import_supabase.main. rewrite !bind_print.
  set (P := fun e : event =>
              e <> PgClose /\ e <> Print (Say "MIGRATION COMPLETE!")).
  assert (Hschema : respects (logs P) bulk_import_supabase.create_schema)
    by (unfold bulk_import_supabase.create_schema; repeat ne_step).
  assert (Hfloats : respects (logs P) bulk_import_supabase.import_argo_floats)
    by (unfold bulk_import_supabase.import_argo_floats; repeat ne_step).
  assert (Hprofs : respects (logs P) bulk_import_supabase.import_argo_profiles)
    by (unfold bulk_import_supabase.import_argo_profiles; repeat ne_step).
  assert (Hverify : respects (logs P) bulk_import_supabase.verify_import).
  { unfold bulk_import_supabase.verify_import.
    repeat first [apply logs_print_rows; ne_side | ne_step]. }
  assert (Hschema' : respects keeps_open bulk_import_supabase.create_schema)
    by (unfold bulk_import_supabase.create_schema; repeat open_step).
  assert (Hfloats' :
            respects keeps_open bulk_import_supabase.import_argo_floats)
    by (unfold bulk_import_supabase.import_argo_floats; repeat open_step).
  assert (Hprofs' :
            respects keeps_open bulk_import_supabase.import_argo_profiles)
    by (unfold bulk_import_supabase.import_argo_profiles; repeat open_step).
  assert (Hverify' : respects keeps_open bulk_import_supabase.verify_import).
  { unfold bulk_import_supabase.verify_import.
    repeat first [apply keeps_open_print_rows | open_step]. }
  intros Hrun.
  match type of Hrun with try_except _ _ ?w0 = _ => set (w0' := w0) in * end.
  assert (Hlog0 : log w0' = log w ++
            [Print bulk_import_supabase.waves;
             Print (Say "SUPABASE BULK DATA IMPORT");
             Print (Say "FloatChat ARGO Database Migration");
             Print bulk_import_supabase.waves])
    by (simpl; by rewrite <- !app_assoc).
  assert (HP0 : Forall P [Print bulk_import_supabase.waves;
             Print (Say "SUPABASE BULK DATA IMPORT");
             Print (Say "FloatChat ARGO Database Migration");
             Print bulk_import_supabase.waves])
    by (repeat constructor; discriminate).
  clearbody w0'.
  apply try_except_inv in Hrun as [[Hbody Hne]|(e & w1 & Hbody & He & Hh)].
  - destruct r as [[]|e].
    + rewrite bind_print in Hbody.
      apply bind_return_inv in Hbody as ([] & x0 & Hgc & Hbody).
      apply get_connection_inv in Hgc as [[[e [=]] _]|(_ & _ & Hlogc)].
      rewrite bind_print in Hbody.
      apply bind_return_inv in Hbody as ([] & x1 & H1 & Hbody).
      apply Hschema in H1 as (E1 & Hl1 & HP1).
      apply bind_return_inv in Hbody as ([] & x2 & H2 & Hbody).
      apply Hfloats in H2 as (E2 & Hl2 & HP2).
      apply bind_return_inv in Hbody as ([] & x3 & H3 & Hbody).
      apply Hprofs in H3 as (E3 & Hl3 & HP3).
      apply bind_return_inv in Hbody as (counts & x4 & H4 & Hbody).
      apply Hverify in H4 as (E4 & Hl4 & HP4).
      injection Hbody as <-. simpl in *.
      eexists. rewrite Hl4, Hl3, Hl2, Hl1, Hlogc. simpl. rewrite Hlog0.
      split; [rewrite <- !app_assoc; reflexivity|].
      split; [done|].
      rewrite !elem_of_app, !elem_of_cons. tauto.
    + assert (is_Exception e = true); [|by rewrite (Hne e eq_refl) in *].
      revert Hbody. generalize w0' e w'.
      match goal with
      | |- forall w e w', ?m w = _ -> _ =>
          change (raises_exceptions_only m)
      end.
      unfold bulk_import_supabase.get_connection,
        bulk_import_supabase.create_schema,
        bulk_import_supabase.import_argo_floats,
        bulk_import_supabase.import_argo_profiles,
        bulk_import_supabase.verify_import.
      repeat first [apply reo_print_rows | reo_file_step].
  - rewrite bind_print in Hh. injection Hh as <- <-.
    assert (exists E, log w1 = log w0' ++ E /\ Forall P E /\
                      (PgConnect ∈ E -> pg_open (pg w1) = true))
      as (E & HlE & HPE & HopenE).
    { rewrite bind_print in Hbody.
      apply bind_inv in Hbody as [([] & x0 & Hgc & Hbody)|(e' & Hgc & _)].
      2:{ apply get_connection_inv in Hgc as [[_ ->]|([=] & _)].
          exists [Print (Say "Connecting to Supabase PostgreSQL...")].
          split; [done|]. split; [by repeat constructor|].
          intros Hin. apply list_elem_of_singleton in Hin. done. }
      apply get_connection_inv in Hgc as [[[e' [=]] _]|(_ & Hopen0 & Hlogc)].
      match type of Hbody with ?k _ = _ =>
        assert (HR : respects_raising (logs P) k);
        [|assert (HO : respects_raising keeps_open k)]
      end.
      { apply respects_raising_bind; [apply _|ne_step|intros _].
        apply respects_raising_bind; [apply _|exact Hschema|intros _].
        apply respects_raising_bind; [apply _|exact Hfloats|intros _].
        apply respects_raising_bind; [apply _|exact Hprofs|intros _].
        apply respects_raising_bind; [apply _|exact Hverify|intros counts].
        apply respects_raising_never.
        repeat (apply never_raises_bind;
                [first [apply never_raises_pg_close|apply never_raises_print]
                |intros _]).
        apply never_raises_print. }
      { apply respects_raising_bind; [apply _|open_step|intros _].
        apply respects_raising_bind; [apply _|exact Hschema'|intros _].
        apply respects_raising_bind; [apply _|exact Hfloats'|intros _].
        apply respects_raising_bind; [apply _|exact Hprofs'|intros _].
        apply respects_raising_bind; [apply _|exact Hverify'|intros counts].
        apply respects_raising_never.
        repeat (apply never_raises_bind;
                [first [apply never_raises_pg_close|apply never_raises_print]
                |intros _]).
        apply never_raises_print. }
      apply HR in Hbody as HlR. apply HO in Hbody as HoR.
      destruct HlR as (E' & HlE' & HPE').
      exists ([Print (Say "Connecting to Supabase PostgreSQL..."); PgConnect]
              ++ E').
      rewrite HlE', Hlogc. simpl. rewrite <- !app_assoc.
      split; [done|]. split; [|intros _; by apply HoR].
      repeat (constructor; [by split|]). done. }
    eexists. simpl. rewrite HlE, Hlog0.
    split; [rewrite <- !app_assoc; reflexivity|].
    split; [done|].
    assert (HPall : Forall P
      ([Print bulk_import_supabase.waves;
        Print (Say "SUPABASE BULK DATA IMPORT");
        Print (Say "FloatChat ARGO Database Migration");
        Print bulk_import_supabase.waves] ++ E
       ++ [Print (SayFailed "ERROR" e)])).
    { apply Forall_app. split; [done|]. apply Forall_app. split; [done|].
      by repeat constructor. }
    rewrite Forall_forall in HPall.
    split.
    { rewrite !app_assoc. apply last_snoc. }
    split; [intros Hin; by destruct (HPall _ Hin)|].
    split; [intros Hin; by destruct (HPall _ Hin)|].
    rewrite !elem_of_app, !elem_of_cons, !elem_of_nil.
    intros [Hin|[Hin|Hin]]; [exfalso|by apply HopenE|exfalso];
      repeat (destruct Hin as [Hin|Hin]; [discriminate Hin|]); done.
Qed.


(** *** [import_csv] *)

Lemma import_csv_outcome conn_string w r w' :
  import_csv_to_supabase.import_csv conn_string w = Some (r, w') ->
  exists evs,
    log w' = log w ++ evs /\
    ((pg_reachable w = false /\
      r = Raise (DatabaseError ConnectionRefused) /\ pg w' = pg w /\
      (PgConnect ∉ evs)) \/
     (pg_reachable w = true /\ r = Return tt /\ pg_open (pg w') = false /\
      last evs = Some (Print (Say "Connection closed")) /\
      ((Print (Say "IMPORT SUCCESSFUL!") ∈ evs /\ (PgRollback ∉ evs) /\
        Print (EnvUrl conn_string) ∈ evs /\
        exists ss d1 d2,
          schema_file w = Some ss /\
          exec_ddls ss (committed (pg w)) = inr d1 /\
          stream_committed w argo_floats "argo_floats.csv" None
            data_after_header d1 d2 /\
          stream_committed w argo_profiles "argo_profiles.csv" None
            data_after_header d2 (committed (pg w'))) \/
       ((Print (Say "IMPORT SUCCESSFUL!") ∉ evs) /\ PgRollback ∈ evs /\
        exists e, is_Exception e = true /\
                  Print (SayFailed "Import failed" e) ∈ evs)))).
Proof.
  unfold import_csv_to_supabase.import_csv. rewrite !bind_print.
  intros Hrun.
  apply bind_inv in Hrun as [([] & w1 & Hconn & Hrun)|(e & Hconn & ->)].
  2:{ revert Hconn. unfold pg_connect. simpl.
      destruct (pg_reachable w); [done|]. intros [= <- <-].
      eexists. simpl. split; [rewrite <- !app_assoc; reflexivity|].
      left. split; [done|]. split; [done|]. split; [done|].
      intros Hin.
      repeat (apply elem_of_cons in Hin as [Hin|Hin]; [discriminate Hin|]).
      by apply elem_of_nil in Hin. }
  unfold pg_connect in Hconn. simpl in Hconn.
  destruct (pg_reachable w); [|done]. injection Hconn as <-.
  rewrite bind_print in Hrun.
  apply try_finally_inv in Hrun as (rb & wb & rc & Hbody & Hclean & Hr).
  injection Hclean as <- <-. subst r.
  match type of Hbody with
  | try_except ?b _ ?w0 = _ => set (inner := b) in *; set (w2 := w0) in *
  end.
  assert (Hlog2 : log w2 = log w ++
    [Print (rule 60); Print (Say "ARGO CSV Import to Supabase");
     Print (rule 60); Print (Say "Connecting to Supabase..."); PgConnect;
     Print (Say "Connected")]) by (simpl; by rewrite <- !app_assoc).
  assert (Hpg2 : pg w2 = PgConn (committed (pg w)) (committed (pg w))
                           false true) by done.
  assert (Hcsv2 : csv_files w2 = csv_files w) by done.
  assert (Hsch2 : schema_file w2 = schema_file w) by done.
  clearbody w2.
  assert (Hsub : exists E,
    log wb = log w2 ++ E /\ rb = Return tt /\
    ((Print (Say "IMPORT SUCCESSFUL!") ∈ E /\ (PgRollback ∉ E) /\
      Print (EnvUrl conn_string) ∈ E /\
      exists ss d1 d2,
        schema_file w2 = Some ss /\
        exec_ddls ss (committed (pg w2)) = inr d1 /\
        stream_committed w2 argo_floats "argo_floats.csv" None
          data_after_header d1 d2 /\
        stream_committed w2 argo_profiles "argo_profiles.csv" None
          data_after_header d2 (committed (pg wb))) \/
     ((Print (Say "IMPORT SUCCESSFUL!") ∉ E) /\ PgRollback ∈ E /\
      exists e, is_Exception e = true /\
                Print (SayFailed "Import failed" e) ∈ E))).
  { apply try_except_inv in Hbody as [[Hbody Hne]|(e & w3 & Hbody & He & Hh)].
    - destruct rb as [[]|e].
      2:{ assert (is_Exception e = true); [|by rewrite (Hne e eq_refl) in *].
          revert Hbody. generalize w2 e wb.
          change (raises_exceptions_only inner). subst inner.
          repeat reo_file_step. }
      subst inner. rewrite bind_print in Hbody.
      apply bind_return_inv in Hbody as (ss & w3 & Hread & Hbody).
      unfold read_schema_file in Hread. simpl in Hread.
      destruct (schema_file w2) as [ss'|] eqn:Hss; [|done].
      injection Hread as -> <-.
      apply bind_return_inv in Hbody as ([] & w4 & Hexec & Hbody).
      apply pg_statement_inv in Hexec
        as [([] & d1 & _ & _ & Hexec & _ & ->)|[[e [=]] _]].
      simpl in Hexec. rewrite Hpg2 in Hexec. simpl in Hexec.
      destruct (exec_ddls ss (committed (pg w))) as [|d1'] eqn:Hddl; [done|].
      injection Hexec as <-.
      apply bind_return_inv in Hbody as ([] & w5 & Hcommit & Hbody).
      apply pg_commit_inv_idle in Hcommit as [_ ->]; [|done|done].
      rewrite !bind_print in Hbody.
      match type of Hbody with _ ?w0 = _ => set (w6 := w0) in * end.
      assert (Hpg6 : pg w6 = PgConn d1' d1' false true) by done.
      assert (Hcsv6 : csv_files w6 = csv_files w2) by done.
      assert (Hlog6 : log w6 = log w2 ++
        [Print (Say "Creating tables..."); PgExecute ss; PgCommit;
         Print (Say "Tables created");
         Print (Say "Importing argo_floats.csv...")])
        by (simpl; by rewrite <- !app_assoc).
      clearbody w6.
      apply bind_return_inv in Hbody as (f & w7 & Hread & Hbody).
      apply read_lines_inv in Hread as [-> [[e [=]]|(ls & Hfile & [= <-])]].
      unfold import_csv_to_supabase.copy_with_header in Hbody.
      apply copy_commit_inv in Hbody; [|by rewrite Hpg6].
      rewrite Hpg6 in Hbody. simpl in Hbody.
      destruct Hbody as [[[e [=]] _]
        |(rows & tb & w8 & Hparse & Htb & Hpg8 & Hcsv8 & _ & Hlog8 & Hbody)].
      rewrite copy_data_tail in Hparse.
      set (d2 := append_rows argo_floats rows d1') in *.
      assert (Ht2F : tables d2 !! argo_floats
                     = Some (Table (t_cols tb) (t_rows tb ++ rows)))
        by (by eapply tables_append_rows).
      erewrite bind_return in Hbody by (eapply pg_read_run; [exact Hpg8|done]).
      rewrite !bind_print in Hbody.
      match type of Hbody with _ ?w0 = _ => set (w9 := w0) in * end.
      assert (Hpg9 : pg w9 = PgConn d2 d2 false true) by done.
      assert (Hcsv9 : csv_files w9 = csv_files w8) by done.
      assert (Hlog9 : log w9 = log w8 ++
        [PgCount argo_floats;
         Print (Imported argo_floats (Z.of_nat (length (t_rows tb ++ rows))));
         Print (Say "Importing argo_profiles.csv...");
         Print (Say "This will take 5-10 minutes...")])
        by (simpl; by rewrite <- !app_assoc).
      clearbody w9.
      apply bind_return_inv in Hbody as (f' & w7 & Hread & Hbody).
      apply read_lines_inv in Hread as [-> [[e [=]]|(ls' & Hfile' & [= <-])]].
      apply copy_commit_inv in Hbody; [|by rewrite Hpg9].
      rewrite Hpg9 in Hbody. simpl in Hbody.
      destruct Hbody as [[[e [=]] _]
        |(rows' & tb' & w10 & Hparse' & Htb' & Hpg10 & _ & _ & Hlog10 & Hbody)].
      rewrite copy_data_tail in Hparse'.
      set (d3 := append_rows argo_profiles rows' d2) in *.
      assert (Ht3P : tables d3 !! argo_profiles
                     = Some (Table (t_cols tb') (t_rows tb' ++ rows')))
        by (by eapply tables_append_rows).
      assert (Ht3F : tables d3 !! argo_floats
                     = Some (Table (t_cols tb) (t_rows tb ++ rows)))
        by (unfold d3; by rewrite tables_append_rows_ne).
      erewrite bind_return in Hbody by (eapply pg_read_run; [exact Hpg10|done]).
      rewrite !bind_print in Hbody.
      erewrite bind_return in Hbody by (eapply pg_read_run; [done|done]).
      erewrite bind_return in Hbody by (eapply pg_read_run; [done|done]).
      simpl import_csv_to_supabase.print_counts in Hbody.
      rewrite !bind_assoc in Hbody. rewrite !bind_print in Hbody.
      erewrite bind_return in Hbody by reflexivity.
      rewrite bind_print in Hbody.
      erewrite bind_return in Hbody by (eapply pg_read_run; [done|done]).
      rewrite !bind_print in Hbody. injection Hbody as <-.
      eexists. simpl. rewrite Hlog10, Hlog9, Hlog8, Hlog6.
      split; [rewrite <- !app_assoc; reflexivity|]. split; [done|].
      left. split; [rewrite !elem_of_app, !elem_of_cons; tauto|].
      split.
      { simpl. intros Hin.
        repeat (apply elem_of_cons in Hin as [Hin|Hin]; [discriminate Hin|]).
        by apply elem_of_nil in Hin. }
      split; [rewrite !elem_of_app, !elem_of_cons; tauto|].
      exists ss, d1', d2. rewrite Hpg2. simpl.
      split; [done|]. split; [done|].
      split.
      + exists f, rows. rewrite <- Hcsv6.
        repeat (split; [done|]). split; [by eapply parse_rows_length|done].
      + exists f', rows'. rewrite <- Hcsv6. simpl in Hcsv8. rewrite <- Hcsv8.
        rewrite <- Hcsv9.
        repeat (split; [done|]). split; [by eapply parse_rows_length|done].
    - assert (HO : respects keeps_open inner).
      { subst inner. simpl import_csv_to_supabase.print_counts.
        repeat open_step. }
      apply HO in Hbody as Hopen3. red in Hopen3. rewrite Hpg2 in Hopen3.
      specialize (Hopen3 eq_refl).
      set (P := fun e : event => e <> Print (Say "IMPORT SUCCESSFUL!")).
      assert (HR : respects_raising (logs P) inner).
      { subst inner. simpl import_csv_to_supabase.print_counts.
        repeat (apply respects_raising_bind;
                [apply _|solve [repeat ne_step]|intros ?]).
        apply respects_raising_never.
        repeat (apply never_raises_bind; [apply never_raises_print|intros _]).
        apply never_raises_print. }
      apply HR in Hbody as (E' & HlE' & HPE').
      unfold bind, pg_rollback in Hh. simpl in Hh. rewrite Hopen3 in Hh.
      simpl in Hh. injection Hh as <- <-.
      eexists. simpl. rewrite HlE'.
      split; [rewrite <- !app_assoc; reflexivity|]. split; [done|].
      right. split.
      { rewrite Forall_forall in HPE'.
        rewrite !elem_of_app, !elem_of_cons, !elem_of_nil.
        intros [Hin|Hin]; [by apply HPE' in Hin|].
        no_event Hin. }
      split; [rewrite !elem_of_app, !elem_of_cons; tauto|].
      exists e. split; [done|]. rewrite !elem_of_app, !elem_of_cons. tauto. }
  destruct Hsub as (E & HlE & -> & Hcases).
  eexists. simpl. rewrite HlE, Hlog2.
  split; [rewrite <- !app_assoc; reflexivity|].
  right. split; [done|]. split; [done|]. split; [done|].
  split.
  { rewrite !app_assoc. apply last_snoc. }
  destruct Hcases as [(Hban & Hnrb & Henv & ss & d1 & d2 & Hss & Hddl & HF & HP)
                     |(Hnban & Hrb & e & He & Hfail)].
  - left. split; [rewrite !elem_of_app; tauto|].
    split.
    { rewrite !elem_of_app, !elem_of_cons, !elem_of_nil.
      intros [Hin|[Hin|Hin]]; [|done|]; no_event Hin. }
    split; [rewrite !elem_of_app; tauto|].
    exists ss, d1, d2. rewrite Hsch2 in Hss. rewrite Hpg2 in Hddl.
    split; [done|]. split; [done|].
    unfold stream_committed in *. rewrite Hcsv2 in HF, HP. by split.
  - right. split.
    { rewrite !elem_of_app, !elem_of_cons, !elem_of_nil.
      intros [Hin|[Hin|Hin]]; [|done|]; no_event Hin. }
    split; [rewrite !elem_of_app; tauto|].
    exists e. split; [done|]. rewrite !elem_of_app. tauto.
Qed.


(** X13.  The outcome of the CSV script.  Without a connection file it
    prints so and exits with status 1.  With a destination that does not
    answer, the connection error goes up and nothing else happens.
    Otherwise it returns normally and closes the connection, whatever
    happened in between, and exactly one of two holds: it printed IMPORT
    SUCCESSFUL and the connection string, sent no rollback, and the
    schema ran and the data of both files are committed in full (the
    lines COPY reads after the header: up to an end-of-data marker, if
    the file holds one); or it sent a rollback, printed the failure and
    no IMPORT SUCCESSFUL. *)
Theorem import_csv_main_outcome w r w' :
  import_csv_to_supabase.main w = Some (r, w') ->
  exists evs,
    log w' = log w ++ evs /\
    match conn_string_file w with
    | None =>
        r = Raise (SystemExit 1) /\ pg w' = pg w /\
        evs = [Print (Say "supabase_connection.txt not found!")]
    | Some conn_string =>
        if pg_reachable w then
          r = Return tt /\ pg_open (pg w') = false /\
          last evs = Some (Print (Say "Connection closed")) /\
          ((Print (Say "IMPORT SUCCESSFUL!") ∈ evs /\ (PgRollback ∉ evs) /\
            Print (EnvUrl conn_string) ∈ evs /\
            exists ss d1 d2,
              schema_file w = Some ss /\
              exec_ddls ss (committed (pg w)) = inr d1 /\
              stream_committed w argo_floats "argo_floats.csv" None
                data_after_header d1 d2 /\
              stream_committed w argo_profiles "argo_profiles.csv" None
                data_after_header d2 (committed (pg w'))) \/
           ((Print (Say "IMPORT SUCCESSFUL!") ∉ evs) /\ PgRollback ∈ evs /\
            exists e, is_Exception e = true /\
                      Print (SayFailed "Import failed" e) ∈ evs))
        else
          r = Raise (DatabaseError ConnectionRefused) /\ pg w' = pg w /\
          (PgConnect ∉ evs)
    end.
Proof.
  unfold import_csv_to_supabase.main,
    import_csv_to_supabase.load_connection_string.
  unfold bind at 1.
  destruct (conn_string_file w) as [c|] eqn:Hc.
  - simpl. intros Hrun.
    apply import_csv_outcome in Hrun as (evs & Hlog & Hcases).
    exists evs. split; [done|].
    destruct (pg_reachable w).
    + by destruct Hcases as [([=] & _)|(_ & Hcases)].
    + by destruct Hcases as [(_ & Hcases)|([=] & _)].
  - simpl. intros [= <- <-]. eexists. split; [reflexivity|]. done.
Qed.


(** *** The streams of the bulk loaders at their edges *)

(** X12.  The stream of [import_argo_profiles] at its edges.  A missing
    file raises FileNotFoundError and an empty one StopIteration (there
    is no header line to skip), both before anything is sent to the
    destination.  A file with a header line only is loaded: nothing is
    added, and the count printed is the table's. *)
Theorem bulk_import_stream_edges w :
  (csv_files w !! bulk_import_supabase.argo_profiles_csv = None ->
   exists w' evs,
     bulk_import_supabase.import_argo_profiles w
     = Some (Raise (FileNotFoundError bulk_import_supabase.argo_profiles_csv),
             w') /\
     log w' = log w ++ evs /\ pg_writes evs = [] /\ pg w' = pg w) /\
  (csv_files w !! bulk_import_supabase.argo_profiles_csv = Some [] ->
   exists w' evs,
     bulk_import_supabase.import_argo_profiles w
     = Some (Raise StopIteration, w') /\
     log w' = log w ++ evs /\ pg_writes evs = [] /\ pg w' = pg w) /\
  (forall header d tb,
     csv_files w !! bulk_import_supabase.argo_profiles_csv = Some [header] ->
     pg w = PgConn d d false true ->
     tables d !! argo_profiles = Some tb ->
     exists w' evs,
       bulk_import_supabase.import_argo_profiles w = Some (Return tt, w') /\
       log w' = log w ++ evs /\
       pg w' = PgConn d d false true /\
       Print (Imported argo_profiles (row_count tb)) ∈ evs).
Proof.
  unfold bulk_import_supabase.import_argo_profiles.
  split; [|split].
  - intros Hfile. rewrite !bind_print.
    erewrite bind_raise by (unfold read_lines; simpl; by rewrite Hfile).
    eexists _, _. split; [reflexivity|]. simpl.
    split; [rewrite <- !app_assoc; reflexivity|]. by split.
  - intros Hfile. rewrite !bind_print.
    erewrite bind_return by (unfold read_lines; simpl; by rewrite Hfile).
    rewrite !bind_print. simpl.
    erewrite bind_raise by reflexivity.
    eexists _, _. split; [reflexivity|]. simpl.
    split; [rewrite <- !app_assoc; reflexivity|]. by split.
  - intros header d tb Hfile Hpg Htb. rewrite !bind_print.
    erewrite bind_return by (unfold read_lines; simpl; by rewrite Hfile).
    rewrite !bind_print. simpl.
    erewrite bind_return by reflexivity.
    erewrite bind_return.
    2:{ unfold pg_copy_expert, pg_statement. simpl. rewrite Hpg. simpl.
        unfold copy_rows. rewrite Htb. simpl. unfold insert_many.
        rewrite Htb. simpl. reflexivity. }
    erewrite bind_return by (by eapply pg_commit_run).
    rewrite append_rows_nil.
    erewrite bind_return by (by eapply pg_read_run).
    rewrite !bind_print.
    eexists _, _. split; [reflexivity|]. simpl.
    split; [rewrite <- !app_assoc; reflexivity|]. split; [done|].
    unfold row_count. rewrite !elem_of_app, !list_elem_of_singleton. tauto.
Qed.


(** *** What [verify_import] shows *)

Lemma print_rows_log rows w :
  exists w',
    bulk_import_supabase.print_rows rows w = Some (Return tt, w') /\
    log w' = log w ++ map (fun row => Print (SampleRow row)) rows /\
    pg w' = pg w.
Proof.
  revert w. induction rows as [|row rows IH]; intros w; simpl.
  - eexists. split; [reflexivity|]. by rewrite app_nil_r.
  - rewrite bind_print.
    destruct (IH (emit (Print (SampleRow row)) w)) as (w' & -> & Hlog & Hpg).
    exists w'. split; [done|]. rewrite Hlog. simpl.
    by rewrite <- app_assoc.
Qed.

Lemma verify_import_run w c d tF tP :
  pg w = PgConn c d false true ->
  tables d !! argo_floats = Some tF ->
  tables d !! argo_profiles = Some tP ->
  exists w',
    bulk_import_supabase.verify_import w
    = Some (Return (row_count tF, row_count tP), w') /\
    log w' = log w ++
      [Print (rule 50); Print (Say "STEP 4: Verifying import...");
       Print (rule 50);
       PgCount argo_floats; PgCount argo_profiles;
       PgSelect argo_floats 3; PgSelect argo_profiles 3;
       Print (Say "Table Row Counts:");
       Print (RowCount argo_floats (row_count tF));
       Print (RowCount argo_profiles (row_count tP));
       Print (Say "Sample from argo_floats:")]
      ++ map (fun row => Print (SampleRow row)) (take 3 (t_rows tF))
      ++ [Print (Say "Sample from argo_profiles:")]
      ++ map (fun row => Print (SampleRow row)) (take 3 (t_rows tP)) /\
    pg w' = pg w.
Proof.
  intros Hpg HF HP.
  unfold bulk_import_supabase.verify_import. rewrite !bind_print.
  erewrite bind_return by (by eapply pg_read_run).
  erewrite bind_return by (by eapply pg_read_run).
  erewrite bind_return by (by eapply pg_read_run).
  erewrite bind_return by (by eapply pg_read_run).
  rewrite !bind_print.
  match goal with |- context [bind (bulk_import_supabase.print_rows ?rs) _ ?w0] =>
    destruct (print_rows_log rs w0) as (w1 & Hr1 & Hl1 & Hpg1) end.
  erewrite bind_return by exact Hr1. rewrite bind_print.
  match goal with |- context [bind (bulk_import_supabase.print_rows ?rs) _ ?w0] =>
    destruct (print_rows_log rs w0) as (w2 & Hr2 & Hl2 & Hpg2) end.
  erewrite bind_return by exact Hr2.
  eexists. split; [reflexivity|].
  split.
  - rewrite Hl2. simpl. rewrite Hl1. simpl. rewrite <- !app_assoc. done.
  - rewrite Hpg2. simpl. rewrite Hpg1. simpl. done.
Qed.


(** *** The success line of [main] *)

Lemma never_raises_try_except {A} (body : M A) handler :
  raises_exceptions_only body -> (forall e, never_raises (handler e)) ->
  never_raises (try_except body handler).
Proof.
  intros Hb Hh w e w' Hrun.
  apply try_except_inv in Hrun as [[Hrun Hne]|(e' & w1 & _ & _ & Hrun)].
  - apply Hb in Hrun as He. by rewrite (Hne e eq_refl) in He.
  - by apply Hh in Hrun.
Qed.

Lemma never_raises_try_finally {A} (body : M A) cleanup :
  never_raises body -> never_raises cleanup ->
  never_raises (try_finally body cleanup).
Proof.
  intros Hb Hc w e w' Hrun.
  apply try_finally_inv in Hrun as (rb & wb & rc & Hbody & Hclean & Hr).
  destruct rc as [[]|e'].
  - subst rb. by apply Hb in Hbody.
  - by apply Hc in Hclean.
Qed.

Lemma never_raises_sqlite_close : never_raises sqlite_close.
Proof. by intros w e w'. Qed.

Lemma pg_count_return_inv t w n w' :
  pg_count t w = Some (Return n, w') -> log w' = log w ++ [PgCount t].
Proof.
  unfold pg_count, pg_read. intros Hrun.
  by apply pg_statement_inv in Hrun
    as [(a & d' & _ & _ & _ & _ & ->)|[[e [=]] _]].
Qed.

Lemma sqlite_count_return_inv t w n w' :
  sqlite_count t w = Some (Return n, w') ->
  log w' = log w ++ [SqliteCount t n].
Proof.
  intros Hrun.
  by apply sqlite_count_inv in Hrun
    as [_ [(e & [=] & _)|(n' & [= <-] & Hlog)]].
Qed.

Lemma verify_migration_true_inv w w' :
  verify_migration w = Some (Return true, w') ->
  exists nP nF,
    log w' = log w ++
      [Print (Say "Verifying migration...");
       SqliteCount argo_profiles nP; PgCount argo_profiles;
       Print (CountsMatch argo_profiles nP);
       SqliteCount argo_floats nF; PgCount argo_floats;
       Print (CountsMatch argo_floats nF)].
Proof.
  unfold verify_migration. rewrite bind_print. simpl verify_tables.
  intros Hrun.
  apply bind_return_inv in Hrun as (nP & w1 & HsP & Hrun).
  apply sqlite_count_return_inv in HsP.
  apply bind_return_inv in Hrun as (mP & w2 & HpP & Hrun).
  apply pg_count_return_inv in HpP.
  destruct (nP =? mP); rewrite bind_print in Hrun.
  2:{ apply bind_return_inv in Hrun as (nF & w3 & _ & Hrun).
      apply bind_return_inv in Hrun as (mF & w4 & _ & Hrun).
      destruct (nF =? mF); rewrite bind_print in Hrun; by injection Hrun. }
  apply bind_return_inv in Hrun as (nF & w3 & HsF & Hrun).
  apply sqlite_count_return_inv in HsF.
  apply bind_return_inv in Hrun as (mF & w4 & HpF & Hrun).
  apply pg_count_return_inv in HpF.
  destruct (nF =? mF); rewrite bind_print in Hrun; [|by injection Hrun].
  injection Hrun as <-. exists nP, nF. simpl.
  rewrite HpF, HsF. simpl. rewrite HpP, HsP. simpl.
  by rewrite <- !app_assoc.
Qed.


(** X5.  The success line of [main] can be trusted.  If a run printed
    MIGRATION SUCCESSFUL, then it returned, verification printed a match
    for argo_profiles and for argo_floats, and no mismatch was
    printed. *)
Theorem success_line_sound fuel w r w' :
  main fuel w = Some (r, w') ->
  exists evs,
    log w' = log w ++ evs /\
    (Print (Say "MIGRATION SUCCESSFUL!") ∈ evs ->
     r = Return tt /\
     (exists nP nF,
        Print (CountsMatch argo_profiles nP) ∈ evs /\
        Print (CountsMatch argo_floats nF) ∈ evs) /\
     forall t a b, Print (CountsMismatch t a b) ∉ evs).
Proof.
  set (P1 := fun e : event => e <> Print (Say "MIGRATION SUCCESSFUL!")).
  set (P := fun e : event =>
              e <> Print (Say "MIGRATION SUCCESSFUL!") /\
              forall t a b, e <> Print (CountsMismatch t a b)).
  assert (HPP1 : forall evs, Forall P evs -> Forall P1 evs).
  { intros evs Hevs. eapply Forall_impl; [exact Hevs|]. by intros e [? _]. }
  assert (Hquiet : forall evs,
            Forall P1 evs -> Print (Say "MIGRATION SUCCESSFUL!") ∉ evs).
  { intros evs Hevs Hin. rewrite Forall_forall in Hevs.
    by apply Hevs in Hin. }
  assert (Hload : respects (logs P) load_connection_string).
  { intros w0 r0 w0'. unfold load_connection_string.
    destruct (conn_string_file w0) as [c|].
    - destruct (String.eqb c ""); intros [= <- <-]; reflexivity.
    - rewrite !bind_print. intros [= <- <-]. eexists. simpl.
      split; [rewrite <- !app_assoc; reflexivity|].
      repeat (constructor; [ne_side|]). constructor. }
  assert (Hsq : respects (logs P) connect_sqlite)
    by (unfold connect_sqlite; repeat ne_step).
  assert (Hpc : forall c, respects (logs P) (connect_postgres c))
    by (intros c; unfold connect_postgres; repeat ne_step).
  assert (Hct : respects (logs P) create_tables).
  { unfold create_tables.
    repeat first [apply logs_execute_each; ne_side | ne_step]. }
  assert (Hmd : forall t B, respects (logs P) (migrate_data fuel t B)).
  { intros t B. unfold migrate_data.
    assert (Hloop : forall f cols total o ri,
              respects (logs P) (migrate_loop f t cols B total o ri)).
    { induction f as [|f IH]; intros cols total o ri; simpl;
        [apply logs_diverge|]. repeat first [apply IH | ne_step]. }
    repeat first [apply Hloop | ne_step]. }
  assert (Hvm : respects (logs P1) verify_migration).
  { unfold verify_migration. apply logs_bind; [ne_step|intros _].
    generalize true.
    induction [argo_profiles; argo_floats] as [|t ts IH]; intros b; simpl;
      repeat first [apply IH | ne_step]. }
  assert (Hweak : forall {A} (m : M A),
            respects (logs P) m -> respects (logs P1) m).
  { intros A m Hm w0 r0 w0' Hrun. apply Hm in Hrun as (E & Hl & HE).
    exists E. split; [done|]. by apply HPP1. }
  unfold main. rewrite !bind_print. intros Hrun.
  match type of Hrun with _ ?w0 = _ => set (w0' := w0) in * end.
  assert (Hlog0 : log w0' = log w ++
            [Print (rule 60);
             Print (Say "ARGO Database Migration: SQLite -> Supabase PostgreSQL");
             Print (rule 60)])
    by (simpl; by rewrite <- !app_assoc).
  assert (HP0 : Forall P
            [Print (rule 60);
             Print (Say "ARGO Database Migration: SQLite -> Supabase PostgreSQL");
             Print (rule 60)])
    by (repeat (constructor; [ne_side|]); constructor).
  clearbody w0'.
  destruct r as [[]|e].
  2:{ match type of Hrun with ?m _ = _ =>
        assert (HR : respects_raising (logs P1) m)
      end.
      { apply respects_raising_bind; [apply _|by apply Hweak|intros c].
        apply respects_raising_bind; [apply _|ne_step|intros _].
        apply respects_raising_bind; [apply _|by apply Hweak|intros _].
        apply respects_raising_bind; [apply _|by apply Hweak|intros _].
        apply respects_raising_never.
        apply never_raises_try_finally.
        - apply never_raises_try_except.
          + repeat first [ apply reo_create_tables | apply reo_migrate_data
                         | apply reo_verify_migration | reo_step ].
          + intros e0. apply never_raises_bind; [|intros _];
              apply never_raises_print.
        - repeat (apply never_raises_bind;
                  [first [apply never_raises_sqlite_close
                         |apply never_raises_pg_close]|intros _]).
          apply never_raises_print. }
      apply HR in Hrun as (E & HlE & HE).
      exists ([Print (rule 60);
               Print (Say "ARGO Database Migration: SQLite -> Supabase PostgreSQL");
               Print (rule 60)] ++ E).
      rewrite HlE, Hlog0. split; [by rewrite <- app_assoc|].
      intros Hin. exfalso. revert Hin. apply Hquiet.
      apply Forall_app. split; [by apply HPP1|done]. }
  apply bind_return_inv in Hrun as (c & w1 & H1 & Hrun).
  apply Hload in H1 as (E1 & Hl1 & HE1).
  rewrite bind_print in Hrun.
  apply bind_return_inv in Hrun as ([] & w2 & H2 & Hrun).
  apply Hsq in H2 as (E2 & Hl2 & HE2). simpl in Hl2.
  apply bind_return_inv in Hrun as ([] & w3 & H3 & Hrun).
  apply Hpc in H3 as (E3 & Hl3 & HE3).
  apply try_finally_inv in Hrun as (rb & wb & rc & Hbody & Hclean & _).
  injection Hclean as _ <-.
  set (S0 := [Print (rule 60);
              Print (Say "ARGO Database Migration: SQLite -> Supabase PostgreSQL");
              Print (rule 60)] ++ E1
             ++ [Print (Say "Using saved connection string")] ++ E2 ++ E3).
  assert (HlS : log w3 = log w ++ S0).
  { rewrite Hl3, Hl2, Hl1, Hlog0. unfold S0. by rewrite <- !app_assoc. }
  assert (HS0 : Forall P S0).
  { unfold S0. repeat (apply Forall_app; split; [done|]).
    apply Forall_app. split; [|by apply Forall_app].
    by repeat (constructor; [ne_side|]). }
  clear Hl3 Hl2 Hl1 Hlog0 HE1 HE2 HE3 HP0. clearbody S0.
  set (T0 := [SqliteClose; PgClose; Print (Say "Connections closed")]).
  assert (HT0 : Forall P T0)
    by (unfold T0; repeat (constructor; [ne_side|]); constructor).
  assert (Hfin : forall E,
            log wb = log w3 ++ E ->
            log (emit (Print (Say "Connections closed"))
                   (set_pg (PgConn (committed (pg (emit PgClose
                                       (emit SqliteClose
                                          (set_sqlite_open false wb)))))
                              (committed (pg (emit PgClose
                                       (emit SqliteClose
                                          (set_sqlite_open false wb)))))
                              false false)
                      (emit PgClose
                         (emit SqliteClose (set_sqlite_open false wb)))))
            = log w ++ (S0 ++ E ++ T0)).
  { intros E HlE. simpl. rewrite HlE, HlS. unfold T0.
    by rewrite <- !app_assoc. }
  assert (Hvac : forall E,
            log wb = log w3 ++ E -> Forall P1 E ->
            exists evs,
              log (emit (Print (Say "Connections closed"))
                   (set_pg (PgConn (committed (pg (emit PgClose
                                       (emit SqliteClose
                                          (set_sqlite_open false wb)))))
                              (committed (pg (emit PgClose
                                       (emit SqliteClose
                                          (set_sqlite_open false wb)))))
                              false false)
                      (emit PgClose
                         (emit SqliteClose (set_sqlite_open false wb)))))
              = log w ++ evs /\
              (Print (Say "MIGRATION SUCCESSFUL!") ∈ evs ->
               Return tt = Return tt /\
               (exists nP nF,
                  Print (CountsMatch argo_profiles nP) ∈ evs /\
                  Print (CountsMatch argo_floats nF) ∈ evs) /\
               forall t a b, Print (CountsMismatch t a b) ∉ evs)).
  { intros E HlE HE. exists (S0 ++ E ++ T0). split; [by apply Hfin|].
    intros Hin. exfalso. revert Hin. apply Hquiet.
    apply Forall_app. split; [by apply HPP1|].
    apply Forall_app. split; [done|by apply HPP1]. }
  match type of Hbody with try_except ?m _ _ = _ =>
    assert (HR : respects_raising (logs P1) m)
  end.
  { apply respects_raising_bind; [apply _|by apply Hweak|intros _].
    apply respects_raising_bind; [apply _|by apply Hweak|intros _].
    apply respects_raising_bind; [apply _|by apply Hweak|intros _].
    apply respects_raising_bind; [apply _|exact Hvm|intros ok].
    apply respects_raising_never. destruct ok.
    - repeat (apply never_raises_bind; [apply never_raises_print|intros _]).
      apply never_raises_print.
    - apply never_raises_print. }
  apply try_except_inv in Hbody as [[Hbody Hne]|(e & wx & Hbody & He & Hh)].
  2:{ apply HR in Hbody as (E & HlE & HE).
      rewrite bind_print in Hh. injection Hh as _ <-.
      apply (Hvac (E ++ [Print (SayFailed "Migration failed" e);
                         Print (Say "traceback")])).
      - simpl. rewrite HlE. by rewrite <- !app_assoc.
      - apply Forall_app. split; [done|].
        by repeat (constructor; [ne_side|]). }
  destruct rb as [[]|e]; [|apply HR in Hbody as (E & HlE & HE); by eapply Hvac].
  apply bind_return_inv in Hbody as ([] & w4 & H4 & Hbody).
  apply Hct in H4 as (E4 & Hl4 & HE4).
  apply bind_return_inv in Hbody as (n5 & w5 & H5 & Hbody).
  apply Hmd in H5 as (E5 & Hl5 & HE5).
  apply bind_return_inv in Hbody as (n6 & w6 & H6 & Hbody).
  apply Hmd in H6 as (E6 & Hl6 & HE6).
  apply bind_return_inv in Hbody as (ok & w7 & H7 & Hbody).
  destruct ok.
  2:{ apply Hvm in H7 as (E7 & Hl7 & HE7). injection Hbody as <-.
      apply (Hvac (E4 ++ E5 ++ E6 ++ E7
                   ++ [Print (Say "Migration completed with errors")])).
      - simpl. rewrite Hl7, Hl6, Hl5, Hl4. by rewrite <- !app_assoc.
      - repeat (apply Forall_app; split; [by auto|]).
        by repeat (constructor; [ne_side|]). }
  apply verify_migration_true_inv in H7 as (nP & nF & Hl7).
  rewrite !bind_print in Hbody. injection Hbody as <-.
  eexists. split.
  { apply Hfin. simpl. rewrite Hl7, Hl6, Hl5, Hl4.
    rewrite <- !app_assoc. reflexivity. }
  intros _. split; [done|]. split.
  { exists nP, nF. rewrite !elem_of_app, !elem_of_cons. tauto. }
  intros t a b Hin.
  assert (Hno : forall l, Forall P l -> Print (CountsMismatch t a b) ∉ l).
  { intros l Hl Hinl. rewrite Forall_forall in Hl.
    by destruct (proj2 (Hl _ Hinl) t a b). }
  unfold T0 in Hin.
  rewrite !elem_of_app, !elem_of_cons, !elem_of_nil in Hin.
  repeat match goal with
         | Hor : _ \/ _ |- _ => destruct Hor as [Hor|Hor]
         end;
    match goal with
    | Hf : False |- _ => destruct Hf
    | Heq : @eq event _ _ |- _ => discriminate Heq
    | Hel : _ ∈ _ |- _ => by eapply Hno; [|exact Hel]
    end.
Qed.


(** *** A run of the bulk script that returns *)

Lemma create_schema_return_inv w w' c d :
  bulk_import_supabase.create_schema w = Some (Return tt, w') ->
  pg w = PgConn c d false true ->
  exists ss d1,
    schema_file w = Some ss /\ exec_ddls ss d = inr d1 /\
    pg w' = PgConn d1 d1 false true /\ csv_files w' = csv_files w.
Proof.
  unfold bulk_import_supabase.create_schema. rewrite !bind_print.
  intros Hrun Hpg.
  apply bind_return_inv in Hrun as (ss & w1 & Hread & Hrun).
  unfold read_schema_file in Hread. simpl in Hread.
  destruct (schema_file w) as [ss'|] eqn:Hss; [|done].
  injection Hread as -> <-.
  apply bind_return_inv in Hrun as ([] & w2 & Hexec & Hrun).
  apply pg_statement_inv in Hexec
    as [([] & d1 & _ & _ & Hexec & _ & ->)|[[e [=]] _]].
  simpl in Hexec. rewrite Hpg in Hexec. simpl in Hexec.
  destruct (exec_ddls ss d) as [|d1'] eqn:Hddl; [done|].
  injection Hexec as <-.
  apply bind_return_inv in Hrun as ([] & w3 & Hcommit & Hrun).
  apply pg_commit_inv_idle in Hcommit as [_ ->]; [|done|done].
  injection Hrun as <-. by exists ss, d1'.
Qed.

Lemma import_argo_floats_return_inv w w' d :
  bulk_import_supabase.import_argo_floats w = Some (Return tt, w') ->
  pg w = PgConn d d false true ->
  exists d' tb,
    stream_committed w argo_floats bulk_import_supabase.argo_floats_csv
      (Some argo_floats_columns) data_after_next d d' /\
    tables d !! argo_floats = Some tb /\
    pg w' = PgConn d' d' false true /\ csv_files w' = csv_files w.
Proof.
  unfold bulk_import_supabase.import_argo_floats. rewrite !bind_print.
  intros Hrun Hpg.
  apply bind_return_inv in Hrun as (f & w1 & Hread & Hrun).
  apply read_lines_inv in Hread as [-> [[e [=]]|(ls & Hfile & [= <-])]].
  rewrite !bind_print in Hrun. simpl in Hfile.
  destruct f as [|header lines]; simpl in Hrun; [done|].
  unfold bind at 1 in Hrun. simpl in Hrun.
  apply copy_commit_inv in Hrun; [|simpl; by rewrite Hpg].
  simpl in Hrun. rewrite Hpg in Hrun. simpl in Hrun.
  destruct Hrun as [[[e [=]] _]
    |(rows & tb & w2 & Hparse & Htb & Hpg2 & Hcsv2 & _ & _ & Hrun)].
  erewrite bind_return in Hrun.
  2:{ eapply pg_read_run; [exact Hpg2|]. by eapply tables_append_rows. }
  injection Hrun as <-.
  exists (append_rows argo_floats rows d), tb.
  split; [|by repeat split].
  exists (header :: lines), rows.
  split; [done|]. split; [done|]. split; [by eapply parse_rows_length|done].
Qed.

Lemma import_argo_profiles_return_inv w w' d :
  bulk_import_supabase.import_argo_profiles w = Some (Return tt, w') ->
  pg w = PgConn d d false true ->
  exists d' tb,
    stream_committed w argo_profiles bulk_import_supabase.argo_profiles_csv
      (Some argo_profiles_columns) data_after_next d d' /\
    tables d !! argo_profiles = Some tb /\
    pg w' = PgConn d' d' false true /\ csv_files w' = csv_files w.
Proof.
  unfold bulk_import_supabase.import_argo_profiles. rewrite !bind_print.
  intros Hrun Hpg.
  apply bind_return_inv in Hrun as (f & w1 & Hread & Hrun).
  apply read_lines_inv in Hread as [-> [[e [=]]|(ls & Hfile & [= <-])]].
  rewrite !bind_print in Hrun. simpl in Hfile.
  destruct f as [|header lines]; simpl in Hrun; [done|].
  unfold bind at 1 in Hrun. simpl in Hrun.
  apply copy_commit_inv in Hrun; [|simpl; by rewrite Hpg].
  simpl in Hrun. rewrite Hpg in Hrun. simpl in Hrun.
  destruct Hrun as [[[e [=]] _]
    |(rows & tb & w2 & Hparse & Htb & Hpg2 & Hcsv2 & _ & _ & Hrun)].
  erewrite bind_return in Hrun.
  2:{ eapply pg_read_run; [exact Hpg2|]. by eapply tables_append_rows. }
  rewrite !bind_print in Hrun. injection Hrun as <-.
  exists (append_rows argo_profiles rows d), tb.
  split; [|by repeat split].
  exists (header :: lines), rows.
  split; [done|]. split; [done|]. split; [by eapply parse_rows_length|done].
Qed.


(** X11.  A run of [bulk_import_supabase.main] that returns did all of
    its work: the schema file ran, the data of argo_floats.csv and then
    that of argo_profiles.csv were committed, each in full (the data of
    a file are the lines after its header, up to an end-of-data marker
    if it holds one: COPY reads no further), that is what is committed
    at the end, and the totals it printed are the row counts of the two
    tables. *)
Theorem bulk_main_success_sound w w' :
  bulk_import_supabase.main w = Some (Return tt, w') ->
  exists evs ss d1 d2 d3,
    log w' = log w ++ evs /\
    schema_file w = Some ss /\
    exec_ddls ss (committed (pg w)) = inr d1 /\
    stream_committed w argo_floats bulk_import_supabase.argo_floats_csv
      (Some argo_floats_columns) data_after_next d1 d2 /\
    stream_committed w argo_profiles bulk_import_supabase.argo_profiles_csv
      (Some argo_profiles_columns) data_after_next d2 d3 /\
    committed (pg w') = d3 /\
    Print (ImportedTotal argo_floats
             (Z.of_nat (length (rows_of d3 argo_floats)))) ∈ evs /\
    Print (ImportedTotal argo_profiles
             (Z.of_nat (length (rows_of d3 argo_profiles)))) ∈ evs.
Proof.
  unfold bulk_import_supabase.main. rewrite !bind_print. intros Hrun.
  set (T := fun _ : event => True).
  assert (HT : forall evs, Forall T evs) by (intros evs; by apply Forall_forall).
  apply try_except_inv in Hrun as [[Hbody _]|(e & w1 & _ & _ & Hh)].
  2:{ rewrite bind_print in Hh. unfold raise in Hh. done. }
  rewrite bind_print in Hbody.
  apply bind_return_inv in Hbody as ([] & x0 & Hgc & Hbody).
  assert (Hx0 : x0 = emit PgConnect
                  (set_pg (PgConn (committed (pg w)) (committed (pg w))
                             false true)
                     (emit (Print (Say "Connecting to Supabase PostgreSQL..."))
                        (emit (Print bulk_import_supabase.waves)
                           (emit (Print (Say "FloatChat ARGO Database Migration"))
                              (emit (Print (Say "SUPABASE BULK DATA IMPORT"))
                                 (emit (Print bulk_import_supabase.waves) w))))))).
  { revert Hgc. unfold bulk_import_supabase.get_connection, bind,
      read_connection_file, pg_connect. simpl.
    destruct (conn_string_file w); simpl; [|done].
    destruct (pg_reachable w); simpl; [|done]. by intros [= <-]. }
  clear Hgc. rewrite bind_print in Hbody.
  match type of Hbody with _ ?w0 = _ => set (x0' := w0) in * end.
  assert (Hpg0 : pg x0' = PgConn (committed (pg w)) (committed (pg w))
                            false true) by (by subst x0' x0).
  assert (Hcsv0 : csv_files x0' = csv_files w) by (by subst x0' x0).
  assert (Hsch0 : schema_file x0' = schema_file w) by (by subst x0' x0).
  assert (Hlog0 : exists E0, log x0' = log w ++ E0).
  { subst x0' x0. simpl. eexists. rewrite <- !app_assoc. reflexivity. }
  destruct Hlog0 as [E0 Hlog0]. clearbody x0'. clear Hx0 x0.
  apply bind_return_inv in Hbody as ([] & x1 & H1 & Hbody).
  assert (Hl1 : logs T x0' x1).
  { revert H1. generalize x0' (Return (A:=unit) tt) x1.
    unfold bulk_import_supabase.create_schema. repeat logs_step. }
  eapply create_schema_return_inv in H1
    as (ss & d1 & Hss & Hddl & Hpg1 & Hcsv1); [|exact Hpg0].
  apply bind_return_inv in Hbody as ([] & x2 & H2 & Hbody).
  assert (Hl2 : logs T x1 x2).
  { revert H2. generalize x1 (Return (A:=unit) tt) x2.
    unfold bulk_import_supabase.import_argo_floats. repeat logs_step. }
  eapply import_argo_floats_return_inv in H2
    as (d2 & tF & HF & HtF & Hpg2 & Hcsv2); [|exact Hpg1].
  apply bind_return_inv in Hbody as ([] & x3 & H3 & Hbody).
  assert (Hl3 : logs T x2 x3).
  { revert H3. generalize x2 (Return (A:=unit) tt) x3.
    unfold bulk_import_supabase.import_argo_profiles. repeat logs_step. }
  eapply import_argo_profiles_return_inv in H3
    as (d3 & tP & HP & HtP & Hpg3 & Hcsv3); [|exact Hpg2].
  pose proof HF as (fF & rowsF & _ & _ & _ & Hd2).
  pose proof HP as (fP & rowsP & _ & _ & _ & Hd3).
  assert (Ht3P : tables d3 !! argo_profiles
                 = Some (Table (t_cols tP) (t_rows tP ++ rowsP))).
  { rewrite Hd3. by eapply tables_append_rows. }
  assert (Ht3F : tables d3 !! argo_floats
                 = Some (Table (t_cols tF) (t_rows tF ++ rowsF))).
  { rewrite Hd3, tables_append_rows_ne by done. rewrite Hd2.
    by eapply tables_append_rows. }
  destruct (verify_import_run x3 d3 d3 _ _ Hpg3 Ht3F Ht3P)
    as (x4 & Hver & Hl4 & Hpg4).
  erewrite bind_return in Hbody by exact Hver.
  injection Hbody as <-.
  destruct Hl1 as (E1 & Hl1 & _), Hl2 as (E2 & Hl2 & _), Hl3 as (E3 & Hl3 & _).
  eexists _, ss, d1, d2, d3. simpl.
  rewrite Hl4, Hl3, Hl2, Hl1, Hlog0.
  split; [rewrite <- !app_assoc; reflexivity|].
  split; [congruence|]. split; [done|].
  unfold stream_committed in *.
  rewrite Hcsv1, Hcsv0 in HF. rewrite Hcsv2, Hcsv1, Hcsv0 in HP.
  split; [done|]. split; [done|].
  split; [by rewrite Hpg4, Hpg3|].
  unfold rows_of. rewrite Ht3F, Ht3P. simpl. unfold row_count. simpl.
  repeat first [rewrite elem_of_app | rewrite elem_of_cons]. tauto.
Qed.

End Properties.

(** * The export to CSV *)

Section ExportToCsv.
Context `{!Destination, !CsvWriter}.
Import export_to_csv.
Local Open Scope export_scope.

Lemma and_then_done {A B} (m : E A) (k : A -> E B) w a w1 :
  m w = Some (Done a, w1) -> and_then m k w = k a w1.
Proof. unfold and_then. by intros ->. Qed.

Lemma and_then_failed {A B} (m : E A) (k : A -> E B) w e w1 :
  m w = Some (Failed e, w1) -> and_then m k w = Some (Failed e, w1).
Proof. unfold and_then. by intros ->. Qed.

Lemma and_then_print {B} m (k : unit -> E B) w :
  and_then (lift (print m)) k w = k tt (emit (Print m) w).
Proof. reflexivity. Qed.

Lemma and_then_write_lines {B} path lines (k : unit -> E B) w :
  and_then (lift (write_lines path lines)) k w
  = k tt (set_csv_files
            (<[path := default [] (csv_files w !! path) ++ lines]>
               (csv_files w)) w).
Proof. reflexivity. Qed.

Lemma same_stores_refl w : same_stores w w.
Proof. by repeat split. Qed.

Lemma same_stores_trans w1 w2 w3 :
  same_stores w1 w2 -> same_stores w2 w3 -> same_stores w1 w3.
Proof.
  intros (H1 & H2 & H3 & H4 & H5) (K1 & K2 & K3 & K4 & K5).
  repeat split; congruence.
Qed.

(** *** The loop of [export_to_csv] *)

(** The loop uses up the cursor, a batch a turn, unless its first
    progress line divides by zero. *)
Lemma write_batches_run fuel path size total :
  (0 < size)%nat ->
  forall cursor rows_written w old,
    (length cursor < fuel)%nat ->
    csv_files w !! path = Some old ->
    exists r w' evs,
      write_batches fuel path size total cursor rows_written w
      = Some (r, w') /\
      log w' = log w ++ evs /\ Forall is_progress evs /\
      same_stores w w' /\
      sqlite_clock w' = sqlite_clock w /\ sqlite_open w' = sqlite_open w /\
      (total = 0 -> cursor <> [] ->
       r = Failed ZeroDivisionError /\
       csv_files w'
       = <[path := old ++ (writerow <$> take size cursor)]> (csv_files w)) /\
      (total <> 0 \/ cursor = [] ->
       r = Done (rows_written + Z.of_nat (length cursor)) /\
       csv_files w' = <[path := old ++ (writerow <$> cursor)]> (csv_files w)).
Proof.
  intros Hsize. induction fuel as [|fuel IH];
    intros cursor rows_written w old Hfuel Hold; [simpl in Hfuel; lia|].
  destruct cursor as [|r0 cursor].
  - exists (Done rows_written), w, []. simpl. unfold fetchmany.
    rewrite take_nil. simpl.
    split; [done|]. split; [by rewrite app_nil_r|]. split; [constructor|].
    split; [apply same_stores_refl|]. split; [done|]. split; [done|].
    split; [done|]. intros _. split; [f_equal; lia|].
    rewrite app_nil_r. by rewrite insert_id.
  - destruct size as [|size]; [lia|].
    cbn [write_batches fetchmany take drop].
    rewrite and_then_write_lines, Hold. cbn [default].
    destruct (Z.eqb_spec total 0) as [Hz|Hnz].
    + eexists _, _, []. split; [reflexivity|]. simpl.
      split; [by rewrite app_nil_r|]. split; [constructor|].
      split; [by repeat split|]. split; [done|]. split; [done|].
      split; [done|]. by intros [?|?].
    + cbn [and_then done]. rewrite and_then_print.
      set (w1 := emit _ _).
      destruct (IH (drop size cursor)
                  (rows_written + Z.of_nat (length (r0 :: take size cursor)))
                  w1 (old ++ (writerow <$> r0 :: take size cursor)))
        as (r & w' & evs & Hrun & Hlog & Hevs & Hsame & Hclock & Hopen
            & _ & Hdone).
      { rewrite length_drop. simpl in Hfuel. lia. }
      { subst w1. simpl. by rewrite lookup_insert_eq. }
      destruct Hdone as [-> Hfiles]; [by left|].
      eexists _, w', (_ :: evs). split; [exact Hrun|].
      split; [rewrite Hlog; subst w1; simpl; by rewrite <- app_assoc|].
      split; [constructor; [by eexists _, _|done]|].
      split; [exact Hsame|]. split; [exact Hclock|]. split; [exact Hopen|].
      split; [done|]. intros _. split.
      * f_equal. simpl. rewrite length_drop, length_take. simpl in Hfuel. lia.
      * assert (Hw1 : csv_files w1
                      = <[path := old ++ (writerow <$> r0 :: take size cursor)]>
                          (csv_files w)) by reflexivity.
        rewrite Hfiles, Hw1, insert_insert_eq, <- app_assoc, <- fmap_app.
        do 3 f_equal. simpl. by rewrite take_drop.
Qed.

Lemma and_then_sqlite_connect {B} (k : unit -> E B) w :
  and_then (lift sqlite_connect) k w
  = k tt (emit SqliteConnect (set_sqlite_open true w)).
Proof. reflexivity. Qed.

Lemma and_then_sqlite_close {B} (k : unit -> E B) w :
  and_then (lift sqlite_close) k w
  = k tt (emit SqliteClose (set_sqlite_open false w)).
Proof. reflexivity. Qed.

Lemma and_then_open_for_writing {B} path (k : unit -> E B) w :
  and_then (lift (open_for_writing path)) k w
  = k tt (set_csv_files (<[path := []]> (csv_files w)) w).
Proof. reflexivity. Qed.

Lemma lift_sqlite_count t w tb :
  sqlite_open w = true ->
  sqlite_db w (sqlite_clock w) !! t = Some tb ->
  lift (sqlite_count t) w
  = Some (Done (row_count tb),
          emit (SqliteCount t (row_count tb)) (tick w)).
Proof.
  intros Hopen Htb. unfold lift, sqlite_count, sqlite_query.
  by rewrite Hopen, Htb.
Qed.

Lemma lift_sqlite_count_missing t w :
  sqlite_open w = true ->
  sqlite_db w (sqlite_clock w) !! t = None ->
  lift (sqlite_count t) w
  = Some (Failed (Raised (DatabaseError (NoSuchTable t))), tick w).
Proof.
  intros Hopen Htb. unfold lift, sqlite_count, sqlite_query.
  by rewrite Hopen, Htb.
Qed.

Lemma lift_sqlite_select_all t w tb :
  sqlite_open w = true ->
  sqlite_db w (sqlite_clock w) !! t = Some tb ->
  lift (sqlite_select_all t) w = Some (Done (t_cols tb, t_rows tb), tick w).
Proof.
  intros Hopen Htb. unfold lift, sqlite_select_all.
  by rewrite Hopen, Htb.
Qed.

Lemma lift_sqlite_select_all_missing t w :
  sqlite_open w = true ->
  sqlite_db w (sqlite_clock w) !! t = None ->
  lift (sqlite_select_all t) w
  = Some (Failed (Raised (DatabaseError (NoSuchTable t))), tick w).
Proof.
  intros Hopen Htb. unfold lift, sqlite_select_all.
  by rewrite Hopen, Htb.
Qed.

Ltac listed := apply list_elem_of_In; simpl; tauto.
Ltac unlisted H :=
  apply list_elem_of_In in H; simpl in H;
  repeat first [discriminate H | destruct H as [H|H] | destruct H].

Lemma progress_not_say evs text :
  Forall is_progress evs -> Print (Say text) ∉ evs.
Proof.
  intros Hevs Hin. rewrite Forall_forall in Hevs.
  by destruct (Hevs _ Hin) as (a & b & [=]).
Qed.

Lemma progress_not_close evs :
  Forall is_progress evs -> SqliteClose ∉ evs.
Proof.
  intros Hevs Hin. rewrite Forall_forall in Hevs.
  by destruct (Hevs _ Hin) as (a & b & [=]).
Qed.

(** With a total of zero, the first batch that is not empty ends the
    loop. *)
Lemma write_batches_fails fuel path size cursor rows_written w :
  (0 < size)%nat -> cursor <> [] ->
  write_batches (S fuel) path size 0 cursor rows_written w
  = Some (Failed ZeroDivisionError,
          set_csv_files
            (<[path := default [] (csv_files w !! path)
                       ++ (writerow <$> take size cursor)]> (csv_files w)) w).
Proof.
  intros Hsize Hrows.
  destruct size as [|size]; [lia|].
  destruct cursor as [|r0 cursor]; [congruence|].
  cbn [write_batches fetchmany take drop].
  rewrite and_then_write_lines. cbn [Z.eqb and_then fail]. reflexivity.
Qed.

(** *** One table exported *)

(** A run of [export_to_csv] over a table that is there when it is
    counted ([tb0]) and when it is selected ([tb1]). *)
Lemma export_to_csv_run fuel t path w tb0 tb1 :
  sqlite_db w (sqlite_clock w) !! t = Some tb0 ->
  sqlite_db w (S (sqlite_clock w)) !! t = Some tb1 ->
  (length (t_rows tb1) < fuel)%nat ->
  exists r w' evs,
    export_to_csv fuel t path w = Some (r, w') /\
    log w' = log w ++ evs /\
    same_stores w w' /\
    sqlite_clock w' = S (S (sqlite_clock w)) /\
    Print (TotalRows (row_count tb0)) ∈ evs /\
    (t_rows tb0 = [] -> t_rows tb1 <> [] ->
     r = Failed ZeroDivisionError /\
     csv_files w'
     = <[path := exported_lines
                   (Table (t_cols tb1) (take batch_size (t_rows tb1)))]>
         (csv_files w) /\
     sqlite_open w' = true /\
     (Print (Say ("Exported to: " ++ path)) ∉ evs) /\ (SqliteClose ∉ evs)) /\
    (t_rows tb0 <> [] \/ t_rows tb1 = [] ->
     r = Done (row_count tb1) /\
     csv_files w' = <[path := exported_lines tb1]> (csv_files w) /\
     sqlite_open w' = false /\
     last evs = Some SqliteClose).
Proof.
  intros Htb0 Htb1 Hfuel. unfold export_to_csv.
  rewrite and_then_print, and_then_sqlite_connect.
  erewrite and_then_done by (by apply lift_sqlite_count).
  rewrite and_then_print.
  erewrite and_then_done by (by apply lift_sqlite_select_all).
  rewrite and_then_open_for_writing, and_then_write_lines.
  cbn [fst snd].
  set (w1 := set_csv_files _ _).
  assert (Hsize : (0 < batch_size)%nat) by (unfold batch_size; lia).
  destruct (write_batches_run fuel path batch_size (row_count tb0) Hsize
              (t_rows tb1) 0 w1 [writerow (Text <$> t_cols tb1)] Hfuel)
    as (r & w2 & evs & Hrun & Hlog & Hevs & Hsame & Hclock & Hopen
        & Hfail & Hdone).
  { subst w1. simpl. by rewrite !lookup_insert_eq. }
  assert (Hfiles1 : forall ls,
            <[path := ls]> (csv_files w1) = <[path := ls]> (csv_files w)).
  { intros ls. subst w1. simpl. by rewrite !insert_insert_eq. }
  assert (Hlog1 : log w1 = log w ++
            [Print (Say ("Exporting " ++ t ++ "...")); SqliteConnect;
             SqliteCount t (row_count tb0);
             Print (TotalRows (row_count tb0))]).
  { subst w1. simpl. by rewrite <- !app_assoc. }
  assert (Hsame1 : same_stores w w1) by by repeat split.
  destruct (decide (t_rows tb0 = [] /\ t_rows tb1 <> [])) as [[He0 He1]|Hok].
  - destruct Hfail as [-> Hfiles]; [unfold row_count; by rewrite He0|done|].
    erewrite and_then_failed by exact Hrun.
    eexists _, w2,
      ([Print (Say ("Exporting " ++ t ++ "...")); SqliteConnect;
        SqliteCount t (row_count tb0); Print (TotalRows (row_count tb0))]
       ++ evs).
    split; [reflexivity|].
    split; [by rewrite Hlog, Hlog1, <- app_assoc|].
    split; [by eapply same_stores_trans|]. split; [by rewrite Hclock|].
    split; [rewrite elem_of_app; left; listed|].
    split; [|intros [?|?]; done]. intros _ _.
    split; [done|]. split; [by rewrite Hfiles, Hfiles1|].
    split; [by rewrite Hopen|].
    split.
    + rewrite elem_of_app. intros [Hin|Hin].
      * unlisted Hin.
      * by eapply progress_not_say.
    + rewrite elem_of_app. intros [Hin|Hin].
      * unlisted Hin.
      * by eapply progress_not_close.
  - destruct Hdone as [-> Hfiles].
    { destruct (decide (t_rows tb0 = [])) as [He0|He0].
      - right. destruct (decide (t_rows tb1 = [])); [done|]. by destruct Hok.
      - left. unfold row_count. destruct (t_rows tb0); [done|]. simpl. lia. }
    erewrite and_then_done by exact Hrun.
    rewrite and_then_print, and_then_sqlite_close.
    eexists _, _,
      ([Print (Say ("Exporting " ++ t ++ "...")); SqliteConnect;
        SqliteCount t (row_count tb0); Print (TotalRows (row_count tb0))]
       ++ evs ++ [Print (Say ("Exported to: " ++ path)); SqliteClose]).
    split; [reflexivity|].
    split; [cbn [log emit set_sqlite_open];
            rewrite Hlog, Hlog1, <- !app_assoc; reflexivity|].
    split.
    { eapply same_stores_trans; [exact Hsame1|].
      eapply same_stores_trans; [exact Hsame|]. by repeat split. }
    split; [cbn [sqlite_clock emit set_sqlite_open]; by rewrite Hclock|].
    split; [rewrite elem_of_app; left; listed|].
    split.
    + intros He0 He1. destruct Hok. by split.
    + intros _. split; [done|].
      split; [cbn [csv_files emit set_sqlite_open];
              by rewrite Hfiles, Hfiles1|].
      split; [reflexivity|].
      rewrite !last_app. reflexivity.
Qed.

(** X14.  [export_to_csv] over a table that is in the source when it is
    counted and when it is selected, and that was not empty at the count
    if it has rows at the select.  The file is replaced by the header
    line and one line a row of the table as the SELECT found it, in
    order; the count returned is that of the rows written, whatever
    total was printed; the connection is closed and neither store nor
    any other file is touched. *)
Theorem export_to_csv_writes_table fuel t path w tb0 tb1 :
  sqlite_db w (sqlite_clock w) !! t = Some tb0 ->
  sqlite_db w (S (sqlite_clock w)) !! t = Some tb1 ->
  (t_rows tb0 = [] -> t_rows tb1 = []) ->
  (length (t_rows tb1) < fuel)%nat ->
  exists w' evs,
    export_to_csv fuel t path w = Some (Done (row_count tb1), w') /\
    log w' = log w ++ evs /\
    csv_files w' = <[path := exported_lines tb1]> (csv_files w) /\
    sqlite_open w' = false /\ same_stores w w' /\
    Print (TotalRows (row_count tb0)) ∈ evs.
Proof.
  intros Htb0 Htb1 Hrows Hfuel.
  destruct (export_to_csv_run fuel t path w tb0 tb1 Htb0 Htb1 Hfuel)
    as (r & w' & evs & Hrun & Hlog & Hsame & _ & Htotal & _ & Hdone).
  destruct Hdone as (-> & Hfiles & Hopen & _).
  { destruct (decide (t_rows tb0 = [])) as [He|He]; [right; auto|by left]. }
  exists w', evs. split; [exact Hrun|]. split; [exact Hlog|].
  split; [exact Hfiles|]. split; [exact Hopen|]. by split.
Qed.

(** X15.  How [export_to_csv] fails.  A table missing at the count or
    at the select raises the database's error before the output file is
    opened: no file is created or emptied.  A table counted empty that
    has rows at the select makes the first progress line divide by
    zero: the file is left with the header and the first batch, and the
    line that reports the export is not printed.  In each case the
    connection is left open. *)
Theorem export_to_csv_failures fuel t path w :
  (sqlite_db w (sqlite_clock w) !! t = None \/
   (is_Some (sqlite_db w (sqlite_clock w) !! t) /\
    sqlite_db w (S (sqlite_clock w)) !! t = None) ->
   exists w',
     export_to_csv fuel t path w
     = Some (Failed (Raised (DatabaseError (NoSuchTable t))), w') /\
     csv_files w' = csv_files w /\ sqlite_open w' = true) /\
  (forall tb0 tb1,
     sqlite_db w (sqlite_clock w) !! t = Some tb0 ->
     sqlite_db w (S (sqlite_clock w)) !! t = Some tb1 ->
     t_rows tb0 = [] -> t_rows tb1 <> [] ->
     (0 < fuel)%nat ->
     exists w' evs,
       export_to_csv fuel t path w = Some (Failed ZeroDivisionError, w') /\
       log w' = log w ++ evs /\
       csv_files w'
       = <[path := exported_lines
                     (Table (t_cols tb1) (take batch_size (t_rows tb1)))]>
           (csv_files w) /\
       sqlite_open w' = true /\
       (Print (Say ("Exported to: " ++ path)) ∉ evs)).
Proof.
  split.
  - intros [Hnone|[[tb0 Htb0] Hnone]]; unfold export_to_csv;
      rewrite and_then_print, and_then_sqlite_connect.
    + erewrite and_then_failed by (by apply lift_sqlite_count_missing).
      by eexists.
    + erewrite and_then_done by (by apply lift_sqlite_count).
      rewrite and_then_print.
      erewrite and_then_failed by (by apply lift_sqlite_select_all_missing).
      by eexists.
  - intros tb0 tb1 Htb0 Htb1 He0 He1 Hfuel. unfold export_to_csv.
    rewrite and_then_print, and_then_sqlite_connect.
    erewrite and_then_done by (by apply lift_sqlite_count).
    rewrite and_then_print.
    erewrite and_then_done by (by apply lift_sqlite_select_all).
    rewrite and_then_open_for_writing, and_then_write_lines.
    cbn [fst snd].
    destruct fuel as [|fuel]; [lia|].
    assert (Hsize : (0 < batch_size)%nat) by (unfold batch_size; lia).
    unfold row_count. rewrite He0.
    erewrite and_then_failed.
    2:{ apply write_batches_fails; [exact Hsize|exact He1]. }
    eexists _, [_; _; _; _]. split; [reflexivity|].
    split; [cbn [log emit set_csv_files tick set_sqlite_open];
            by rewrite <- !app_assoc|].
    split.
    { cbn [csv_files emit set_csv_files tick set_sqlite_open default].
      rewrite !lookup_insert_eq. cbn [default].
      rewrite !insert_insert_eq. reflexivity. }
    split; [done|]. intros Hin. unlisted Hin.
Qed.

(** *** [main] *)

Lemma and_then_sqlite_tables {B} (k : list string -> E B) w :
  sqlite_open w = true ->
  and_then (lift sqlite_tables) k w
  = let names := (map_to_list (sqlite_db w (sqlite_clock w))).*1 in
    k names (emit (SqliteTables names) (tick w)).
Proof.
  intros Hopen. unfold and_then, lift, sqlite_tables, sqlite_query.
  by rewrite Hopen.
Qed.

Lemma required_tables_check (d : gmap string table) :
  negb (bool_decide (argo_profiles ∈ (map_to_list d).*1))
  || negb (bool_decide (argo_floats ∈ (map_to_list d).*1))
  = negb (bool_decide (has_required_tables d)).
Proof.
  unfold has_required_tables.
  destruct (decide (is_Some (d !! argo_profiles))) as [HP|HP];
    destruct (decide (is_Some (d !! argo_floats))) as [HF|HF].
  - rewrite !bool_decide_eq_true_2; [done|by split| |];
      by apply elem_of_table_names.
  - rewrite (bool_decide_eq_false_2 (argo_floats ∈ _))
      by by rewrite elem_of_table_names.
    rewrite (bool_decide_eq_false_2 (_ /\ _)) by by intros [_ ?].
    by rewrite orb_true_r.
  - rewrite (bool_decide_eq_false_2 (argo_profiles ∈ _))
      by by rewrite elem_of_table_names.
    by rewrite (bool_decide_eq_false_2 (_ /\ _)) by by intros [? _].
  - rewrite (bool_decide_eq_false_2 (argo_profiles ∈ _))
      by by rewrite elem_of_table_names.
    by rewrite (bool_decide_eq_false_2 (_ /\ _)) by by intros [? _].
Qed.

(** X16.  [main] of the export without a required table in the source:
    it prints that the tables were not found and returns normally,
    having written no file, and without closing the connection it
    opened. *)
Theorem export_main_missing_tables fuel w :
  ~ has_required_tables (sqlite_db w (sqlite_clock w)) ->
  exists w' evs,
    main fuel w = Some (Done tt, w') /\
    log w' = log w ++ evs /\
    last evs = Some (Print (Say "Required tables not found")) /\
    csv_files w' = csv_files w /\
    sqlite_open w' = true /\ (SqliteClose ∉ evs).
Proof.
  intros Hno. unfold main.
  rewrite !and_then_print, and_then_sqlite_connect.
  rewrite and_then_sqlite_tables by reflexivity.
  cbv zeta. cbn [sqlite_db sqlite_clock emit set_sqlite_open].
  rewrite required_tables_check, bool_decide_eq_false_2 by exact Hno.
  cbn [negb].
  eexists _, [_; _; _; _; _; _; _]. split; [reflexivity|].
  split; [cbn [log emit tick set_sqlite_open]; by rewrite <- !app_assoc|].
  split; [reflexivity|]. split; [reflexivity|]. split; [reflexivity|].
  intros Hin. unlisted Hin.
Qed.

Lemma next_steps_run w :
  exists w' evs,
    lift next_steps w = Some (Done tt, w') /\
    log w' = log w ++ evs /\ same_stores w w' /\
    csv_files w' = csv_files w /\ sqlite_open w' = sqlite_open w.
Proof.
  eexists _, [_; _; _; _; _; _; _; _; _; _; _; _; _; _; _; _].
  split; [reflexivity|].
  split; [cbn [log emit]; by rewrite <- !app_assoc|]. by repeat split.
Qed.

(** [main] over a source that does not change. *)
Lemma export_main_run fuel w src sF sP :
  (forall k, sqlite_db w k = src) ->
  src !! argo_floats = Some sF -> src !! argo_profiles = Some sP ->
  (length (t_rows sF) < fuel)%nat -> (length (t_rows sP) < fuel)%nat ->
  exists w' evs,
    main fuel w = Some (Done tt, w') /\
    log w' = log w ++ evs /\
    csv_files w'
    = <["argo_profiles.csv" := exported_lines sP]>
        (<["argo_floats.csv" := exported_lines sF]> (csv_files w)) /\
    sqlite_open w' = false /\ same_stores w w' /\
    Print (Say "EXPORT COMPLETE!") ∈ evs.
Proof.
  intros Hsrc HF HP HfuelF HfuelP. unfold main.
  rewrite !and_then_print, and_then_sqlite_connect.
  rewrite and_then_sqlite_tables by reflexivity.
  cbv zeta. cbn [sqlite_db sqlite_clock emit set_sqlite_open].
  rewrite required_tables_check, bool_decide_eq_true_2
    by (rewrite Hsrc; by split).
  cbn [negb]. rewrite and_then_print, and_then_sqlite_close.
  set (w0 := emit SqliteClose _).
  assert (Hsame0 : same_stores w w0) by by repeat split.
  assert (Hdb : forall w1, same_stores w w1 ->
                           forall k, sqlite_db w1 k = src).
  { intros w1 (-> & _) k. apply Hsrc. }
  destruct (export_to_csv_run fuel argo_floats "argo_floats.csv" w0 sF sF)
    as (r1 & w1 & evs1 & Hrun1 & Hlog1 & Hsame1 & _ & _ & _ & Hdone1);
    [by rewrite (Hdb w0 Hsame0)..|exact HfuelF|].
  destruct Hdone1 as (-> & Hfiles1 & _).
  { destruct (t_rows sF); [by right|by left]. }
  erewrite and_then_done by exact Hrun1.
  assert (Hsame01 : same_stores w w1) by by eapply same_stores_trans.
  destruct (export_to_csv_run fuel argo_profiles "argo_profiles.csv" w1 sP sP)
    as (r2 & w2 & evs2 & Hrun2 & Hlog2 & Hsame2 & _ & _ & _ & Hdone2);
    [by rewrite (Hdb w1 Hsame01)..|exact HfuelP|].
  destruct Hdone2 as (-> & Hfiles2 & Hopen2 & _).
  { destruct (t_rows sP); [by right|by left]. }
  erewrite and_then_done by exact Hrun2.
  rewrite !and_then_print.
  set (w3 := emit (Print (rule 60)) _).
  destruct (next_steps_run w3) as (w4 & evs4 & Hrun4 & Hlog4 & Hsame4
                                   & Hfiles4 & Hopen4).
  exists w4.
  exists ([Print (rule 60); Print (Say "ARGO Database CSV Export");
           Print (rule 60); Print (Say "Connecting to SQLite...");
           SqliteConnect;
           SqliteTables (map_to_list (sqlite_db w (sqlite_clock w))).*1;
           Print (SayTables "Found tables"
                    (filter (fun t => t <> "sqlite_sequence")
                       (map_to_list (sqlite_db w (sqlite_clock w))).*1));
           SqliteClose]
          ++ evs1 ++ evs2
          ++ [Print (rule 60); Print (Say "EXPORT COMPLETE!");
              Print (rule 60)] ++ evs4).
  split; [exact Hrun4|].
  split.
  { rewrite Hlog4. subst w3. cbn [log emit]. rewrite Hlog2, Hlog1.
    subst w0. cbn [log emit tick set_sqlite_open].
    rewrite <- !app_assoc. reflexivity. }
  split.
  { rewrite Hfiles4. subst w3. cbn [csv_files emit].
    by rewrite Hfiles2, Hfiles1. }
  split; [by rewrite Hopen4|].
  split.
  { eapply same_stores_trans; [exact Hsame01|].
    eapply same_stores_trans; [exact Hsame2|].
    eapply same_stores_trans; [|exact Hsame4]. by repeat split. }
  rewrite !elem_of_app. right. right. right. left. listed.
Qed.

(** *** From the export to the bulk import *)

Lemma parse_rows_written t cols (back : Row -> Row) rows :
  Forall (fun r => parse_row t cols (writerow r) = Some (back r)) rows ->
  parse_rows t cols (writerow <$> rows) = inr (back <$> rows).
Proof.
  induction 1 as [|r rows Hr _ IH]; [done|].
  cbn [fmap list_fmap parse_rows]. rewrite Hr.
  change (list_fmap Row string writerow rows) with (writerow <$> rows).
  by rewrite IH.
Qed.

(** Lines that COPY reads as rows hold no end-of-data marker. *)
Lemma copy_data_written t cols (back : Row -> Row) rows :
  Forall (fun r => parse_row t cols (writerow r) = Some (back r)) rows ->
  copy_data (writerow <$> rows) = writerow <$> rows.
Proof.
  intros Hrows. apply copy_data_fixed.
  intros (r & Hr & Hin)%list_elem_of_fmap.
  rewrite Forall_forall in Hrows. specialize (Hrows r Hin).
  rewrite <- Hr, parse_row_end_of_data in Hrows. discriminate Hrows.
Qed.

Lemma import_argo_floats_run w header ls d tb rows :
  csv_files w !! bulk_import_supabase.argo_floats_csv = Some (header :: ls) ->
  pg w = PgConn d d false true ->
  tables d !! argo_floats = Some tb ->
  parse_rows argo_floats (Some argo_floats_columns) (copy_data ls)
  = inr rows ->
  (exists res,
     insert_rows argo_floats argo_floats_columns (t_rows tb) rows = inr res) ->
  exists w',
    bulk_import_supabase.import_argo_floats w = Some (Return tt, w') /\
    pg w' = (let d' := append_rows argo_floats rows d in
             PgConn d' d' false true) /\
    csv_files w' = csv_files w.
Proof.
  intros Hfile Hpg Htb Hparse [res Hins].
  unfold bulk_import_supabase.import_argo_floats.
  rewrite !bind_print.
  erewrite bind_return by (unfold read_lines; cbn [csv_files emit];
                           by rewrite Hfile).
  rewrite !bind_print. cbn [bulk_import_supabase.skip_header].
  erewrite bind_return by reflexivity.
  erewrite bind_return.
  2:{ unfold pg_copy_expert, pg_statement. simpl. rewrite Hpg. simpl.
      unfold copy_rows. rewrite Htb, Hparse. simpl.
      unfold insert_many. rewrite Htb, Hins. reflexivity. }
  erewrite bind_return by (by eapply pg_commit_run).
  erewrite bind_return.
  2:{ eapply pg_read_run; [reflexivity|]. by apply tables_append_rows. }
  eexists. split; [reflexivity|]. by split.
Qed.

Lemma import_argo_profiles_run w header ls d tb rows :
  csv_files w !! bulk_import_supabase.argo_profiles_csv
  = Some (header :: ls) ->
  pg w = PgConn d d false true ->
  tables d !! argo_profiles = Some tb ->
  parse_rows argo_profiles (Some argo_profiles_columns) (copy_data ls)
  = inr rows ->
  (exists res,
     insert_rows argo_profiles argo_profiles_columns (t_rows tb) rows
     = inr res) ->
  exists w',
    bulk_import_supabase.import_argo_profiles w = Some (Return tt, w') /\
    pg w' = (let d' := append_rows argo_profiles rows d in
             PgConn d' d' false true) /\
    csv_files w' = csv_files w.
Proof.
  intros Hfile Hpg Htb Hparse [res Hins].
  unfold bulk_import_supabase.import_argo_profiles.
  rewrite !bind_print.
  erewrite bind_return by (unfold read_lines; cbn [csv_files emit];
                           by rewrite Hfile).
  rewrite !bind_print. cbn [bulk_import_supabase.skip_header].
  erewrite bind_return by reflexivity.
  erewrite bind_return.
  2:{ unfold pg_copy_expert, pg_statement. simpl. rewrite Hpg. simpl.
      unfold copy_rows. rewrite Htb, Hparse. simpl.
      unfold insert_many. rewrite Htb, Hins. reflexivity. }
  erewrite bind_return by (by eapply pg_commit_run).
  erewrite bind_return.
  2:{ eapply pg_read_run; [reflexivity|]. by apply tables_append_rows. }
  rewrite !bind_print. eexists. split; [reflexivity|]. by split.
Qed.

(** X17.  From the export to the bulk import, over a source that does
    not change.  [main] of the export writes the two files; then
    [import_argo_floats] and [import_argo_profiles] of the bulk import,
    run on those files, return, and each destination table has gained
    one row a source row, in the source's order: the row COPY reads
    back from the line csv.writer wrote.  This needs a destination that
    holds the two tables, reads every written line back as some row
    and takes these rows. *)
Theorem export_then_bulk_import fuel w src sF sP d tF tP back :
  (forall k, sqlite_db w k = src) ->
  src !! argo_floats = Some sF -> src !! argo_profiles = Some sP ->
  (length (t_rows sF) < fuel)%nat -> (length (t_rows sP) < fuel)%nat ->
  pg w = PgConn d d false true ->
  tables d !! argo_floats = Some tF -> tables d !! argo_profiles = Some tP ->
  Forall (fun r => parse_row argo_floats (Some argo_floats_columns)
                     (writerow r) = Some (back r)) (t_rows sF) ->
  Forall (fun r => parse_row argo_profiles (Some argo_profiles_columns)
                     (writerow r) = Some (back r)) (t_rows sP) ->
  (exists res,
     insert_rows argo_floats argo_floats_columns (t_rows tF)
       (back <$> t_rows sF) = inr res) ->
  (exists res,
     insert_rows argo_profiles argo_profiles_columns (t_rows tP)
       (back <$> t_rows sP) = inr res) ->
  exists w1 w2 w3,
    main fuel w = Some (Done tt, w1) /\
    bulk_import_supabase.import_argo_floats w1 = Some (Return tt, w2) /\
    bulk_import_supabase.import_argo_profiles w2 = Some (Return tt, w3) /\
    rows_of (committed (pg w3)) argo_floats
    = t_rows tF ++ (back <$> t_rows sF) /\
    rows_of (committed (pg w3)) argo_profiles
    = t_rows tP ++ (back <$> t_rows sP).
Proof.
  intros Hsrc HsF HsP HfuelF HfuelP Hpg HtF HtP HbackF HbackP HinsF HinsP.
  destruct (export_main_run fuel w src sF sP Hsrc HsF HsP HfuelF HfuelP)
    as (w1 & evs & Hrun1 & _ & Hfiles1 & _ & (_ & Hpg1 & _) & _).
  assert (Hne : argo_floats <> argo_profiles) by done.
  destruct (import_argo_floats_run w1 (writerow (Text <$> t_cols sF))
              (writerow <$> t_rows sF) d tF (back <$> t_rows sF))
    as (w2 & Hrun2 & Hpg2 & Hfiles2).
  { rewrite Hfiles1. rewrite lookup_insert_ne by done.
    by rewrite lookup_insert_eq. }
  { by rewrite Hpg1. }
  { exact HtF. }
  { erewrite copy_data_written by exact HbackF.
    by apply parse_rows_written. }
  { exact HinsF. }
  cbv zeta in Hpg2.
  destruct (import_argo_profiles_run w2 (writerow (Text <$> t_cols sP))
              (writerow <$> t_rows sP)
              (append_rows argo_floats (back <$> t_rows sF) d)
              tP (back <$> t_rows sP))
    as (w3 & Hrun3 & Hpg3 & _).
  { rewrite Hfiles2, Hfiles1. by rewrite lookup_insert_eq. }
  { exact Hpg2. }
  { by rewrite tables_append_rows_ne. }
  { erewrite copy_data_written by exact HbackP.
    by apply parse_rows_written. }
  { exact HinsP. }
  cbv zeta in Hpg3.
  exists w1, w2, w3. split; [exact Hrun1|]. split; [exact Hrun2|].
  split; [exact Hrun3|]. rewrite Hpg3. cbn [committed]. split.
  - unfold rows_of. rewrite tables_append_rows_ne by done.
    by erewrite tables_append_rows.
  - unfold rows_of. erewrite tables_append_rows; [done|].
    by rewrite tables_append_rows_ne.
Qed.

End ExportToCsv.


(** * The claims on the example worlds *)

Existing Instance example_destination.


(** The fourth float repeats a key: batch 2 fails, batch 1 stays. *)
Lemma batch_commit_durability_witness :
  exists e w',
    migrate_data 6 argo_floats 2 example_duplicate = Some (Raise e, w') /\
    rows_of (committed (pg w')) argo_floats
    = [float_row "5904471" 120; float_row "5904472" 7] /\
    exists evs cols bs rest,
      log w' = log example_duplicate ++ evs /\
      pg_writes evs = batch_writes argo_floats cols bs ++ rest /\
      committed (pg w')
      = append_rows argo_floats (concat bs) (committed (pg example_duplicate)) /\
      ((rest = [] /\ inserted_batches evs = bs) \/
       (exists b, rest = [PgExecuteMany argo_floats cols b] /\
                  inserted_batches evs = bs ++ [b])).
Proof.
  eexists _, _. split; [vm_compute; reflexivity|].
  split; [vm_compute; reflexivity|].
  eapply (batch_commit_durability 6 argo_floats 2 example_duplicate (Raise _)).
  - vm_compute. reflexivity.
  - reflexivity.
Defined.

Lemma paging_loop_terminates_witness :
  (exists r w' evs,
     migrate_loop (S (Z.to_nat 5)) argo_floats argo_floats_columns 2 5 0 0
       example_drifting = Some (r, w') /\
     log w' = log example_drifting ++ evs /\
     (forall i off, page_offsets evs !! i = Some off ->
                    off = Z.of_nat i * 2) /\
     (forall n, r = Return n -> n = sum_lengths (inserted_batches evs))) /\
  (exists fuel0, forall fuel, (fuel0 <= fuel)%nat ->
     exists r w' evs,
       migrate_data fuel argo_floats 2 example_drifting = Some (r, w') /\
       log w' = log example_drifting ++ evs /\
       (forall i off, page_offsets evs !! i = Some off ->
                      off = Z.of_nat i * 2) /\
       (forall n, r = Return n -> n = sum_lengths (inserted_batches evs))).
Proof.
  apply (paging_loop_terminates argo_floats argo_floats_columns 2 5
           example_drifting); lia.
Defined.

(** The drifting source: five floats counted, two left when the second
    page is asked for at offset 2 < 5; and the last page of the
    unchanged source, one row where the batch size is two. *)
Lemma paging_edge_cases_witness :
  migrate_data 6 argo_floats 2 example_drifting
  = migrate_data 2 argo_floats 2 example_drifting /\
  (exists w', migrate_data 6 argo_floats 2 example_drifting
              = Some (Return 2, w')) /\
  migrate_loop 1 argo_floats argo_floats_columns 2 5 2 2
    (tick (tick (tick example_drifting)))
  = Some (Return 2,
          emit (SqliteSelect argo_floats 2 2 [])
            (tick (tick (tick (tick example_drifting))))) /\
  exists w',
    migrate_loop 2 argo_floats argo_floats_columns 2 5 4 4 example_ready
    = Some (Return (4 + Z.of_nat (length [float_row "5904475" 2])), w') /\
    log w' = log example_ready
             ++ [SqliteSelect argo_floats 2 4 [float_row "5904475" 2];
                 PgExecuteMany argo_floats argo_floats_columns
                   [float_row "5904475" 2];
                 PgCommit;
                 Print (Progress (4 + Z.of_nat (length [float_row "5904475" 2])) 5)] /\
    committed (pg w')
    = append_rows argo_floats [float_row "5904475" 2] provisioned_db.
Proof.
  split; [vm_compute; reflexivity|].
  split; [eexists; vm_compute; reflexivity|].
  split.
  - apply (proj1 (paging_edge_cases 0 argo_floats shrunk_floats 2 5 2 2
                    (tick (tick (tick example_drifting)))
                    ltac:(lia) eq_refl ltac:(vm_compute; reflexivity))).
    reflexivity.
  - apply (proj2 (paging_edge_cases 0 argo_floats example_floats 2 5 4 4
                    example_ready ltac:(lia) eq_refl
                    ltac:(vm_compute; reflexivity))
             [float_row "5904475" 2] provisioned_db provisioned_db).
    + reflexivity.
    + done.
    + lia.
    + reflexivity.
    + vm_compute. reflexivity.
Defined.

(** Floats migrated (5 and 5), profiles not (3 and 0). *)
Lemma verify_migration_reports_witness :
  (exists w',
     verify_migration example_half_migrated
     = Some (Return ((row_count example_profiles
                      =? row_count (Table argo_profiles_columns []))
                     && (row_count example_floats =? row_count example_floats)),
             w') /\
     log w' = log example_half_migrated ++
       [Print (Say "Verifying migration...");
        SqliteCount argo_profiles (row_count example_profiles);
        PgCount argo_profiles;
        Print (report_line argo_profiles (row_count example_profiles)
                 (row_count (Table argo_profiles_columns [])));
        SqliteCount argo_floats (row_count example_floats);
        PgCount argo_floats;
        Print (report_line argo_floats (row_count example_floats)
                 (row_count example_floats))] /\
     pg w' = pg example_half_migrated) /\
  report_line argo_profiles 3 0 = CountsMismatch argo_profiles 3 0 /\
  report_line argo_floats 5 5 = CountsMatch argo_floats 5.
Proof.
  split; [|split; reflexivity].
  refine (proj1 (verify_migration_reports example_half_migrated
            half_migrated_db half_migrated_db
            example_profiles example_floats
            (Table argo_profiles_columns []) example_floats
            eq_refl _ _ eq_refl _ _)); vm_compute; reflexivity.
Defined.

(** C4 as stated fails: what [verify_migration] returns does not tell
    the counts.  On two destinations that both miss rows, with different
    counts, it returns the same [false]. *)
Lemma verify_migration_returns_no_detail :
  ~ exists detail_of : bool -> list (string * Z * Z * bool),
      forall w b w',
        verify_migration w = Some (Return b, w') ->
        detail_of b
        = [table_detail w (sqlite_clock w) argo_profiles;
           table_detail w (S (sqlite_clock w)) argo_floats].
Proof.
  intros [detail_of Hdetail].
  assert (exists w1, verify_migration example_ready = Some (Return false, w1))
    as [w1 H1] by (eexists; vm_compute; reflexivity).
  assert (exists w2, verify_migration example_shrunk = Some (Return false, w2))
    as [w2 H2] by (eexists; vm_compute; reflexivity).
  apply Hdetail in H1. apply Hdetail in H2. rewrite H1 in H2.
  vm_compute in H2. discriminate H2.
Qed.

(** The name idx_profiles_lat is taken by an index of another table:
    both provisioners fail on that statement. *)
Lemma failed_provisioning_witness :
  (exists w' evs,
     create_tables example_clashing
     = Some (Raise (DatabaseError (DuplicateRelation "idx_profiles_lat")), w') /\
     log w' = log example_clashing ++ evs /\ PgRollback ∈ evs /\
     pg w' = PgConn clashing_db clashing_db false true) /\
  (exists w' evs d',
     bulk_import_supabase.create_schema example_clashing
     = Some (Raise (DatabaseError (DuplicateRelation "idx_profiles_lat")), w') /\
     log w' = log example_clashing ++ evs /\ (PgRollback ∉ evs) /\
     pg w' = PgConn clashing_db d' true true).
Proof.
  destruct (failed_provisioning example_clashing clashing_db clashing_db
              (DuplicateRelation "idx_profiles_lat") eq_refl) as [Hct Hcs].
  split.
  - apply Hct. vm_compute. reflexivity.
  - apply (Hcs example_schema); vm_compute; reflexivity.
Defined.

(** C5 fails for [create_schema].  On a destination that has the
    tables already, the schema file's CREATE TABLE fails.
    [create_schema] has no handler: the error goes up as it is, no
    rollback is sent, and the connection is left in the failed
    transaction.  The other two provisioners, [create_tables] and
    [import_csv], roll back in their handlers. *)
Lemma create_schema_sends_no_rollback :
  exists e w',
    bulk_import_supabase.create_schema example_ready = Some (Raise e, w') /\
    in_failed_txn (pg w') = true /\
    PgRollback ∉ log w'.
Proof.
  eexists _, _. split; [vm_compute; reflexivity|].
  split; [reflexivity|].
  intros Hin.
  repeat (apply elem_of_cons in Hin as [Hin|Hin]; [discriminate Hin|]).
  by apply elem_of_nil in Hin.
Qed.

(** Provisioning again a destination that holds the migrated floats. *)
Lemma create_tables_idempotent_witness :
  exists w1 w2,
    create_tables example_half_migrated = Some (Return tt, w1) /\
    create_tables w1 = Some (Return tt, w2) /\
    pg w1 = PgConn (provisioned half_migrated_db)
              (provisioned half_migrated_db) false true /\
    pg w2 = pg w1 /\
    tables (provisioned half_migrated_db) !! argo_floats
    = Some (Table argo_floats_columns []) /\
    tables (provisioned half_migrated_db) !! argo_profiles
    = Some (Table argo_profiles_columns []) /\
    (forall i ix,
       indexes (provisioned half_migrated_db) !! i = Some ix
       /\ i_table ix = argo_profiles
       <-> (i, ix) ∈ profile_indexes).
Proof.
  apply (create_tables_idempotent example_half_migrated
           half_migrated_db half_migrated_db).
  - reflexivity.
  - intros s _. reflexivity.
  - split; apply (bool_decide_unpack _); vm_compute; exact I.
  - split; [vm_compute; reflexivity|]. split; [vm_compute; reflexivity|].
    repeat constructor; vm_compute; tauto.
Defined.


(** The same files through the three loaders: the bulk loader of
    argo_profiles raises and leaves the table empty; the CSV script
    returns with the two floats committed and no profile. *)
Example streaming_load_truncated :
  (exists e w',
     bulk_import_supabase.import_argo_profiles example_truncated
     = Some (Raise e, w') /\
     rows_of (committed (pg w')) argo_profiles = []) /\
  (exists w',
     bulk_import_supabase.import_argo_floats example_truncated
     = Some (Return tt, w') /\
     length (rows_of (committed (pg w')) argo_floats) = 2%nat) /\
  (exists w',
     import_csv_to_supabase.import_csv "postgres://" example_truncated_fresh
     = Some (Return tt, w') /\
     length (rows_of (committed (pg w')) argo_floats) = 2%nat /\
     rows_of (committed (pg w')) argo_profiles = []).
Proof.
  split; [|split].
  - eexists _, _. split; vm_compute; reflexivity.
  - eexists. split; vm_compute; reflexivity.
  - eexists. split; [vm_compute; reflexivity|].
    split; vm_compute; reflexivity.
Qed.


(** C8 fails for [bulk_import_supabase.main]: its [conn.close()] is the
    last statement of the try block, not a cleanup.  On the export cut
    short the load of argo_profiles raises, the handler prints and
    re-raises, and the run ends with the connection open and never
    closed. *)
Theorem bulk_main_leaves_connection_open :
  exists e w',
    bulk_import_supabase.main example_truncated_fresh = Some (Raise e, w') /\
    pg_open (pg w') = true /\
    PgConnect ∈ log w' /\
    PgClose ∉ log w'.
Proof.
  eexists _, _. split; [vm_compute; reflexivity|].
  split; [reflexivity|]. split.
  - apply list_elem_of_In. vm_compute. tauto.
  - intros Hin.
    repeat (apply elem_of_cons in Hin as [Hin|Hin]; [discriminate Hin|]).
    by apply elem_of_nil in Hin.
Qed.

(** A run of [migrate_to_supabase.main], whose cleanup is a [finally]:
    both connections are closed at the end. *)
Example migrate_main_closes_example :
  exists w',
    main 6 example_world = Some (Return tt, w') /\
    sqlite_open w' = false /\ pg_open (pg w') = false.
Proof. eexists. split; [vm_compute; reflexivity|]. by split. Qed.


(** The example source holds both tables: the connection is made. *)
Lemma connect_sqlite_checks_tables_witness :
  exists w' evs,
    connect_sqlite example_world = Some (Return tt, w') /\
    log w' = log example_world ++ evs /\
    sqlite_open w' = true /\ pg w' = pg example_world.
Proof.
  apply (proj1 (connect_sqlite_checks_tables example_world)).
  split; eexists; vm_compute; reflexivity.
Defined.

(** The destination where idx_profiles_lat is taken: the run ends at
    provisioning. *)
Lemma main_provisioning_failure_witness :
  exists w' evs,
    main 6 example_clashing = Some (Return tt, w') /\
    log w' = log example_clashing ++ evs /\
    committed (pg w') = committed (pg example_clashing) /\
    Print (SayFailed "Migration failed"
             (DatabaseError (DuplicateRelation "idx_profiles_lat"))) ∈ evs /\
    PgRollback ∈ evs /\
    fetched_batches evs = [] /\ inserted_batches evs = [].
Proof.
  apply (main_provisioning_failure 6 example_clashing
           (DuplicateRelation "idx_profiles_lat")).
  - split; [|split].
    + eexists. split; [reflexivity|discriminate].
    + split; eexists; vm_compute; reflexivity.
    + reflexivity.
  - vm_compute. reflexivity.
Defined.

(** The example source into an empty destination. *)
Lemma migration_end_to_end_witness :
  exists w' evs,
    main 6 example_world = Some (Return tt, w') /\
    log w' = log example_world ++ evs /\
    rows_of (committed (pg w')) argo_floats = t_rows example_floats /\
    rows_of (committed (pg w')) argo_profiles = t_rows example_profiles /\
    Print (CountsMatch argo_profiles (row_count example_profiles)) ∈ evs /\
    Print (CountsMatch argo_floats (row_count example_floats)) ∈ evs /\
    Print (Say "MIGRATION SUCCESSFUL!") ∈ evs.
Proof.
  apply (migration_end_to_end 6 example_world
           "postgres://postgres@pooler.supabase.com:5432/postgres"
           example_source example_floats example_profiles).
  - reflexivity.
  - discriminate.
  - intros k. reflexivity.
  - vm_compute. reflexivity.
  - vm_compute. reflexivity.
  - reflexivity.
  - intros s _. reflexivity.
  - split; apply (bool_decide_unpack _); vm_compute; exact I.
  - split; [vm_compute; reflexivity|]. split; [vm_compute; reflexivity|].
    repeat constructor; vm_compute; tauto.
  - eexists. vm_compute. reflexivity.
  - eexists. vm_compute. reflexivity.
  - simpl. lia.
  - simpl. lia.
Defined.

Lemma success_line_sound_witness :
  exists w' evs,
    main 6 example_world = Some (Return tt, w') /\
    log w' = log example_world ++ evs /\
    (Print (Say "MIGRATION SUCCESSFUL!") ∈ evs ->
     Return tt = Return tt /\
     (exists nP nF,
        Print (CountsMatch argo_profiles nP) ∈ evs /\
        Print (CountsMatch argo_floats nF) ∈ evs) /\
     forall t a b, Print (CountsMismatch t a b) ∉ evs).
Proof.
  assert (Hrun : exists w', main 6 example_world = Some (Return tt, w'))
    by (eexists; vm_compute; reflexivity).
  destruct Hrun as [w' Hrun].
  destruct (success_line_sound 6 example_world (Return tt) w' Hrun)
    as (evs & Hlog & Hsound).
  exists w', evs. split; [exact Hrun|]. split; [exact Hlog|exact Hsound].
Defined.

(** The source that shrinks from five floats to two during the run. *)
Lemma migrate_data_bounds_witness :
  exists r w' evs,
    migrate_data 6 argo_floats 2 example_drifting = Some (r, w') /\
    log w' = log example_drifting ++ evs /\
    Z.of_nat (length (page_offsets evs)) * 2 < row_count example_floats + 2 /\
    Forall (fun b => Z.of_nat (length b) <= 2) (fetched_batches evs) /\
    forall n, r = Return n -> 0 <= n < row_count example_floats + 2.
Proof.
  assert (Hrun : exists r w',
            migrate_data 6 argo_floats 2 example_drifting = Some (r, w'))
    by (eexists _, _; vm_compute; reflexivity).
  destruct Hrun as (r & w' & Hrun).
  destruct (migrate_data_bounds 6 argo_floats 2 example_drifting
              example_floats r w' ltac:(lia) eq_refl
              ltac:(vm_compute; reflexivity) Hrun) as (evs & Hbounds).
  exists r, w', evs. split; [exact Hrun|exact Hbounds].
Defined.


(** With a batch size of -1 the five floats go in at once, and again:
    the primary key stops the second round. *)
Lemma migrate_data_negative_batch_witness :
  exists r w',
    migrate_data 6 argo_floats (-1) example_ready = Some (r, w') /\
    exists e, r = Raise e.
Proof.
  eexists _, _. split; [vm_compute; reflexivity|].
  eapply (migrate_data_negative_batch 6 argo_floats (-1) example_ready
            example_floats _ _ ltac:(lia)).
  - intros k. reflexivity.
  - discriminate.
  - reflexivity.
  - vm_compute. reflexivity.
Defined.

(** The stations and their index stay. *)
Lemma create_tables_frame_witness :
  exists w',
    create_tables example_shared = Some (Return tt, w') /\
    (forall t, t <> argo_floats -> t <> argo_profiles ->
       tables (committed (pg w')) !! t = tables shared_db !! t) /\
    (forall i ix, i_table ix <> argo_floats -> i_table ix <> argo_profiles ->
       (indexes (committed (pg w')) !! i = Some ix
        <-> indexes shared_db !! i = Some ix)).
Proof.
  assert (Hrun : exists w', create_tables example_shared
                            = Some (Return tt, w'))
    by (eexists; vm_compute; reflexivity).
  destruct Hrun as [w' Hrun]. exists w'. split; [exact Hrun|].
  apply (create_tables_frame example_shared shared_db shared_db w').
  - reflexivity.
  - intros s _. reflexivity.
  - split; apply (bool_decide_unpack _); vm_compute; exact I.
  - split; [vm_compute; reflexivity|]. split; [vm_compute; reflexivity|].
    repeat constructor; vm_compute; tauto.
  - exact Hrun.
Defined.

(** The export cut short: the bulk script raises on argo_profiles.csv. *)
Lemma bulk_main_outcome_witness :
  exists e w' evs,
    bulk_import_supabase.main example_truncated_fresh = Some (Raise e, w') /\
    log w' = log example_truncated_fresh ++ evs /\
    is_Exception e = true /\
    last evs = Some (Print (SayFailed "ERROR" e)) /\
    (PgClose ∉ evs) /\ (Print (Say "MIGRATION COMPLETE!") ∉ evs) /\
    (PgConnect ∈ evs -> pg_open (pg w') = true).
Proof.
  assert (Hrun : exists e w',
            bulk_import_supabase.main example_truncated_fresh
            = Some (Raise e, w'))
    by (eexists _, _; vm_compute; reflexivity).
  destruct Hrun as (e & w' & Hrun).
  destruct (bulk_main_outcome example_truncated_fresh (Raise e) w' Hrun)
    as (evs & Hlog & Hout).
  exists e, w', evs. split; [exact Hrun|]. split; [exact Hlog|exact Hout].
Defined.

Lemma bulk_main_success_sound_witness :
  exists w' evs ss d1 d2 d3,
    bulk_import_supabase.main example_world = Some (Return tt, w') /\
    log w' = log example_world ++ evs /\
    schema_file example_world = Some ss /\
    exec_ddls ss (committed (pg example_world)) = inr d1 /\
    stream_committed example_world argo_floats
      bulk_import_supabase.argo_floats_csv (Some argo_floats_columns)
      data_after_next d1 d2 /\
    stream_committed example_world argo_profiles
      bulk_import_supabase.argo_profiles_csv (Some argo_profiles_columns)
      data_after_next d2 d3 /\
    committed (pg w') = d3 /\
    Print (ImportedTotal argo_floats
             (Z.of_nat (length (rows_of d3 argo_floats)))) ∈ evs /\
    Print (ImportedTotal argo_profiles
             (Z.of_nat (length (rows_of d3 argo_profiles)))) ∈ evs.
Proof.
  assert (Hrun : exists w',
            bulk_import_supabase.main example_world = Some (Return tt, w'))
    by (eexists; vm_compute; reflexivity).
  destruct Hrun as (w' & Hrun).
  destruct (bulk_main_success_sound example_world w' Hrun)
    as (evs & ss & d1 & d2 & d3 & Hsound).
  exists w', evs, ss, d1, d2, d3. split; [exact Hrun|exact Hsound].
Defined.

(** Only the header line in argo_profiles.csv: loaded, nothing added. *)
Lemma bulk_import_stream_edges_witness :
  exists w' evs,
    bulk_import_supabase.import_argo_profiles example_header_only
    = Some (Return tt, w') /\
    log w' = log example_header_only ++ evs /\
    pg w' = PgConn half_migrated_db half_migrated_db false true /\
    Print (Imported argo_profiles
             (row_count (Table argo_profiles_columns []))) ∈ evs.
Proof.
  apply (proj2 (proj2 (bulk_import_stream_edges example_header_only))
           "id,float_id,timestamp,latitude,longitude,depth,temperature,salinity,pressure"
           half_migrated_db (Table argo_profiles_columns [])).
  - vm_compute. reflexivity.
  - reflexivity.
  - vm_compute. reflexivity.
Defined.

(** The CSV script on the export cut short: it returns and closes the
    connection, one way or the other. *)
Lemma import_csv_main_outcome_witness :
  exists w' evs,
    import_csv_to_supabase.main example_truncated_fresh
    = Some (Return tt, w') /\
    log w' = log example_truncated_fresh ++ evs /\
    Return tt = Return tt /\
    pg_open (pg w') = false /\
    last evs = Some (Print (Say "Connection closed")) /\
    ((Print (Say "IMPORT SUCCESSFUL!") ∈ evs /\ (PgRollback ∉ evs) /\
      Print (EnvUrl "postgres://postgres@pooler.supabase.com:5432/postgres")
        ∈ evs /\
      exists ss d1 d2,
        schema_file example_truncated_fresh = Some ss /\
        exec_ddls ss (committed (pg example_truncated_fresh)) = inr d1 /\
        stream_committed example_truncated_fresh argo_floats
          "argo_floats.csv" None data_after_header d1 d2 /\
        stream_committed example_truncated_fresh argo_profiles
          "argo_profiles.csv" None data_after_header d2 (committed (pg w'))) \/
     ((Print (Say "IMPORT SUCCESSFUL!") ∉ evs) /\ PgRollback ∈ evs /\
      exists e, is_Exception e = true /\
                Print (SayFailed "Import failed" e) ∈ evs)).
Proof.
  assert (Hrun : exists w',
            import_csv_to_supabase.main example_truncated_fresh
            = Some (Return tt, w'))
    by (eexists; vm_compute; reflexivity).
  destruct Hrun as (w' & Hrun).
  destruct (import_csv_main_outcome example_truncated_fresh (Return tt) w'
              Hrun) as (evs & Hlog & Hout).
  exists w', evs. split; [exact Hrun|]. split; [exact Hlog|exact Hout].
Defined.

Existing Instance example_writer.

(** The floats of the example source, exported. *)
Lemma export_to_csv_writes_table_witness :
  exists w' evs,
    export_to_csv.export_to_csv 6 argo_floats "argo_floats.csv" example_world
    = Some (export_to_csv.Done (row_count example_floats), w') /\
    log w' = log example_world ++ evs /\
    csv_files w'
    = <["argo_floats.csv" := exported_lines example_floats]>
        (csv_files example_world) /\
    sqlite_open w' = false /\ same_stores example_world w' /\
    Print (TotalRows (row_count example_floats)) ∈ evs.
Proof.
  apply (export_to_csv_writes_table 6 argo_floats "argo_floats.csv"
           example_world example_floats example_floats).
  - vm_compute. reflexivity.
  - vm_compute. reflexivity.
  - intros Hrows. exact Hrows.
  - simpl. lia.
Defined.

(** The floats that appear between the count and the select. *)
Lemma export_to_csv_failures_witness :
  exists w' evs,
    export_to_csv.export_to_csv 1 argo_floats "argo_floats.csv"
      example_filling
    = Some (export_to_csv.Failed export_to_csv.ZeroDivisionError, w') /\
    log w' = log example_filling ++ evs /\
    csv_files w'
    = <["argo_floats.csv" :=
          exported_lines
            (Table (t_cols example_floats)
               (take export_to_csv.batch_size (t_rows example_floats)))]>
        (csv_files example_filling) /\
    sqlite_open w' = true /\
    (Print (Say ("Exported to: " ++ "argo_floats.csv")) ∉ evs).
Proof.
  apply (proj2 (export_to_csv_failures 1 argo_floats "argo_floats.csv"
                  example_filling)
           (Table argo_floats_columns []) example_floats).
  - vm_compute. reflexivity.
  - vm_compute. reflexivity.
  - reflexivity.
  - discriminate.
  - lia.
Defined.

(** The export over a source that has the floats only. *)
Lemma export_main_missing_tables_witness :
  exists w' evs,
    export_to_csv.main 6 example_floats_only
    = Some (export_to_csv.Done tt, w') /\
    log w' = log example_floats_only ++ evs /\
    last evs = Some (Print (Say "Required tables not found")) /\
    csv_files w' = csv_files example_floats_only /\
    sqlite_open w' = true /\ (SqliteClose ∉ evs).
Proof.
  apply (export_main_missing_tables 6 example_floats_only).
  intros [[tb Htb] _]. vm_compute in Htb. discriminate Htb.
Defined.

(** The example source exported, then loaded into the freshly
    provisioned destination. *)
Lemma export_then_bulk_import_witness :
  exists w1 w2 w3,
    export_to_csv.main 6 example_ready = Some (export_to_csv.Done tt, w1) /\
    bulk_import_supabase.import_argo_floats w1 = Some (Return tt, w2) /\
    bulk_import_supabase.import_argo_profiles w2 = Some (Return tt, w3) /\
    rows_of (committed (pg w3)) argo_floats
    = [] ++ (example_read_back <$> t_rows example_floats) /\
    rows_of (committed (pg w3)) argo_profiles
    = [] ++ (example_read_back <$> t_rows example_profiles).
Proof.
  apply (export_then_bulk_import 6 example_ready example_source
           example_floats example_profiles provisioned_db
           (Table argo_floats_columns []) (Table argo_profiles_columns [])
           example_read_back).
  - reflexivity.
  - vm_compute. reflexivity.
  - vm_compute. reflexivity.
  - simpl. lia.
  - simpl. lia.
  - reflexivity.
  - vm_compute. reflexivity.
  - vm_compute. reflexivity.
  - repeat constructor.
  - repeat constructor.
  - eexists. vm_compute. reflexivity.
  - eexists. vm_compute. reflexivity.
Defined.
